(** * Rupture sampling and UCERF classical hazard: a shallow embedding

    The development follows three source files of the engine:
    - [openquake/hazardlib/source/base.py]   (rupture sampling),
    - [openquake/hazardlib/gsim/multi.py]    (the composite GMPE),
    - [openquake/calculators/ucerf_classical.py] (the per-chunk hazard task
      and the conversion of a UCERF source node).

    Generators are embedded as the finite list of the items they yield when
    they are run to exhaustion, together with the state of the process-wide
    random generator they leave behind.  The debugging [print] calls of the
    source write to standard output only and are left out. *)

From Stdlib Require Import ZArith QArith Qcanon Qround String List Lia Lqa.
From stdpp Require Import base tactics option list vector numbers strings gmap.

Local Open Scope Z_scope.
Local Open Scope nat_scope.

(** ** Python results *)

Inductive Exception : Type :=
| AssertionError (msg : string)
| ValueError (msg : string)
| KeyError (key : string).

(** The outcome of a call: a returned value, the implicit [None] of a
    function that falls off its end, or a raised exception. *)
Inductive PyResult (A : Type) : Type :=
| Return (a : A)
| ReturnNone
| Raise (e : Exception).
Arguments Return {A} a.
Arguments ReturnNone {A}.
Arguments Raise {A} e.

(** ** Floating-point numbers and numpy's process-wide random state *)

(** The operations of float64 that the sources use.  [of_int] is the
    conversion that numpy applies when an integer meets a float.  The
    comparison [a > b] of the source is [fltb b a], [a >= b] is
    [fleb b a] and [a != b] is [negb (feqb a b)].  The only law is that
    [<] is asymmetric, which holds for every pair of float64 values, NaN
    included. *)
Class Float (F : Type) : Type := {
  fmul : F -> F -> F;
  fsub : F -> F -> F;
  fexp : F -> F;
  flog : F -> F;
  loggamma : F -> F;
  of_int : Z -> F;
  fltb : F -> F -> bool;
  fleb : F -> F -> bool;
  feqb : F -> F -> bool;
  fltb_asym : forall x y, fltb x y = true -> fltb y x = false
}.

(** [numpy.random]: the state [G] is global to the process.  Seeding with
    an integer fixes the state whatever it was; seeding with [None] takes
    fresh entropy, modelled as an unknown function of the old state.
    [np_choice m] is [numpy.random.choice(m + 1)]: its result lies in
    [[0, m]]; [numpy.random.choice(0)] raises [ValueError]. *)
Class RandomState (F G : Type) : Type := {
  np_seed : Z -> G;
  np_seed_entropy : G -> G;
  np_poisson : F -> G -> nat * G;
  np_random : G -> F * G;
  np_choice : forall m : nat, G -> fin (S m) * G
}.

Section NumpyVectorised.
Context {F G : Type} `{!RandomState F G}.

(** [numpy.random.poisson(lam)] on an array: one draw per element. *)
Fixpoint np_poisson_array (lam : list F) (g : G) : list nat * G :=
  match lam with
  | [] => ([], g)
  | l :: lam' =>
      let '(k, g1) := np_poisson l g in
      let '(ks, g2) := np_poisson_array lam' g1 in
      (k :: ks, g2)
  end.

(** [numpy.random.random(n)]: an array of [n] uniform draws. *)
Fixpoint np_random_array (n : nat) (g : G) : vec F n * G :=
  match n with
  | 0 => ([#], g)
  | S n' =>
      let '(a, g1) := np_random g in
      let '(v, g2) := np_random_array n' g1 in
      (a ::: v, g2)
  end.
End NumpyVectorised.

(** ** [source/base.py]: sources, ruptures and the samplers *)

Section SourceBase.
Context {F G : Type} `{!Float F} `{!RandomState F G}.
(** Rupture surfaces are built by the geometry layer and only passed on. *)
Context {Surface : Type}.

Record Point : Type := mkPoint {
  latitude : F; longitude : F; depth : F
}.

Record NodalPlane : Type := mkNodalPlane {
  strike : F; dip : F; np_rake : F
}.

(** [PoissonTOM]; an instance is always truthy. *)
Record TOM : Type := mkTOM { time_span : F }.

(** A rupture object.  [rup_id] and [idx] are the attributes that the
    samplers assign; [probs_occur] is the occurrence-count distribution a
    non-parametric rupture carries. *)
Record Rupture : Type := mkRupture {
  rup_id : option Z;
  idx : option nat;
  mag : F;
  rake : F;
  rup_tectonic_region_type : string;
  hypocenter : Point;
  surface : Surface;
  occurrence_rate : F;
  rup_temporal_occurrence_model : option TOM;
  probs_occur : list F
}.

Definition set_rup_id (i : Z) (r : Rupture) : Rupture :=
  mkRupture (Some i) (idx r) (mag r) (rake r) (rup_tectonic_region_type r)
    (hypocenter r) (surface r) (occurrence_rate r)
    (rup_temporal_occurrence_model r) (probs_occur r).

Definition set_idx (i : nat) (r : Rupture) : Rupture :=
  mkRupture (rup_id r) (Some i) (mag r) (rake r) (rup_tectonic_region_type r)
    (hypocenter r) (surface r) (occurrence_rate r)
    (rup_temporal_occurrence_model r) (probs_occur r).

(** [ParametricProbabilisticRupture(mag, rake, trt, hypocenter, surface,
    occurrence_rate, temporal_occurrence_model)]. *)
Definition ParametricProbabilisticRupture (m rk : F) (trt : string)
    (hc : Point) (sfc : Surface) (rate : F) (tom : TOM) : Rupture :=
  mkRupture None None m rk trt hc sfc rate (Some tom) [].

(** The two methods of a non-parametric rupture that the sampler calls;
    the rupture classes are defined outside the files at hand.
    [sample_number_of_occurrences rup n] is an array of [n] counts. *)
Context (sample_number_of_occurrences :
           Rupture -> forall n : nat, G -> vec nat n * G).
Context (proba_number_of_occurrences : Rupture -> nat -> F).

(** [grp_id] is an integer or a sequence of integers. *)
Inductive GrpId : Type :=
| GrpInt (i : Z)
| GrpSeq (l : list Z).

(** What iterating a (multi)point or area source yields: parametric
    sources with a location, a nodal-plane and a hypocenter
    distribution. *)
Record PointSource : Type := mkPointSource {
  ps_tectonic_region_type : string;
  ps_min_mag : F;
  ps_mfd_rates : list (F * F);
  ps_scaling_rate : option F;
  ps_nodal_plane_distribution : list (F * NodalPlane);
  ps_hypocenter_distribution : list (F * F);
  ps_location : Point;
  ps_get_rupture_surface : F -> NodalPlane -> Point -> Surface
}.

(** A seismic source.  Attributes that the code probes with [getattr] or
    [hasattr] are options; the abstract methods [iter_ruptures] and
    [count_ruptures] are given by their results; [sub_sources] is what
    [for src in self] visits. *)
Record Source : Type := mkSource {
  source_id : string;
  name : string;
  tectonic_region_type : string;
  grp_id : GrpId;
  serial : Z;
  seed : option Z;
  src_rup_id : option Z;
  min_mag : F;
  temporal_occurrence_model : option TOM;
  mutex_weight : option F;
  nodal_plane_distribution : option (list (F * NodalPlane));
  sub_sources : list PointSource;
  iter_ruptures : list Rupture;
  count_ruptures : nat
}.

Definition grp_ids (src : Source) : list Z :=
  match grp_id src with
  | GrpInt i => [i]
  | GrpSeq l => l
  end.

(** [ParametricSeismicSource.get_annual_occurrence_rates(min_rate=0)]. *)
Definition get_annual_occurrence_rates (src : PointSource) : list (F * F) :=
  let scaling_rate := default (of_int 1) (ps_scaling_rate src) in
  omap (fun '(m, occ_rate) =>
          if fltb (of_int 0) occ_rate && fleb (ps_min_mag src) m
          then Some (m, fmul occ_rate scaling_rate) else None)
       (ps_mfd_rates src).

(** One element of
    [numpy.exp(occurs * numpy.log(lambda_) - lambda_ - loggamma(occurs+1))]. *)
Definition poisson_proba (num_occ : nat) (lambda_ : F) : F :=
  fexp (fsub (fsub (fmul (of_int (Z.of_nat num_occ)) (flog lambda_)) lambda_)
             (loggamma (of_int (Z.of_nat num_occ + 1)))).

(** [rates * tom.time_span * eff_num_ses], one element. *)
Definition eff_rate (tom : TOM) (eff_num_ses : nat) (rate : F) : F :=
  fmul (fmul rate (time_span tom)) (of_int (Z.of_nat eff_num_ses)).

(** [if num_occ: yield ...] over the zipped arrays. *)
Definition yield_if_occurs {A : Type} (l : list (A * nat * F))
  : list (A * nat * F) :=
  filter (fun e => e.1.2 ≠ 0) l.

(** The argument tuples [rup_args] of the (multi)point and area branch. *)
Record RupArgs : Type := mkRupArgs {
  a_mag_occ_rate : F; a_np_prob : F; a_hc_prob : F;
  a_mag : F; a_np : NodalPlane; a_hc_depth : F; a_src : PointSource
}.

Definition rup_args_of (self_min_mag : F) (src : PointSource) : list RupArgs :=
  m ← get_annual_occurrence_rates src;
  if fltb m.1 self_min_mag then [] else
  n ← ps_nodal_plane_distribution src;
  h ← ps_hypocenter_distribution src;
  [mkRupArgs m.2 n.1 h.1 m.1 n.2 h.2 src].

Definition args_rate (a : RupArgs) : F :=
  fmul (fmul (a_mag_occ_rate a) (a_np_prob a)) (a_hc_prob a).

Definition build_rupture (tom : TOM) (a : RupArgs) : Rupture :=
  let src := a_src a in
  let hc := mkPoint (latitude (ps_location src)) (longitude (ps_location src))
                    (a_hc_depth a) in
  let sfc := ps_get_rupture_surface src (a_mag a) (a_np a) hc in
  ParametricProbabilisticRupture (a_mag a) (np_rake (a_np a))
    (ps_tectonic_region_type src) hc sfc (args_rate a) tom.

Definition zip3 {A B C : Type} (la : list A) (lb : list B) (lc : list C)
  : list (A * B * C) :=
  zip (zip la lb) lc.

Definition sample_ruptures_poissonian (self : Source) (tom : TOM)
    (eff_num_ses : nat) (g : G) : list (Rupture * nat * F) * G :=
  match nodal_plane_distribution self with
  | None => (* fault *)
      let ruptures := iter_ruptures self in
      let rates := occurrence_rate <$> ruptures in
      let lambda_ := eff_rate tom eff_num_ses <$> rates in
      let '(occurs, g1) := np_poisson_array lambda_ g in
      let probas := zip_with poisson_proba occurs lambda_ in
      (yield_if_occurs (zip3 ruptures occurs probas), g1)
  | Some _ => (* (multi)point sources and area sources *)
      let rup_args := src ← sub_sources self; rup_args_of (min_mag self) src in
      let rates := args_rate <$> rup_args in
      let eff_rates := eff_rate tom eff_num_ses <$> rates in
      let '(occurs, g1) := np_poisson_array eff_rates g in
      let probas := zip_with poisson_proba occurs eff_rates in
      (yield_if_occurs (zip3 (build_rupture tom <$> rup_args) occurs probas), g1)
  end.

(** [occurs *= (aux < mutex_weight)]: element by element. *)
Definition thin_by_mutex {n : nat} (w : F) (occurs : vec nat n)
    (aux : vec F n) : vec nat n :=
  vzip_with (fun o a => o * (if fltb a w then 1 else 0)) occurs aux.

(** The per-repeat occurrences of one rupture in the non-parametric
    branch of [_sample_ruptures], after the mutex step.  Without a
    declared [mutex_weight] the default is the integer [1], and [1 < 1]
    is false. *)
Definition sample_occurs (mutex_weight : option F) (rup : Rupture)
    (eff_num_ses : nat) (g : G) : vec nat eff_num_ses * G :=
  let '(occurs, g1) := sample_number_of_occurrences rup eff_num_ses g in
  match mutex_weight with
  | Some w =>
      if fltb w (of_int 1) then
        let '(aux, g2) := np_random_array eff_num_ses g1 in
        (thin_by_mutex w occurs aux, g2)
      else (occurs, g1)
  | None => (occurs, g1)
  end.

(** The loop [for rup in self.iter_ruptures()] of the non-parametric
    branch. *)
Fixpoint sample_ruptures_nonparametric (mutex_weight : option F)
    (rups : list Rupture) (eff_num_ses : nat) (g : G)
  : list (Rupture * nat * F) * G :=
  match rups with
  | [] => ([], g)
  | rup :: rest =>
      let '(occurs, g1) := sample_occurs mutex_weight rup eff_num_ses g in
      let num_occ := sum_list (vec_to_list occurs) in
      let proba_occ := proba_number_of_occurrences rup num_occ in
      let '(out, g2) :=
        sample_ruptures_nonparametric mutex_weight rest eff_num_ses g1 in
      (if decide (num_occ ≠ 0) then (rup, num_occ, proba_occ) :: out else out,
       g2)
  end.

Definition _sample_ruptures (self : Source) (eff_num_ses : nat) (g : G)
  : list (Rupture * nat * F) * G :=
  match temporal_occurrence_model self with
  | Some tom => (* time-independent source *)
      sample_ruptures_poissonian self tom eff_num_ses g
  | None => (* time-dependent source (nonparametric) *)
      sample_ruptures_nonparametric (mutex_weight self) (iter_ruptures self)
        eff_num_ses g
  end.

(** [rup.rup_id = rup_id; rup_id += 1; yield rup, grp_id, num_occ,
    proba_occ] for the items of one inner generator.  Each yielded item
    is recorded as the consumer sees it when it is yielded. *)
Fixpoint assign_rup_ids (rup_id : Z) (grp : Z) (l : list (Rupture * nat * F))
  : list (Rupture * Z * nat * F) * Z :=
  match l with
  | [] => ([], rup_id)
  | (rup, num_occ, proba_occ) :: rest =>
      let '(out, last) := assign_rup_ids (rup_id + 1)%Z grp rest in
      ((set_rup_id rup_id rup, grp, num_occ, proba_occ) :: out, last)
  end.

Fixpoint sample_ruptures_groups (self : Source) (eff_num_ses : nat)
    (grps : list Z) (rup_id : Z) (g : G)
  : list (Rupture * Z * nat * F) * G :=
  match grps with
  | [] => ([], g)
  | grp :: rest =>
      let '(sampled, g1) := _sample_ruptures self eff_num_ses g in
      let '(out, rup_id1) := assign_rup_ids rup_id grp sampled in
      let '(more, g2) :=
        sample_ruptures_groups self eff_num_ses rest rup_id1 g1 in
      (out ++ more, g2)
  end.

(** [BaseSeismicSource.sample_ruptures]; [g] is the random state the
    process is in when the generator starts. *)
Definition sample_ruptures (self : Source) (eff_num_ses : nat) (g : G)
  : list (Rupture * Z * nat * F) * G :=
  let rup_id := serial self in
  let g0 := np_seed (serial self) in
  sample_ruptures_groups self eff_num_ses (grp_ids self) rup_id g0.

Definition mutex_msg : string :=
  "Mutually exclusive ruptures are admitted only in case of non-parametric sources".

(** The loop [for i, rup in enumerate(self.iter_ruptures())] of
    [get_one_rupture]; falling off its end returns [None]. *)
Fixpoint pick_rupture (self_rup_id : option Z) (i idx_ : nat)
    (rups : list Rupture) : PyResult Rupture :=
  match rups with
  | [] => ReturnNone
  | rup :: rest =>
      if decide (i = idx_) then
        let rup1 := match self_rup_id with
                    | Some r => set_rup_id r rup
                    | None => rup
                    end in
        Return (set_idx idx_ rup1)
      else pick_rupture self_rup_id (S i) idx_ rest
  end.

(** [ParametricSeismicSource.get_one_rupture]. *)
Definition get_one_rupture (self : Source) (rupture_mutex : bool) (g : G)
  : PyResult Rupture * G :=
  if rupture_mutex then (Raise (AssertionError mutex_msg), g) else
  let num_ruptures := count_ruptures self in
  let g0 := match seed self with
            | Some s => np_seed s
            | None => np_seed_entropy g
            end in
  match num_ruptures with
  | 0 => (Raise (ValueError "a must be greater than 0"), g0)
  | S m =>
      let '(i, g1) := np_choice m g0 in
      (pick_rupture (src_rup_id self) 0 (fin_to_nat i) (iter_ruptures self), g1)
  end.

(** The ruptures a sampler decides upon, in the order it visits them:
    the ruptures of [iter_ruptures], or, for a Poissonian (multi)point or
    area source, the ruptures of the enumerated combinations. *)
Definition candidate_ruptures (self : Source) : list Rupture :=
  match temporal_occurrence_model self, nodal_plane_distribution self with
  | Some tom, Some _ =>
      build_rupture tom
        <$> (src ← sub_sources self; rup_args_of (min_mag self) src)
  | _, _ => iter_ruptures self
  end.

End SourceBase.

(** ** [gsim/multi.py]: the composite GMPE *)

(** The capability sets of a ground-motion model.  IMT classes,
    standard-deviation types and parameter names are given by name. *)
Record Capabilities : Type := mkCapabilities {
  DEFINED_FOR_INTENSITY_MEASURE_TYPES : gset string;
  DEFINED_FOR_STANDARD_DEVIATION_TYPES : gset string;
  REQUIRES_SITES_PARAMETERS : gset string;
  REQUIRES_RUPTURE_PARAMETERS : gset string;
  REQUIRES_DISTANCES : gset string
}.

(** A constituent GMPE: its printed form and its capability sets. *)
Record GMPE : Type := mkGMPE {
  gmpe_str : string;
  gmpe_caps : Capabilities
}.

(** An instance of [MultiGMPE]: [__init__] assigns [gsim_by_imt] (a
    dictionary, kept in insertion order) and no other instance
    attribute. *)
Record MultiGMPE : Type := mkMultiGMPE {
  gsim_by_imt : list (string * GMPE)
}.

(** The five set objects bound in the body of [class MultiGMPE].  They are
    created once, when the class statement runs, and live in the class. *)
Definition MultiGMPE_class_body : Capabilities :=
  mkCapabilities ∅ {["Total"]} ∅ {["mag"]} ∅.

(** [self.NAME] for a capability set [NAME]: the instance dictionary has no
    such entry, so the lookup yields the object stored in the class. *)
Definition self_caps (self : MultiGMPE) (cls : Capabilities) : Capabilities :=
  cls.

(** [s.update(t)] on each of the five sets reached through [self]. *)
Definition update_caps (cls : Capabilities) (gsim : GMPE) : Capabilities :=
  let c := gmpe_caps gsim in
  mkCapabilities
    (DEFINED_FOR_INTENSITY_MEASURE_TYPES cls ∪ DEFINED_FOR_INTENSITY_MEASURE_TYPES c)
    (DEFINED_FOR_STANDARD_DEVIATION_TYPES cls ∪ DEFINED_FOR_STANDARD_DEVIATION_TYPES c)
    (REQUIRES_SITES_PARAMETERS cls ∪ REQUIRES_SITES_PARAMETERS c)
    (REQUIRES_RUPTURE_PARAMETERS cls ∪ REQUIRES_RUPTURE_PARAMETERS c)
    (REQUIRES_DISTANCES cls ∪ REQUIRES_DISTANCES c).

Section Multi.
(** [from_string(imt).__class__], by name; [None] when [from_string]
    rejects the string. *)
Context (imt_class : string -> option string).

(** The loop of [MultiGMPE.__init__] over [gsim_by_imt.items()], threading
    the sets stored in the class. *)
Fixpoint init_items (items : list (string * GMPE)) (cls : Capabilities)
  : option Exception * Capabilities :=
  match items with
  | [] => (None, cls)
  | (imt, gsim) :: rest =>
      match imt_class imt with
      | None => (Some (ValueError ("Unknown IMT: " ++ imt)), cls)
      | Some c =>
          if decide (c ∈ DEFINED_FOR_INTENSITY_MEASURE_TYPES (gmpe_caps gsim))
          then init_items rest (update_caps cls gsim)
          else (Some (ValueError ("IMT " ++ imt ++ " not supported by "
                                    ++ gmpe_str gsim)), cls)
      end
  end.

(** [MultiGMPE(gsim_by_imt)]: the new instance and the class-level sets
    after the call. *)
Definition MultiGMPE_init (gsim_by_imt_ : list (string * GMPE))
    (cls : Capabilities) : PyResult MultiGMPE * Capabilities :=
  let self := mkMultiGMPE gsim_by_imt_ in
  match init_items gsim_by_imt_ cls with
  | (None, cls1) => (Return self, cls1)
  | (Some e, cls1) => (Raise e, cls1)
  end.
End Multi.

(** ** Floating-point numbers of the calculator *)

(** The probabilities and the clock readings of the calculator are
    floating-point numbers.  A finite floating-point number is the
    rational number it denotes, and an arithmetic operation returns the
    exact result rounded to a floating-point number: [rnd] is that
    rounding. *)
Class Rounding : Type := { rnd : Qc -> Qc }.

(** Arithmetic that does not round, to measure the rounded one against. *)
Definition exact_rounding : Rounding := {| rnd := fun x => x |}.

(** What is asked of rounding on the unit interval, where probabilities
    and their complements and products live: it is monotone, 0 and 1 are
    floating-point numbers, and a number moves by [e] at most.  Rounding
    to the nearest float64 is such a rounding with [e] = 2^-54, half the
    distance of two neighbouring numbers just below 1. *)
Record rounds_within {rounding : Rounding} (e : Qc) : Prop := {
  rnd_mono : forall x y, (0 ≤ x)%Qc -> (x ≤ y)%Qc -> (y ≤ 1)%Qc ->
                         (rnd x ≤ rnd y)%Qc;
  rnd_0 : rnd 0%Qc = 0%Qc;
  rnd_1 : rnd 1%Qc = 1%Qc;
  rnd_err : forall x, (0 ≤ x ≤ 1)%Qc -> (x - e ≤ rnd x ≤ x + e)%Qc
}.

(** ** The probability map *)

Module ProbabilityMap.
(** Modelled from the spec: the class [ProbabilityMap] of
    [openquake.hazardlib.probability_map], which the calculator imports
    and which is not among the files at hand.  A map sends a site index
    to a two-dimensional array of exceedance probabilities, indexed by
    intensity-measure level and ground-motion model; a fresh map has no
    site at all, which reads as probability zero everywhere.  The merge
    combines the arrays of a site present on both sides element by
    element with [1 - (1 - a) * (1 - b)], every operation of which
    rounds, and takes over a site present on one side only.  The
    attributes [calc_times], [eff_ruptures] and [grp_id] are assigned by
    the calculator; a fresh map has none of them, and the in-place merge
    [|=] leaves those of its left operand as they are (the calculator
    adds up [eff_ruptures] by itself after a merge). *)
Record t : Type := mk {
  shape_y : nat;
  shape_z : nat;
  curves : gmap nat (list (list Qc));
  calc_times : option (list (string * nat * Qc));
  eff_ruptures : option (gmap Z nat);
  grp_id : option Z
}.

(** [ProbabilityMap(shape_y, shape_z)]. *)
Definition new (y z : nat) : t := mk y z ∅ None None None.

Section Merge.
Context {rounding : Rounding}.

(** [1. - (1. - a) * (1. - b)] on floating-point numbers: two
    subtractions, a product and a last subtraction, each rounded. *)
Definition por (a b : Qc) : Qc :=
  rnd (1 - rnd (rnd (1 - a) * rnd (1 - b)))%Qc.

Definition curve_or (a b : list (list Qc)) : list (list Qc) :=
  zip_with (zip_with por) a b.

Definition merge_curves (a b : gmap nat (list (list Qc)))
  : gmap nat (list (list Qc)) :=
  union_with (fun x y => Some (curve_or x y)) a b.

(** [self |= other]. *)
Definition ior (self other : t) : t :=
  mk (shape_y self) (shape_z self) (merge_curves (curves self) (curves other))
     (calc_times self) (eff_ruptures self) (grp_id self).
End Merge.

(** The probability of exceedance a map holds for a site, a level and a
    ground-motion model. *)
Definition poe (m : t) (sid lvl gsim : nat) : Qc :=
  match curves m !! sid with
  | Some c => default 0%Qc (row ← c !! lvl; row !! gsim)
  | None => 0%Qc
  end.

(** The arrays of a map all have its shape. *)
Definition has_shape (y z : nat) (m : t) : Prop :=
  shape_y m = y ∧ shape_z m = z ∧
  ∀ sid c, curves m !! sid = Some c →
           length c = y ∧ Forall (fun row => length row = z) c.

(** What comparing two maps looks at: the shape and the probabilities. *)
Definition same (a b : t) : Prop :=
  shape_y a = shape_y b ∧ shape_z a = shape_z b ∧ curves a = curves b.

(** The entries of a map are probabilities. *)
Definition probabilities (m : t) : Prop :=
  ∀ sid c, curves m !! sid = Some c →
           Forall (Forall (fun p => (0 ≤ p ≤ 1)%Qc)) c.

(** Two numbers that differ by [d] at most. *)
Definition close (d p q : Qc) : Prop := (p - q ≤ d ∧ q - p ≤ d)%Qc.

(** Two maps that are equal within the tolerance [d]: they have the same
    shape and the same sites, the arrays of a site have the same numbers
    of rows and of columns, and entries at the same place differ by [d]
    at most. *)
Definition within (d : Qc) (a b : t) : Prop :=
  shape_y a = shape_y b ∧ shape_z a = shape_z b ∧
  ∀ sid, option_Forall2 (Forall2 (Forall2 (close d)))
           (curves a !! sid) (curves b !! sid).

Definition set_calc_times (v : list (string * nat * Qc)) (m : t) : t :=
  mk (shape_y m) (shape_z m) (curves m) (Some v) (eff_ruptures m) (grp_id m).
Definition set_eff_ruptures (v : gmap Z nat) (m : t) : t :=
  mk (shape_y m) (shape_z m) (curves m) (calc_times m) (Some v) (grp_id m).
Definition set_grp_id (v : Z) (m : t) : t :=
  mk (shape_y m) (shape_z m) (curves m) (calc_times m) (eff_ruptures m) (Some v).
End ProbabilityMap.

(** ** [calculators/ucerf_classical.py]: the per-chunk hazard task *)

Section UcerfClassical.
(** Ground-motion models are only counted and passed on. *)
Context {Gsim : Type}.
Context {rounding : Rounding}.

Record SourceFilter : Type := mkSourceFilter {
  sitecol : list nat;
  integration_distance : gmap string Qc
}.

(** The source-like object of the UCERF model, with the attributes the
    task reads and assigns. *)
Record UcerfSource : Type := mkUcerfSource {
  u_source_id : string;
  src_group_id : Z;
  rupset_idx : list nat;
  num_ruptures : nat;
  src_filter : option SourceFilter
}.

Record OqParam : Type := mkOqParam {
  truncation_level : option Qc;
  imtls : list (string * list Qc)
}.

Record Monitor : Type := mkMonitor { oqparam : OqParam }.

Record ContextMaker : Type := mkContextMaker {
  gsims : list Gsim;
  maximum_distance : Qc
}.

(** [len(DictArray(imtls).array)]: the levels of all the intensity
    measure types, side by side. *)
Definition imtls_array_len (im : list (string * list Qc)) : nat :=
  sum_list ((fun p => length p.2) <$> im).

(** What a task can observe of its surroundings: the readings
    [time.time()] is going to return, and how many times the
    ground-motion evaluation [poe_map] has been entered. *)
Record World : Type := mkWorld {
  clock : list Qc;
  poe_map_calls : nat
}.

Definition time_time (w : World) : Qc * World :=
  match clock w with
  | [] => (0%Qc, w)
  | t :: rest => (t, mkWorld rest (poe_map_calls w))
  end.

(** Collaborators defined outside the files at hand: the tectonic region
    of the UCERF model, the distance filter of the source and the
    ground-motion evaluation. *)
Context (DEFAULT_TRT : string).
Context (filter_sites_by_distance_from_rupture_set :
           UcerfSource -> list nat -> list nat -> Qc -> list nat * list nat).
Context (poe_map : UcerfSource -> list nat -> list (string * list Qc) ->
                   ContextMaker -> option Qc -> ProbabilityMap.t).

Definition call_poe_map (src : UcerfSource) (sites : list nat)
    (im : list (string * list Qc)) (cmaker : ContextMaker)
    (trunc : option Qc) (w : World) : ProbabilityMap.t * World :=
  (poe_map src sites im cmaker trunc,
   mkWorld (clock w) (S (poe_map_calls w))).

Definition _hazard_curves_per_rupture_subset (rupset_idx_ : list nat)
    (ucerf_source : UcerfSource) (sites : list nat)
    (im : list (string * list Qc)) (cmaker : ContextMaker)
    (trunc : option Qc) (w : World)
  : ProbabilityMap.t * UcerfSource * World :=
  let pmap := ProbabilityMap.new (imtls_array_len im) (length (gsims cmaker)) in
  let pmap := ProbabilityMap.set_calc_times [] pmap in
  let pmap := ProbabilityMap.set_grp_id (src_group_id ucerf_source) pmap in
  let nsites := length sites in
  let ucerf_source :=
    mkUcerfSource (u_source_id ucerf_source) (src_group_id ucerf_source)
      rupset_idx_ (length rupset_idx_) (src_filter ucerf_source) in
  let pmap :=
    ProbabilityMap.set_eff_ruptures
      {[ src_group_id ucerf_source := num_ruptures ucerf_source ]} pmap in
  let '(t0, w1) := time_time w in
  let '(upmap, w2) := call_poe_map ucerf_source sites im cmaker trunc w1 in
  let pmap := ProbabilityMap.ior pmap upmap in
  let '(t1, w3) := time_time w2 in
  let pmap :=
    ProbabilityMap.set_calc_times
      (default [] (ProbabilityMap.calc_times pmap)
         ++ [(u_source_id ucerf_source, nsites, rnd (t1 - t0)%Qc)]) pmap in
  (pmap, ucerf_source, w3).

Definition ucerf_classical_hazard_by_rupture_set (rupset_idx_ : list nat)
    (ucerf_source : UcerfSource) (src_filter_ : SourceFilter)
    (gsims_ : list Gsim) (monitor : Monitor) (w : World)
  : PyResult ProbabilityMap.t * UcerfSource * World :=
  let trunc := truncation_level (oqparam monitor) in
  let im := imtls (oqparam monitor) in
  match integration_distance src_filter_ !! DEFAULT_TRT with
  | None => (Raise (KeyError DEFAULT_TRT), ucerf_source, w)
  | Some max_dist =>
      let '(rupset_idx1, s_sites) :=
        filter_sites_by_distance_from_rupture_set ucerf_source rupset_idx_
          (sitecol src_filter_) max_dist in
      if decide (length s_sites ≠ 0) then
        let ucerf_source :=
          mkUcerfSource (u_source_id ucerf_source) (src_group_id ucerf_source)
            (rupset_idx ucerf_source) (num_ruptures ucerf_source)
            (Some src_filter_) in
        let cmaker := mkContextMaker gsims_ max_dist in
        let '(pm, ucerf_source, w1) :=
          _hazard_curves_per_rupture_subset rupset_idx1 ucerf_source s_sites
            im cmaker trunc w in
        (Return pm, ucerf_source, w1)
      else (* return an empty probability map *)
        let pm := ProbabilityMap.new (imtls_array_len im) (length gsims_) in
        let pm := ProbabilityMap.set_calc_times [] pm in
        let pm :=
          ProbabilityMap.set_eff_ruptures {[ src_group_id ucerf_source := 0 ]} pm in
        let pm := ProbabilityMap.set_grp_id (src_group_id ucerf_source) pm in
        (Return pm, ucerf_source, w)
  end.
End UcerfClassical.

(** ** [calculators/ucerf_classical.py]: converting a UCERF source node *)

Definition bind_result {A B : Type} (r : PyResult A) (k : A -> PyResult B)
  : PyResult B :=
  match r with
  | Return a => k a
  | ReturnNone => ReturnNone
  | Raise e => Raise e
  end.

Notation "x <-! r ; k" := (bind_result r (fun x => k))
  (at level 100, r at next level, right associativity, only parsing).

Section ConvertUCERFSource.
Context {F : Type} `{!Float F}.
(** Values built by the other converters and only passed on. *)
Context {Node Date NPD HDD MSR : Type}.

(** Built-ins and library calls: [float(s)], ['%s' % x] on a float,
    [datetime.strptime(s, fmt)], [os.path.dirname] and [os.path.join]. *)
Context (py_float : string -> option F).
Context (float_str : F -> string).
Context (strptime : string -> string -> option Date).
Context (os_path_dirname : string -> string).
Context (os_path_join : string -> string -> string).

(** The node: its attribute dictionary, and the parts of it read through
    the converter's other methods and through its sub-nodes. *)
Context (attrib : Node -> gmap string string).
Context (convert_npdist : Node -> PyResult NPD).
Context (convert_hpdist : Node -> PyResult HDD).
Context (ruptAspectRatio : Node -> PyResult F).
Context (upperSeismoDepth : Node -> PyResult F).
Context (lowerSeismoDepth : Node -> PyResult F).
Context (magScaleRel : Node -> PyResult MSR).

(** The converter object: the file being read, the temporal occurrence
    model of the configuration (by its time span) and the mesh
    spacing. *)
Record SourceConverter : Type := mkSourceConverter {
  fname : string;
  tom_time_span : F;
  rupture_mesh_spacing : F
}.

(** The arguments of [UCERFControl(...)], in the order of the call. *)
Record UCERFControl : Type := mkUCERFControl {
  c_source_file : string;
  c_id : string;
  c_investigation_time : F;
  c_start_date : option Date;
  c_min_mag : F;
  c_npd : NPD;
  c_hdd : HDD;
  c_aspect : F;
  c_upper_seismogenic_depth : F;
  c_lower_seismogenic_depth : F;
  c_msr : MSR;
  c_mesh_spacing : F;
  c_trt : string
}.

(** [node[key]]. *)
Definition node_getitem (node : Node) (key : string) : PyResult string :=
  match attrib node !! key with
  | Some v => Return v
  | None => Raise (KeyError key)
  end.

Definition float_of (s : string) : PyResult F :=
  match py_float s with
  | Some x => Return x
  | None => Raise (ValueError ("could not convert string to float: " ++ s))
  end.

Definition mismatch_msg (inv_time span : F) : string :=
  "Source investigation time (" ++ float_str inv_time
    ++ ") is not equal to configuration investigation time ("
    ++ float_str span ++ ")".

Definition convert_UCERFSource (self : SourceConverter) (node : Node)
  : PyResult UCERFControl :=
  let dirname := os_path_dirname (fname self) in
  filename <-! node_getitem node "filename";
  let source_file := os_path_join dirname filename in
  start_date <-!
    (if decide (is_Some (attrib node !! "startDate")
                ∧ is_Some (attrib node !! "investigationTime")) then
       s <-! node_getitem node "investigationTime";
       inv_time <-! float_of s;
       if negb (feqb inv_time (tom_time_span self)) then
         Raise (ValueError (mismatch_msg inv_time (tom_time_span self)))
       else
         d <-! node_getitem node "startDate";
         match strptime d "%d/%m/%Y" with
         | Some dt => Return (Some dt)
         | None => Raise (ValueError ("time data does not match format: " ++ d))
         end
     else Return None);
  id <-! node_getitem node "id";
  mm <-! node_getitem node "minMag";
  min_mag_ <-! float_of mm;
  npd <-! convert_npdist node;
  hdd <-! convert_hpdist node;
  aspect <-! ruptAspectRatio node;
  upper <-! upperSeismoDepth node;
  lower <-! lowerSeismoDepth node;
  msr <-! magScaleRel node;
  trt <-! node_getitem node "tectonicRegion";
  Return (mkUCERFControl source_file id (tom_time_span self) start_date
            min_mag_ npd hdd aspect upper lower msr
            (rupture_mesh_spacing self) trt).
End ConvertUCERFSource.

(** ** [source/base.py]: the constructor of a parametric source *)

Section ParametricSource.
Context {F : Type} `{!Float F}.
(** The magnitude-frequency distribution and the magnitude scaling
    relationship are stored as they are given. *)
Context {MFD MSR : Type}.

(** The attributes that [BaseSeismicSource.__init__] and
    [ParametricSeismicSource.__init__] assign to a new source. *)
Record ParametricSeismicSource : Type := mkParametricSeismicSource {
  p_source_id : string;
  p_name : string;
  p_tectonic_region_type : string;
  p_grp_id : Z;
  p_num_ruptures : nat;
  p_seed : option Z;
  p_min_mag : F;
  p_mfd : MFD;
  p_rupture_mesh_spacing : option F;
  p_magnitude_scaling_relationship : MSR;
  p_rupture_aspect_ratio : option F;
  p_temporal_occurrence_model : @TOM F
}.

(** [x is not None and not x > 0]. *)
Definition set_and_not_positive (x : option F) : bool :=
  match x with
  | Some v => negb (fltb (of_int 0) v)
  | None => false
  end.

Definition ParametricSeismicSource_init (source_id_ name_ trt : string)
    (mfd : MFD) (rupture_mesh_spacing_ : option F) (msr : MSR)
    (rupture_aspect_ratio : option F) (tom : @TOM F)
  : PyResult ParametricSeismicSource :=
  if set_and_not_positive rupture_mesh_spacing_ then
    Raise (ValueError "rupture mesh spacing must be positive")
  else if set_and_not_positive rupture_aspect_ratio then
    Raise (ValueError "rupture aspect ratio must be positive")
  else
    Return (mkParametricSeismicSource source_id_ name_ trt (-1)%Z 0 None
              (of_int 0) mfd rupture_mesh_spacing_ msr rupture_aspect_ratio tom).
End ParametricSource.

(** ** [gsim/multi.py]: the mapping protocol of the composite GMPE *)

(** What [MultiGMPE.__init__] asks of an item of the dictionary: the key
    is an IMT string, and the GMPE stored under it supports the class of
    this IMT. *)
Definition supported_item (imt_class : string -> option string)
    (it : string * GMPE) : Prop :=
  ∃ c, imt_class it.1 = Some c
       ∧ c ∈ DEFINED_FOR_INTENSITY_MEASURE_TYPES (gmpe_caps it.2).

Section MultiMapping.
(** Intensity measure types, the contexts handed to a GMPE and what a
    GMPE computes from them; [str_imt] is [str(imt)] and [gmpe_compute] is
    the method [get_mean_and_stddevs] of a constituent. *)
Context {IMT Ctx Res : Type}.
Context (str_imt : IMT -> string).
Context (gmpe_compute : GMPE -> Ctx -> IMT -> list string -> PyResult Res).

(** [dict[key]] on a dictionary kept as its items. *)
Fixpoint dict_getitem {V : Type} (items : list (string * V)) (key : string)
  : PyResult V :=
  match items with
  | [] => Raise (KeyError key)
  | (k, v) :: rest => if decide (k = key) then Return v else dict_getitem rest key
  end.

(** [MultiGMPE.__iter__], [__getitem__] and [__len__]. *)
Definition MultiGMPE_iter (self : MultiGMPE) : list string :=
  (gsim_by_imt self).*1.

Definition MultiGMPE_getitem (self : MultiGMPE) (imt : string) : PyResult GMPE :=
  dict_getitem (gsim_by_imt self) imt.

Definition MultiGMPE_len (self : MultiGMPE) : nat :=
  length (gsim_by_imt self).

(** [MultiGMPE.get_mean_and_stddevs]; the three contexts travel
    together. *)
Definition get_mean_and_stddevs (self : MultiGMPE) (ctx : Ctx) (imt : IMT)
    (stddev_types : list string) : PyResult Res :=
  gsim <-! dict_getitem (gsim_by_imt self) (str_imt imt);
  gmpe_compute gsim ctx imt stddev_types.
End MultiMapping.

(** ** [calculators/ucerf_classical.py]: a whole branch, and the folding
    of background results *)

Section UcerfBranch.
Context {Gsim BgData : Type}.
Context {rounding : Rounding}.

(** A background point source: the group it belongs to and the rest. *)
Record BgSource : Type := mkBgSource {
  bg_src_group_id : Z;
  bg_data : BgData
}.

(** Modelled from the spec: the sum of two [AccumDict]s of numbers, which
    [pm.eff_ruptures += AccumDict(...)] computes; the class is defined in
    [openquake.baselib.general].  The keys are united and the values of a
    key present on both sides are added. *)
Definition accum_add (a b : gmap Z nat) : gmap Z nat :=
  union_with (fun x y => Some (x + y)) a b.

Context (DEFAULT_TRT : string).
Context (filter_sites_by_distance_from_rupture_set :
           UcerfSource -> list nat -> list nat -> Qc -> list nat * list nat).
Context (poe_map : UcerfSource -> list nat -> list (string * list Qc) ->
                   @ContextMaker Gsim -> option Qc -> ProbabilityMap.t).
(** Methods of the UCERF source, and [pmap_from_grp], which returns a map
    together with the [eff_ruptures] it carries. *)
Context (get_rupture_indices : UcerfSource -> list nat).
Context (get_background_sids : UcerfSource -> SourceFilter -> list nat).
Context (get_background_sources : UcerfSource -> list nat -> list BgSource).
Context (pmap_from_grp :
           list BgSource -> SourceFilter -> list (string * list Qc) ->
           list Gsim -> option Qc -> World ->
           (ProbabilityMap.t * gmap Z nat) * World).

(** [bckgnd_sources[0].src_group_id = grp]. *)
Definition set_first_group (grp : Z) (l : list BgSource) : list BgSource :=
  match l with
  | [] => []
  | b :: rest => mkBgSource grp (bg_data b) :: rest
  end.

(** [ucerf_classical_hazard_by_branch]; the call of [logging.info] is left
    out. *)
Definition ucerf_classical_hazard_by_branch (ucerf_source : UcerfSource)
    (src_filter_ : SourceFilter) (gsims_ : list Gsim) (monitor : Monitor)
    (w : World) : PyResult ProbabilityMap.t * UcerfSource * World :=
  let trunc := truncation_level (oqparam monitor) in
  let im := imtls (oqparam monitor) in
  let rupset_idx_ := get_rupture_indices ucerf_source in
  match ucerf_classical_hazard_by_rupture_set DEFAULT_TRT
          filter_sites_by_distance_from_rupture_set poe_map
          rupset_idx_ ucerf_source src_filter_ gsims_ monitor w with
  | (Return pm, ucerf_source, w1) =>
      let background_sids := get_background_sids ucerf_source src_filter_ in
      let bckgnd_sources := get_background_sources ucerf_source background_sids in
      match bckgnd_sources with
      | [] => (Return pm, ucerf_source, w1)
      | _ :: _ =>
          let bckgnd_sources :=
            set_first_group (src_group_id ucerf_source) bckgnd_sources in
          let '(pmap, eff, w2) :=
            pmap_from_grp bckgnd_sources src_filter_ im gsims_ trunc w1 in
          let pm := ProbabilityMap.ior pm pmap in
          let pm :=
            ProbabilityMap.set_eff_ruptures
              (accum_add (default ∅ (ProbabilityMap.eff_ruptures pm)) eff) pm in
          (Return pm, ucerf_source, w2)
      end
  | (r, ucerf_source, w1) => (r, ucerf_source, w1)
  end.

(** The loop [for pmap in bg_res: acc[0] |= pmap] of
    [UcerfPSHACalculator.execute]; [acc] maps a group to its map. *)
Fixpoint compose_background (acc : gmap Z ProbabilityMap.t)
    (bg_res : list ProbabilityMap.t) : PyResult (gmap Z ProbabilityMap.t) :=
  match bg_res with
  | [] => Return acc
  | pmap :: rest =>
      match acc !! 0%Z with
      | Some a => compose_background (<[0%Z := ProbabilityMap.ior a pmap]> acc) rest
      | None => Raise (KeyError "0")
      end
  end.
End UcerfBranch.

(** ** [writer.py]: file and database writers *)

Module Writer.
(** What the writers and the hooks of their subclasses raise. *)
Inductive Exn : Type :=
| NotImplementedError
| AssertionError
| NoResultFound
| MultipleResultsFound
| Other (msg : string).

Section FileWriter.
(** Keys and values of the items, and what a writer holds besides the
    state of its file handle: what went to the file, the root node. *)
Context {K V P : Type}.

Record FileWriter : Type := mkFileWriter {
  path : string;
  file_closed : bool;
  payload : P
}.

(** The methods a subclass may override. *)
Record Methods : Type := mkMethods {
  write : K -> V -> FileWriter -> option Exn * FileWriter;
  write_header : FileWriter -> option Exn * FileWriter;
  write_footer : FileWriter -> option Exn * FileWriter
}.

(** [FileWriter.write], [XMLFileWriter.write_header] and
    [XMLFileWriter.write_footer] as the base classes have them. *)
Definition base_methods : Methods :=
  mkMethods (fun _ _ self => (Some NotImplementedError, self))
            (fun self => (Some NotImplementedError, self))
            (fun self => (Some NotImplementedError, self)).

(** [FileWriter.close]. *)
Definition close (self : FileWriter) : FileWriter :=
  mkFileWriter (path self) true (payload self).

(** [for key, val in iterable: self.write(key, val)]. *)
Fixpoint write_items (m : Methods) (items : list (K * V)) (self : FileWriter)
  : option Exn * FileWriter :=
  match items with
  | [] => (None, self)
  | (key, val) :: rest =>
      match write m key val self with
      | (None, self1) => write_items m rest self1
      | (Some e, self1) => (Some e, self1)
      end
  end.

(** [FileWriter.serialize]; a dictionary is given by its items. *)
Definition FileWriter_serialize (m : Methods) (iterable : list (K * V))
    (self : FileWriter) : option Exn * FileWriter :=
  match write_items m iterable self with
  | (None, self1) => (None, close self1)
  | (Some e, self1) => (Some e, self1)
  end.

(** [XMLFileWriter.serialize]. *)
Definition XMLFileWriter_serialize (m : Methods) (iterable : list (K * V))
    (self : FileWriter) : option Exn * FileWriter :=
  match write_header m self with
  | (Some e, self0) => (Some e, self0)
  | (None, self0) =>
      match write_items m iterable self0 with
      | (Some e, self1) => (Some e, self1)
      | (None, self1) =>
          match write_footer m self1 with
          | (Some e, self2) => (Some e, self2)
          | (None, self2) => (None, close self2)
          end
      end
  end.
End FileWriter.

Section DBWriter.
(** Keys and values of the items, and the data rows of the session, which
    the [insert_datum] of a subclass fills; it is given the output record
    of the writer. *)
Context {K V D : Type}.

Record OqJob : Type := mkOqJob { job_id : Z; job_owner : string }.

Record Output : Type := mkOutput {
  owner : string;
  oq_job : OqJob;
  display_name : string;
  output_type : string;
  db_backed : bool
}.

(** The database session: the job table, the output records added, the
    data rows, and the number of commits. *)
Record Session : Type := mkSession {
  jobs : list OqJob;
  outputs : list Output;
  data : D;
  commits : nat
}.

Record DBWriter : Type := mkDBWriter {
  nrml_path : string;
  oq_job_id : Z;
  session : Session;
  output : option Output
}.

Context (basename : string -> string).
(** The methods a subclass provides. *)
Context (get_output_type : DBWriter -> string).
Context (insert_datum : K -> V -> option Output -> D -> option Exn * D).

(** [session.query(OqJob).filter(OqJob.id == id).one()]. *)
Definition query_one (s : Session) (id : Z) : Exn + OqJob :=
  match filter (fun j => job_id j = id) (jobs s) with
  | [] => inl NoResultFound
  | [j] => inr j
  | _ => inl MultipleResultsFound
  end.

(** [DBWriter.insert_output]. *)
Definition insert_output (output_type_ : string) (self : DBWriter)
  : option Exn * DBWriter :=
  match output self with
  | Some _ => (Some AssertionError, self)
  | None =>
      match query_one (session self) (oq_job_id self) with
      | inl e => (Some e, self)
      | inr job =>
          let o := mkOutput (job_owner job) job (basename (nrml_path self))
                     output_type_ true in
          let s := session self in
          (None,
           mkDBWriter (nrml_path self) (oq_job_id self)
             (mkSession (jobs s) (outputs s ++ [o]) (data s) (commits s))
             (Some o))
      end
  end.

(** [for key, values in iterable: self.insert_datum(key, values)]. *)
Fixpoint insert_items (o : option Output) (items : list (K * V)) (d : D)
  : option Exn * D :=
  match items with
  | [] => (None, d)
  | (key, values) :: rest =>
      match insert_datum key values o d with
      | (None, d1) => insert_items o rest d1
      | (Some e, d1) => (Some e, d1)
      end
  end.

Definition set_data (d : D) (self : DBWriter) : DBWriter :=
  let s := session self in
  mkDBWriter (nrml_path self) (oq_job_id self)
    (mkSession (jobs s) (outputs s) d (commits s)) (output self).

Definition commit (self : DBWriter) : DBWriter :=
  let s := session self in
  mkDBWriter (nrml_path self) (oq_job_id self)
    (mkSession (jobs s) (outputs s) (data s) (S (commits s))) (output self).

(** [DBWriter.serialize]; the calls of the logger are left out. *)
Definition DBWriter_serialize (iterable : list (K * V)) (self : DBWriter)
  : option Exn * DBWriter :=
  let '(r, self1) :=
    match output self with
    | None => insert_output (get_output_type self) self
    | Some _ => (None, self)
    end in
  match r with
  | Some e => (Some e, self1)
  | None =>
      match insert_items (output self1) iterable (data (session self1)) with
      | (Some e, d) => (Some e, set_data d self1)
      | (None, d) => (None, commit (set_data d self1))
      end
  end.
End DBWriter.
End Writer.

(** ** [logs.py]: logging over AMQP *)

Module Logs.
Definition DEBUG : nat := 10.
Definition INFO : nat := 20.
Definition WARNING : nat := 30.
Definition ERROR : nat := 40.
Definition CRITICAL : nat := 50.

Definition LEVELS : gmap string nat :=
  list_to_map [("debug", DEBUG); ("info", INFO); ("warn", WARNING);
               ("error", ERROR); ("critical", CRITICAL)].

(** [LEVELS.get(level, logging.WARNING)], the level that
    [set_logger_level] gives to the logger. *)
Definition level_of (level : string) : nat :=
  default WARNING (LEVELS !! level).

Section Handlers.
(** AMQP producers, handlers of other kinds, and job identifiers. *)
Context {Producer Other Job : Type}.

Inductive Handler : Type :=
| AMQPHandler (producer : Producer)
| OtherHandler (h : Other).

Definition is_amqp (h : Handler) : bool :=
  match h with
  | AMQPHandler _ => true
  | OtherHandler _ => false
  end.

(** The part of the logging system that [init_logs_amqp_send] touches:
    the handlers and the level of the root logger, whether the logger
    [amqplib] propagates, and the job identifier kept in the thread-local
    [_MDC] of the handler class. *)
Record Logging : Type := mkLogging {
  root_handlers : list Handler;
  root_level : nat;
  amqplib_propagate : bool;
  mdc_job_id : option Job
}.

(** [AMQPHandler()]: connecting may fail. *)
Context (new_producer : Exception + Producer).

Definition init_logs_amqp_send (level : string) (job : Job) (st : Logging)
  : option Exception * Logging :=
  match filter (fun h => is_amqp h = true) (root_handlers st) with
  | [] =>
      let level_ := level_of level in
      match new_producer with
      | inl e => (Some e, mkLogging (root_handlers st) level_ false (mdc_job_id st))
      | inr producer =>
          (None,
           mkLogging (root_handlers st ++ [AMQPHandler producer]) level_ false
             (Some job))
      end
  | [_] =>
      (None,
       mkLogging (root_handlers st) (root_level st) (amqplib_propagate st)
         (Some job))
  | _ => (Some (ValueError "too many values to unpack (expected 1)"), st)
  end.
End Handlers.

Section Records.
(** The arguments of a log message, what [exc_info] holds, and job
    identifiers. *)
Context {Arg Exc Job : Type}.
(** [msg % args], [str(job_id)] and [socket.getfqdn()]. *)
Context (format : string -> list Arg -> string).
Context (str_job_id : option Job -> string).
Context (getfqdn : string).
(** [logger.isEnabledFor(level)] for the logger of a name. *)
Context (is_enabled_for : string -> nat -> bool).

(** A log record, by the attributes that the code reads or assigns;
    [hostname] and [job_id] are the attributes that a record rebuilt from
    a message has in addition. *)
Record LogRecord : Type := mkLogRecord {
  name : string;
  levelno : nat;
  msg : string;
  args : list Arg;
  exc_info : option Exc;
  hostname : option string;
  job_id : option (option Job)
}.

(** [LogRecord.getMessage]. *)
Definition getMessage (r : LogRecord) : string :=
  match args r with
  | [] => msg r
  | _ => format (msg r) (args r)
  end.

(** [ROUTING_KEY_FORMAT % data]. *)
Definition routing_key (job : option Job) (logger_name : string) : string :=
  "oq.job." ++ str_job_id job ++ "." ++ logger_name.

(** [AMQPHandler.emit]: the message published and its routing key are
    appended to what the producer has sent. *)
Definition emit (mdc : option Job) (record : LogRecord)
    (sent : list (LogRecord * string))
  : option Exception * list (LogRecord * string) :=
  match exc_info record with
  | Some _ => (Some (AssertionError ""), sent)
  | None =>
      let data := mkLogRecord (name record) (levelno record)
                    (getMessage record) [] None (Some getfqdn) (Some mdc) in
      (None, sent ++ [(data, routing_key mdc (name data))])
  end.

(** [AMQPLogSource.message_callback]: the records handled so far get the
    rebuilt record when its logger is enabled for its level. *)
Definition message_callback (record_data : LogRecord)
    (handled : list LogRecord) : list LogRecord :=
  let record := record_data in
  if is_enabled_for (name record) (levelno record)
  then handled ++ [record] else handled.
End Records.
End Logs.

(** ** A deterministic harness

    Concrete numbers and a scripted random state, to run the definitions
    above on explicit inputs. *)

(** Floats as terms: rational literals with exact products and
    differences; the transcendental functions stay symbolic.  Comparisons
    are decided on the terms that have a rational value. *)
Inductive SymFloat : Type :=
| Lit (q : Qc)
| Mul (a b : SymFloat)
| Sub (a b : SymFloat)
| Exp (a : SymFloat)
| Log (a : SymFloat)
| LogGamma (a : SymFloat).

Fixpoint sym_value (e : SymFloat) : option Qc :=
  match e with
  | Lit q => Some q
  | Mul a b => x ← sym_value a; y ← sym_value b; Some (x * y)%Qc
  | Sub a b => x ← sym_value a; y ← sym_value b; Some (x - y)%Qc
  | _ => None
  end.

Definition sym_ltb (a b : SymFloat) : bool :=
  match sym_value a, sym_value b with
  | Some x, Some y => bool_decide (x < y)%Qc
  | _, _ => false
  end.

Definition sym_leb (a b : SymFloat) : bool :=
  match sym_value a, sym_value b with
  | Some x, Some y => bool_decide (x ≤ y)%Qc
  | _, _ => false
  end.

Definition sym_eqb (a b : SymFloat) : bool :=
  match sym_value a, sym_value b with
  | Some x, Some y => bool_decide (x = y)
  | _, _ => false
  end.

Lemma sym_ltb_asym x y : sym_ltb x y = true -> sym_ltb y x = false.
Proof.
  unfold sym_ltb.
  destruct (sym_value x) as [a|], (sym_value y) as [b|]; try done.
  intros Hab%bool_decide_eq_true. apply bool_decide_eq_false.
  intros Hba. exact (irreflexivity Qclt a (transitivity Hab Hba)).
Qed.

#[export] Instance SymFloat_Float : Float SymFloat := {|
  fmul := Mul; fsub := Sub; fexp := Exp; flog := Log; loggamma := LogGamma;
  of_int := fun z => Lit (Qc_of_Z z);
  fltb := sym_ltb; fleb := sym_leb; feqb := sym_eqb;
  fltb_asym := sym_ltb_asym
|}.

(** A scripted random state: the uniform draws still to come, and a
    counter that drives every other draw. *)
Record Script : Type := mkScript {
  uniforms : list Qc;
  counter : nat
}.

(** The least of [k] and [m], as an index below [S m]. *)
Fixpoint clamp (m k : nat) : fin (S m) :=
  match k, m with
  | S k', S m' => FS (clamp m' k')
  | _, _ => 0%fin
  end.

#[export] Instance Script_RandomState : RandomState SymFloat Script := {|
  np_seed := fun z => mkScript [] (Z.to_nat z);
  np_seed_entropy := fun g => mkScript (uniforms g) (S (counter g));
  np_poisson := fun _ g => (counter g `mod` 3, mkScript (uniforms g) (S (counter g)));
  np_random := fun g =>
    match uniforms g with
    | u :: rest => (Lit u, mkScript rest (counter g))
    | [] => (Lit 0%Qc, g)
    end;
  np_choice := fun m g => (clamp m (counter g), mkScript (uniforms g) (S (counter g)))
|}.

(** In the harness a non-parametric rupture occurs once in every repeat,
    and the probability of a count is read off [probs_occur]. *)
Definition harness_sample (rup : @Rupture SymFloat unit) (n : nat) (g : Script)
  : vec nat n * Script :=
  (vreplicate n 1, g).

Definition harness_proba (rup : @Rupture SymFloat unit) (k : nat) : SymFloat :=
  default (Lit 0%Qc) (probs_occur rup !! k).

Definition harness_point : @Point SymFloat := mkPoint (Lit 0%Qc) (Lit 0%Qc) (Lit 0%Qc).

Definition harness_rupture (rate : Qc) : @Rupture SymFloat unit :=
  mkRupture None None (Lit 0%Qc) (Lit 0%Qc) "Active Shallow Crust" harness_point tt
    (Lit rate) None [Lit 0%Qc; Lit 1%Qc].

Definition half : Qc := Q2Qc (1 # 2).

(** A source with the given occurrence model, mutex weight and ruptures,
    serial 10 and seed 2. *)
Definition harness_source (tom : option (@TOM SymFloat)) (w : option SymFloat)
    (rups : list (@Rupture SymFloat unit)) : @Source SymFloat unit :=
  mkSource "1" "src" "Active Shallow Crust" (GrpInt 0) 10 (Some 2%Z) None
    (Lit 0%Qc) tom w None [] rups (length rups).

(** Decimal numerals without sign, fraction or exponent, read as [float]
    reads them; no other string is used in the harness. *)
Definition digit_value (c : Ascii.ascii) : option nat :=
  let n := Ascii.nat_of_ascii c in
  if decide (48 ≤ n ∧ n ≤ 57) then Some (n - 48) else None.

Fixpoint digits_value (acc : nat) (s : string) : option nat :=
  match s with
  | EmptyString => Some acc
  | String c rest => d ← digit_value c; digits_value (10 * acc + d) rest
  end.

Definition harness_float (s : string) : option SymFloat :=
  match s with
  | EmptyString => None
  | _ => n ← digits_value 0 s; Some (Lit (Qc_of_Z (Z.of_nat n)))
  end.

(** In the harness a node is its attribute dictionary; a date is kept as
    the text it was written as, and the sub-node readers return fixed
    values. *)
Definition harness_convert (c : @SourceConverter SymFloat)
    (node : gmap string string)
  : PyResult (@UCERFControl SymFloat string unit unit unit) :=
  convert_UCERFSource harness_float (fun _ => "float")
    (fun d _ => Some d) (fun f => f) (fun d f => (d ++ "/" ++ f)%string)
    (fun n => n) (fun _ => Return tt) (fun _ => Return tt)
    (fun _ => Return (Lit 1%Qc)) (fun _ => Return (Lit 0%Qc))
    (fun _ => Return (Lit 0%Qc)) (fun _ => Return tt) c node.

Definition harness_converter : @SourceConverter SymFloat :=
  mkSourceConverter "ucerf" (Lit 1%Qc) (Lit 1%Qc).

(** A node that declares an investigation time of 50 years and no start
    date. *)
Definition node_without_start_date : gmap string string :=
  list_to_map [("filename", "model.hdf5"); ("id", "ucerf");
               ("investigationTime", "50"); ("minMag", "5");
               ("tectonicRegion", "Active Shallow Crust")].

(** A node that declares a start date and an investigation time of one
    year. *)
Definition node_with_start_date : gmap string string :=
  list_to_map [("filename", "model.hdf5"); ("id", "ucerf");
               ("startDate", "01/01/2014");
               ("investigationTime", "1"); ("minMag", "5");
               ("tectonicRegion", "Active Shallow Crust")].

(** IMT strings of the harness: [PGA], [PGV] and [SA(...)]. *)
Definition harness_imt_class (imt : string) : option string :=
  if decide (imt = "PGA") then Some "PGA"
  else if decide (imt = "PGV") then Some "PGV"
  else if String.prefix "SA(" imt then Some "SA"
  else None.

Definition gmpe_a : GMPE :=
  mkGMPE "GmpeA()"
    (mkCapabilities {["PGA"]} {["Total"]} {["vs30"]} {["mag"]} {["rjb"]}).

Definition gmpe_b : GMPE :=
  mkGMPE "GmpeB()"
    (mkCapabilities {["PGV"]} {["Total"]} {["z1pt0"]} {["mag"; "rake"]} {["rrup"]}).

(** Inputs of the harness runs. *)
Definition unit_tom : @TOM SymFloat := mkTOM (Lit 1%Qc).

(** A fault source with two ruptures, of rates 1/2 and 1 per year. *)
Definition fault_source : @Source SymFloat unit :=
  harness_source (Some unit_tom) None [harness_rupture half; harness_rupture 1%Qc].

(** A non-parametric source with one rupture and mutex weight 1/2. *)
Definition mutex_source : @Source SymFloat unit :=
  harness_source None (Some (Lit half)) [harness_rupture 0%Qc].

Definition harness_filter : SourceFilter :=
  mkSourceFilter [0; 1] {[ "Active Shallow Crust" := Qc_of_Z 200 ]}.

Definition harness_ucerf_source : UcerfSource :=
  mkUcerfSource "ucerf" 7%Z [] 0 None.

Definition harness_monitor : Monitor :=
  mkMonitor (mkOqParam None [("PGA", [half; 1%Qc])]).

Definition harness_world : World := mkWorld [0%Qc; 1%Qc] 0.

(** A ground-motion evaluation that finds probability 1/2 at site 0. *)
Definition harness_poe_map (src : UcerfSource) (sites : list nat)
    (im : list (string * list Qc)) (cmaker : @ContextMaker unit)
    (trunc : option Qc) : ProbabilityMap.t :=
  ProbabilityMap.mk 2 1 {[ 0 := [[half]; [0%Qc]] ]} None None None.

(** Rounding to the nearest multiple of 1/n, halves upwards: the fixed
    point arithmetic the harness computes with. *)
Definition grid_rounding (n : positive) : Rounding :=
  {| rnd := fun x =>
       Q2Qc (inject_Z (Qfloor (this x * inject_Z (Z.pos n) + (1 # 2)))
             / inject_Z (Z.pos n)) |}.

Definition harness_rounding : Rounding := grid_rounding 1024.

Definition pmap_b : ProbabilityMap.t :=
  ProbabilityMap.mk 1 1 {[ 1 := [[half]] ]} None None None.

(** Three maps that hold the probabilities 1/10, 1/10 and 3/10 for site
    0; the second one has a site of its own as well. *)
Definition pmap_tenth : ProbabilityMap.t :=
  ProbabilityMap.mk 1 1 {[ 0 := [[Q2Qc (1 # 10)]] ]} None None None.
Definition pmap_tenth' : ProbabilityMap.t :=
  ProbabilityMap.mk 1 1 {[ 0 := [[Q2Qc (1 # 10)]]; 1 := [[half]] ]}
    None None None.
Definition pmap_three_tenths : ProbabilityMap.t :=
  ProbabilityMap.mk 1 1 {[ 0 := [[Q2Qc (3 # 10)]] ]} None None None.

(** One part of an area source: magnitude 5 at rate 1/2 and magnitude 6
    at rate 0, one nodal plane and two hypocenter depths. *)
Definition harness_plane : @NodalPlane SymFloat :=
  mkNodalPlane (Lit 0%Qc) (Lit (Qc_of_Z 90)) (Lit (Qc_of_Z 45)).

Definition harness_part : @PointSource SymFloat unit :=
  mkPointSource "Active Shallow Crust" (Lit 0%Qc)
    [(Lit (Qc_of_Z 5), Lit half); (Lit (Qc_of_Z 6), Lit 0%Qc)] None
    [(Lit 1%Qc, harness_plane)]
    [(Lit half, Lit (Qc_of_Z 5)); (Lit half, Lit (Qc_of_Z 10))]
    harness_point (fun _ _ _ => tt).

Definition area_source : @Source SymFloat unit :=
  mkSource "2" "area" "Active Shallow Crust" (GrpInt 0) 10 (Some 2%Z) None
    (Lit 0%Qc) (Some unit_tom) None (Some [(Lit 1%Qc, harness_plane)])
    [harness_part] [] 2.

(** A source that counts three ruptures and iterates over one. *)
Definition overcounting_source : @Source SymFloat unit :=
  mkSource "3" "short" "Active Shallow Crust" (GrpInt 0) 10 (Some 2%Z) None
    (Lit 0%Qc) (Some unit_tom) None None [] [harness_rupture half] 3.

Definition harness_multi : MultiGMPE :=
  mkMultiGMPE [("PGA", gmpe_a); ("PGV", gmpe_b)].

(** A file writer of the harness appends the items to its payload; an item
    with key 0 cannot be written. *)
Definition harness_methods : @Writer.Methods nat nat (list (nat * nat)) :=
  Writer.mkMethods
    (fun k v self =>
       if decide (k = 0) then (Some (Writer.Other "bad key"), self)
       else (None, Writer.mkFileWriter (Writer.path self)
                     (Writer.file_closed self)
                     (Writer.payload self ++ [(k, v)])))
    (fun self => (None, self))
    (fun self => (None, self)).

(** An XML file writer of the harness, which also writes a header and a
    footer: the items with key 100. *)
Definition harness_xml_methods
  : @Writer.Methods nat nat (list (nat * nat)) :=
  Writer.mkMethods (Writer.write harness_methods)
    (fun self => (None, Writer.mkFileWriter (Writer.path self)
                          (Writer.file_closed self)
                          (Writer.payload self ++ [(100, 0)])))
    (fun self => (None, Writer.mkFileWriter (Writer.path self)
                          (Writer.file_closed self)
                          (Writer.payload self ++ [(100, 1)]))).

Definition harness_file : @Writer.FileWriter (list (nat * nat)) :=
  Writer.mkFileWriter "out.xml" false [].

(** A database writer of the harness, for job 1 of the job table. *)
Definition harness_db_writer : @Writer.DBWriter (list (nat * nat)) :=
  Writer.mkDBWriter "/tmp/curves.xml" 1
    (Writer.mkSession [Writer.mkOqJob 1 "alice"; Writer.mkOqJob 2 "bob"] [] [] 0)
    None.

Definition harness_insert_datum (k v : nat) (o : option Writer.Output)
    (d : list (nat * nat)) : option Writer.Exn * list (nat * nat) :=
  (None, d ++ [(k, v)]).

Definition harness_logging : @Logs.Logging nat string Z :=
  Logs.mkLogging [Logs.OtherHandler "console"] Logs.INFO true None.

Definition harness_record : @Logs.LogRecord string unit Z :=
  Logs.mkLogRecord "oq.job.hazard" Logs.INFO "done %s of %s" ["1"; "2"] None
    None None.

(** * Properties of the samplers *)

Section NumpyFacts.
Context {F G : Type} `{!RandomState F G}.

Lemma np_poisson_array_length (lam : list F) (g : G) :
  length (np_poisson_array lam g).1 = length lam.
Proof.
  revert g. induction lam as [|l lam IH]; intros g; simpl; [done|].
  destruct (np_poisson l g) as [k g1].
  specialize (IH g1). destruct (np_poisson_array lam g1) as [ks g2].
  simpl in *. by rewrite IH.
Qed.
End NumpyFacts.

Section SamplerFacts.
Context {F G : Type} `{!Float F} `{!RandomState F G} {Surface : Type}.
Context (sample_number_of_occurrences :
           @Rupture F Surface -> forall n : nat, G -> vec nat n * G).
Context (proba_number_of_occurrences : @Rupture F Surface -> nat -> F).

Local Abbreviation Rup := (@Rupture F Surface).
Local Abbreviation Src := (@Source F Surface).
Local Abbreviation sampler :=
  (_sample_ruptures sample_number_of_occurrences proba_number_of_occurrences).

Lemma fltb_irrefl (x : F) : fltb x x = false.
Proof.
  destruct (fltb x x) eqn:E; [|done].
  by rewrite (fltb_asym x x E) in E.
Qed.

Lemma elem_of_yield_if_occurs {A : Type} (l : list (A * nat * F)) a k p :
  (a, k, p) ∈ yield_if_occurs l ↔ k ≠ 0 ∧ (a, k, p) ∈ l.
Proof. unfold yield_if_occurs. by rewrite list_elem_of_filter. Qed.

(** An entry of the zipped arrays pairs a rupture with the probability
    computed from its own rate and its own count. *)
Lemma zip3_poisson_proba (tom : TOM) (n : nat) (rups : list Rup)
    (occurs : list nat) rup k p :
  (rup, k, p) ∈ zip3 rups occurs
     (zip_with poisson_proba occurs
        (eff_rate tom n <$> (occurrence_rate <$> rups))) →
  p = poisson_proba k (eff_rate tom n (occurrence_rate rup)).
Proof.
  unfold zip3. intros [i Hi]%list_elem_of_lookup.
  apply lookup_zip_with_Some in Hi as ([r' k'] & p' & Heq & Hrk & Hp).
  simplify_eq.
  apply lookup_zip_with_Some in Hrk as (r'' & k'' & Heq & Hr & Hk).
  simplify_eq.
  apply lookup_zip_with_Some in Hp as (k' & lam & -> & Hk' & Hlam).
  rewrite !list_lookup_fmap, Hr in Hlam. simpl in Hlam.
  congruence.
Qed.

Lemma build_rupture_rates (tom : TOM) (args : list RupArgs) :
  args_rate <$> args
  = occurrence_rate <$> (build_rupture (Surface := Surface) tom <$> args).
Proof. rewrite <-list_fmap_compose. by apply list_fmap_ext. Qed.

(** C1.  In a Poissonian source (fault branch and (multi)point/area
    branch alike), an entry that the sampler yields for a rupture with
    rate [rate], with count [k], carries the probability
    [exp(k * log(L) - L - loggamma(k + 1))] where
    [L = rate * time_span * eff_num_ses]. *)
Theorem poissonian_point_probability (src : Src) (tom : TOM) (n : nat)
    (g : G) (rup : Rup) (k : nat) (p : F) :
  temporal_occurrence_model src = Some tom →
  (rup, k, p) ∈ (_sample_ruptures sample_number_of_occurrences
                   proba_number_of_occurrences src n g).1 →
  let L := fmul (fmul (occurrence_rate rup) (time_span tom))
                (of_int (Z.of_nat n)) in
  p = fexp (fsub (fsub (fmul (of_int (Z.of_nat k)) (flog L)) L)
                 (loggamma (of_int (Z.of_nat k + 1)))).
Proof.
  intros Htom Hin. unfold _sample_ruptures in Hin. rewrite Htom in Hin.
  unfold sample_ruptures_poissonian in Hin.
  destruct (nodal_plane_distribution src) as [npd|].
  - rewrite (build_rupture_rates tom) in Hin.
    destruct (np_poisson_array _ g) as [occurs g1]. simpl in Hin.
    apply elem_of_yield_if_occurs in Hin as [_ Hin].
    by apply zip3_poisson_proba in Hin.
  - destruct (np_poisson_array _ g) as [occurs g1]. simpl in Hin.
    apply elem_of_yield_if_occurs in Hin as [_ Hin].
    by apply zip3_poisson_proba in Hin.
Qed.

(** C2 (as the code has it).  After the base occurrences of a rupture
    are drawn, a declared mutex weight [w < 1] makes the sampler draw one
    uniform value per repeat, and the occurrence of a repeat is kept when
    its draw is below [w] and zeroed otherwise; in particular a draw
    above [w] gives zero whatever the base occurrence is.  A weight that
    is not below 1 (such as 1 itself) or no declared weight draws
    nothing and leaves the occurrences as they are. *)
Theorem mutex_thinning (mw : option F) (rup : Rup) (n : nat) (g : G) :
  let base := sample_number_of_occurrences rup n g in
  let uniform := np_random_array n base.2 in
  let result := sample_occurs sample_number_of_occurrences mw rup n g in
  (∀ w, mw = Some w → fltb w (of_int 1) = true →
     result.2 = uniform.2 ∧
     ∀ i : fin n,
       result.1 !!! i
         = (if fltb (uniform.1 !!! i) w then base.1 !!! i else 0)
       ∧ (fltb w (uniform.1 !!! i) = true → result.1 !!! i = 0))
  ∧ (∀ w, mw = Some w → fltb w (of_int 1) = false → result = base)
  ∧ (mw = None ∨ mw = Some (of_int 1) → result = base).
Proof.
  intros base uniform result. subst base uniform result.
  unfold sample_occurs.
  destruct (sample_number_of_occurrences rup n g) as [occurs g1]. simpl.
  split; [|split].
  - intros w -> Hw. rewrite Hw.
    destruct (np_random_array n g1) as [aux g2]. simpl.
    split; [done|]. intros i. unfold thin_by_mutex.
    rewrite vlookup_zip_with. split.
    + destruct (fltb (aux !!! i) w); lia.
    + intros Habove. rewrite (fltb_asym _ _ Habove). lia.
  - intros w -> Hw. by rewrite Hw.
  - intros [-> | ->]; [done|]. by rewrite fltb_irrefl.
Qed.

(** The non-parametric loop decides once upon each rupture. *)
Lemma sample_ruptures_nonparametric_draws (mw : option F) (rups : list Rup)
    (n : nat) (g : G) :
  ∃ draws : list (Rup * nat * F),
    draws.*1.*1 = rups
    ∧ (sample_ruptures_nonparametric sample_number_of_occurrences
         proba_number_of_occurrences mw rups n g).1
      = filter (fun e => 0 < e.1.2) draws
    ∧ Forall (fun e =>
         (∃ g0, e.1.2 = sum_list (vec_to_list
                 (sample_occurs sample_number_of_occurrences mw e.1.1 n g0).1))
         ∧ e.2 = proba_number_of_occurrences e.1.1 e.1.2) draws.
Proof.
  revert g. induction rups as [|rup rest IH]; intros g.
  { exists []. repeat split; constructor. }
  simpl.
  destruct (sample_occurs _ mw rup n g) as [occurs g1] eqn:Hocc.
  destruct (IH g1) as (draws & Hcand & Hout & Hall).
  destruct (sample_ruptures_nonparametric _ _ mw rest n g1) as [out g2].
  simpl in Hout. subst out.
  set (k := sum_list (vec_to_list occurs)).
  exists ((rup, k, proba_number_of_occurrences rup k) :: draws).
  split; [by rewrite !fmap_cons, Hcand|]. split.
  - rewrite filter_cons. simpl.
    destruct (decide (k ≠ 0)), (decide (0 < k)); (done || lia).
  - constructor; [|done]. simpl. split; [|done].
    exists g. by rewrite Hocc.
Qed.

Lemma yield_if_occurs_positive {A : Type} (l : list (A * nat * F)) :
  yield_if_occurs l = filter (fun e => 0 < e.1.2) l.
Proof.
  unfold yield_if_occurs. apply list_filter_iff. intros e. lia.
Qed.

Lemma zip3_candidates (rups : list Rup) (occurs : list nat) (probas : list F) :
  length occurs = length rups → length probas = length rups →
  (zip3 rups occurs probas).*1.*1 = rups.
Proof.
  intros Ho Hp. unfold zip3.
  rewrite fst_zip by (rewrite length_zip_with; lia).
  apply fst_zip. lia.
Qed.

Lemma zip3_counts (rups : list Rup) (occurs : list nat) (probas : list F) :
  length occurs = length rups → length probas = length rups →
  (zip3 rups occurs probas).*1.*2 = occurs.
Proof.
  intros Ho Hp. unfold zip3.
  rewrite fst_zip by (rewrite length_zip_with; lia).
  apply snd_zip. lia.
Qed.

(** C3.  The sampler decides once upon every candidate rupture, in
    order, and yields exactly the decisions with a strictly positive
    count, each once and with its count and its probability; a rupture
    with count zero yields nothing.  In the non-parametric regime the
    count is the sum of the per-repeat occurrences and the probability
    is [proba_number_of_occurrences] of that sum; in the Poissonian
    regime the counts are the Poisson draws, one per candidate. *)
Theorem one_entry_per_occurring_rupture (src : Src) (n : nat) (g : G) :
  ∃ draws : list (Rup * nat * F),
    draws.*1.*1 = candidate_ruptures src
    ∧ (_sample_ruptures sample_number_of_occurrences
         proba_number_of_occurrences src n g).1
      = filter (fun e => 0 < e.1.2) draws
    ∧ (temporal_occurrence_model src = None →
       Forall (fun e =>
         (∃ g0, e.1.2 = sum_list (vec_to_list
                 (sample_occurs sample_number_of_occurrences
                    (mutex_weight src) e.1.1 n g0).1))
         ∧ e.2 = proba_number_of_occurrences e.1.1 e.1.2) draws)
    ∧ (∀ tom, temporal_occurrence_model src = Some tom →
       draws.*1.*2
       = (np_poisson_array
            (eff_rate tom n <$> (occurrence_rate <$> candidate_ruptures src))
            g).1).
Proof.
  unfold _sample_ruptures, candidate_ruptures.
  destruct (temporal_occurrence_model src) as [tom|].
  - unfold sample_ruptures_poissonian.
    destruct (nodal_plane_distribution src) as [npd|].
    + set (args := _ ≫= _).
      rewrite (build_rupture_rates tom).
      set (lam := eff_rate tom n <$> _).
      pose proof (np_poisson_array_length lam g) as Hlen.
      destruct (np_poisson_array lam g) as [occurs g1] eqn:Hdraw.
      cbn [fst snd] in *. unfold lam in Hlen. rewrite !length_fmap in Hlen.
      eexists. split; [|split; [apply yield_if_occurs_positive|split; [done|]]].
      * apply zip3_candidates;
          rewrite ?length_zip_with; unfold lam; rewrite ?length_fmap; lia.
      * intros tom' [= <-]. fold lam. rewrite Hdraw. simpl.
        apply zip3_counts;
          rewrite ?length_zip_with; unfold lam; rewrite ?length_fmap; lia.
    + set (lam := eff_rate tom n <$> _).
      pose proof (np_poisson_array_length lam g) as Hlen.
      destruct (np_poisson_array lam g) as [occurs g1] eqn:Hdraw.
      cbn [fst snd] in *. unfold lam in Hlen. rewrite !length_fmap in Hlen.
      eexists. split; [|split; [apply yield_if_occurs_positive|split; [done|]]].
      * apply zip3_candidates;
          rewrite ?length_zip_with; unfold lam; rewrite ?length_fmap; lia.
      * intros tom' [= <-]. fold lam. rewrite Hdraw. simpl.
        apply zip3_counts;
          rewrite ?length_zip_with; unfold lam; rewrite ?length_fmap; lia.
  - destruct (sample_ruptures_nonparametric_draws (mutex_weight src)
                (iter_ruptures src) n g) as (draws & H1 & H2 & H3).
    exists draws. by destruct (nodal_plane_distribution src).
Qed.




Lemma pick_rupture_lookup (self_rup_id : option Z) (start idx_ : nat)
    (rups : list Rup) (rup : Rup) :
  rups !! idx_ = Some rup →
  pick_rupture self_rup_id start (start + idx_) rups
  = Return (set_idx (start + idx_)
              (match self_rup_id with
               | Some r => set_rup_id r rup
               | None => rup
               end)).
Proof.
  revert start idx_. induction rups as [|r rest IH]; intros start idx_; [done|].
  destruct idx_ as [|idx_]; simpl.
  - intros [= ->]. rewrite Nat.add_0_r. by rewrite decide_True.
  - intros Hrest. rewrite decide_False by lia.
    replace (start + S idx_) with (S start + idx_) by lia.
    by apply IH.
Qed.

(** C5.  [get_one_rupture] of a parametric source raises
    [AssertionError] when called with [rupture_mutex=True].  With
    [rupture_mutex=False], on a source whose [count_ruptures()] is
    positive and is the number of ruptures of [iter_ruptures()], it sets
    the random state from the seed of the source, draws an index below
    the count and returns the rupture which [iter_ruptures()] has at this
    index, with the index recorded in it (and the [rup_id] of the
    source, when it has one). *)
Theorem get_one_rupture_contract (src : Src) (g : G) :
  (∀ mutex_ok : bool, mutex_ok = true →
     (get_one_rupture src mutex_ok g).1 = Raise (AssertionError mutex_msg))
  ∧ (∀ m, count_ruptures src = S m →
       length (iter_ruptures src) = count_ruptures src →
       let g0 := match seed src with
                 | Some s => np_seed s
                 | None => np_seed_entropy g
                 end in
       let draw := np_choice m g0 in
       let i := fin_to_nat draw.1 in
       i < count_ruptures src
       ∧ ∃ rup, iter_ruptures src !! i = Some rup
           ∧ get_one_rupture src false g
             = (Return (set_idx i
                          (match src_rup_id src with
                           | Some r => set_rup_id r rup
                           | None => rup
                           end)), draw.2)).
Proof.
  split.
  - by intros ? ->.
  - intros m Hcount Hlen g0 draw i. subst draw i.
    unfold get_one_rupture. rewrite Hcount. fold g0.
    destruct (np_choice m g0) as [j g1]. simpl.
    pose proof (fin_to_nat_lt j) as Hj.
    split; [done|].
    destruct (lookup_lt_is_Some_2 (iter_ruptures src) (fin_to_nat j)) as [rup Hrup];
      [lia|].
    exists rup. split; [done|].
    by rewrite (pick_rupture_lookup _ 0 _ _ _ Hrup).
Qed.
End SamplerFacts.

(** * Properties of the probability map *)

(** The arithmetic of [Qc] read in [Q], where [lra] and [nra] decide it. *)
Lemma Qc_this_plus (x y : Qc) : (this (x + y)%Qc == this x + this y)%Q.
Proof. unfold Qcplus. simpl. apply Qred_correct. Qed.

Lemma Qc_this_minus (x y : Qc) : (this (x - y)%Qc == this x - this y)%Q.
Proof.
  unfold Qcminus, Qcplus, Qcopp. simpl. rewrite !Qred_correct. reflexivity.
Qed.

Lemma Qc_this_mult (x y : Qc) : (this (x * y)%Qc == this x * this y)%Q.
Proof. unfold Qcmult. simpl. apply Qred_correct. Qed.

Ltac qc_to_q :=
  unfold Qcle, Qclt in *;
  repeat (rewrite ?Qc_this_plus, ?Qc_this_minus, ?Qc_this_mult in * );
  cbn [this Q2Qc Qc_of_Z] in *; rewrite ?Qred_correct in *;
  unfold inject_Z in *.

Local Abbreviation unit_row := (Forall (fun p : Qc => (0 ≤ p ≤ 1)%Qc)).
Local Abbreviation unit_curves :=
  (fun m : gmap nat (list (list Qc)) =>
     ∀ sid c, m !! sid = Some c → Forall unit_row c).
Local Abbreviation close_curves :=
  (fun d => Forall2 (Forall2 (ProbabilityMap.close d))).
Local Abbreviation close_maps :=
  (fun d (m m' : gmap nat (list (list Qc))) =>
     ∀ sid, option_Forall2 (close_curves d) (m !! sid) (m' !! sid)).
Local Abbreviation exact_por :=
  (ProbabilityMap.por (rounding := exact_rounding)).
Local Abbreviation exact_curve_or :=
  (ProbabilityMap.curve_or (rounding := exact_rounding)).
Local Abbreviation exact_merge :=
  (ProbabilityMap.merge_curves (rounding := exact_rounding)).

Section ProbabilityMapFacts.
Import ProbabilityMap.
Context {rounding : Rounding}.
Local Open Scope Qc_scope.

(** Arithmetic that does not round is a rounding that moves nothing. *)
Lemma exact_rounds_within : rounds_within (rounding := exact_rounding) 0.
Proof.
  split; simpl; try done. intros x _. qc_to_q. split; lra.
Qed.

Lemma rounds_within_nonneg (e : Qc) : rounds_within e → 0 ≤ e.
Proof.
  intros H. pose proof (rnd_err e H 0) as He. rewrite (rnd_0 e H) in He.
  assert (H0 : 0 ≤ 0 ≤ 1) by (qc_to_q; split; lra).
  destruct (He H0) as [_ H1]. qc_to_q. lra.
Qed.

Lemma rnd_unit (e x : Qc) : rounds_within e → 0 ≤ x ≤ 1 → 0 ≤ rnd x ≤ 1.
Proof.
  intros H [H0 H1]. split.
  - rewrite <-(rnd_0 e H). apply (rnd_mono e H); [done..|].
    by trans x.
  - rewrite <-(rnd_1 e H). apply (rnd_mono e H); [|done..].
    by trans x.
Qed.

Lemma compl_unit (x : Qc) : 0 ≤ x ≤ 1 → 0 ≤ 1 - x ≤ 1.
Proof. intros [H0 H1]. qc_to_q. split; lra. Qed.

Lemma mult_unit (x y : Qc) : 0 ≤ x ≤ 1 → 0 ≤ y ≤ 1 → 0 ≤ x * y ≤ 1.
Proof. intros [H0 H1] [H2 H3]. qc_to_q. split; nra. Qed.

(** The merge of two probabilities is a probability. *)
Lemma por_unit (e a b : Qc) :
  rounds_within e → 0 ≤ a ≤ 1 → 0 ≤ b ≤ 1 → 0 ≤ por a b ≤ 1.
Proof.
  intros H Ha Hb. unfold por.
  apply (rnd_unit e); [done|]. apply compl_unit.
  apply (rnd_unit e); [done|].
  apply mult_unit; apply (rnd_unit e); auto using compl_unit.
Qed.

(** One merge of probabilities against the exact merge: what the left
    operands differ by, and four roundings. *)
Lemma por_step (e d a a' b : Qc) :
  rounds_within e → 0 ≤ a ≤ 1 → 0 ≤ a' ≤ 1 → 0 ≤ b ≤ 1 →
  close d a a' →
  close (d + Qc_of_Z 4 * e) (por a b) (exact_por a' b).
Proof.
  intros H Ha Ha' Hb [Hd1 Hd2]. unfold close, por. cbn [rnd exact_rounding].
  pose proof (compl_unit _ Ha) as HA. pose proof (compl_unit _ Hb) as HB.
  pose proof (rnd_unit _ _ H HA) as HrA. pose proof (rnd_unit _ _ H HB) as HrB.
  pose proof (rnd_err _ H _ HA) as HeA. pose proof (rnd_err _ H _ HB) as HeB.
  pose proof (mult_unit _ _ HrA HrB) as HP.
  pose proof (rnd_unit _ _ H HP) as HrP. pose proof (rnd_err _ H _ HP) as HeP.
  pose proof (compl_unit _ HrP) as HR.
  pose proof (rnd_err _ H _ HR) as HeR.
  set (A := rnd (1 - a)) in *. set (B := rnd (1 - b)) in *.
  set (P := rnd (A * B)) in *. set (Rr := rnd (1 - P)) in *.
  clearbody A B P Rr. clear H.
  destruct Ha, Ha', Hb, HA, HB, HrA, HrB, HeA, HeB, HP, HrP, HeP, HR, HeR.
  qc_to_q. split; nra.
Qed.

Lemma close_refl (d p : Qc) : 0 ≤ d → close d p p.
Proof. intros Hd. unfold close. qc_to_q. split; lra. Qed.

Lemma close_sym (d p q : Qc) : close d p q → close d q p.
Proof. intros [H1 H2]. by split. Qed.

Lemma close_trans (d1 d2 p q r : Qc) :
  close d1 p q → close d2 q r → close (d1 + d2) p r.
Proof. intros [H1 H2] [H3 H4]. unfold close. qc_to_q. split; lra. Qed.

Lemma close_mono (d d' p q : Qc) : d ≤ d' → close d p q → close d' p q.
Proof. intros Hd [H1 H2]. unfold close. qc_to_q. split; lra. Qed.

Lemma Forall_zip_with_closed {A : Type} (P : A → Prop) (f : A → A → A) :
  (∀ x y, P x → P y → P (f x y)) →
  ∀ l k, Forall P l → Forall P k → Forall P (zip_with f l k).
Proof.
  intros Hf l k Hl. revert k.
  induction Hl as [|x l Hx Hl IH]; intros k Hk; [constructor|].
  destruct Hk as [|y k Hy Hk]; simpl; constructor; auto.
Qed.

Lemma Forall2_zip_with_step {A : Type} (S S' : A → A → Prop) (P : A → Prop)
    (f f' : A → A → A) :
  (∀ x x' y, P x → P x' → P y → S x x' → S' (f x y) (f' x' y)) →
  ∀ l l' k, Forall2 S l l' → Forall P l → Forall P l' → Forall P k →
            Forall2 S' (zip_with f l k) (zip_with f' l' k).
Proof.
  intros Hf l l' k Hll. revert k.
  induction Hll as [|x x' l l' Hx Hll IH]; intros k Hl Hl' Hk; [constructor|].
  destruct Hk as [|y k Hy Hk]; simpl; [constructor|].
  inversion Hl; inversion Hl'; subst. constructor; auto.
Qed.

Lemma curve_or_unit (e : Qc) (a b : list (list Qc)) :
  rounds_within e → Forall unit_row a → Forall unit_row b →
  Forall unit_row (curve_or a b).
Proof.
  intros H. apply Forall_zip_with_closed. intros r s.
  apply Forall_zip_with_closed. intros p q. by apply (por_unit e).
Qed.

Lemma curve_or_step (e d : Qc) (a a' b : list (list Qc)) :
  rounds_within e →
  Forall unit_row a → Forall unit_row a' → Forall unit_row b →
  close_curves d a a' →
  close_curves (d + Qc_of_Z 4 * e) (curve_or a b)
    (exact_curve_or a' b).
Proof.
  intros H Ha Ha' Hb Hd.
  apply (Forall2_zip_with_step (Forall2 (close d)) _ unit_row); [|done..].
  intros r r' s Hr Hr' Hs Hrr.
  apply (Forall2_zip_with_step (close d) _ (fun p => 0 ≤ p ≤ 1)); [|done..].
  intros p p' q Hp Hp' Hq Hpp. by apply por_step.
Qed.

Lemma merge_curves_unit (e : Qc) (m b : gmap nat (list (list Qc))) :
  rounds_within e → unit_curves m → unit_curves b →
  unit_curves (merge_curves m b).
Proof.
  intros H Hm Hb sid c. unfold merge_curves. rewrite lookup_union_with.
  destruct (m !! sid) as [cm|] eqn:Em, (b !! sid) as [cb|] eqn:Eb;
    simpl; intros [= <-]; eauto using curve_or_unit.
Qed.

Lemma close_curves_refl (d : Qc) (c : list (list Qc)) :
  0 ≤ d → close_curves d c c.
Proof.
  intros Hd. apply Forall_Forall2_diag, Forall_forall. intros r _.
  apply Forall_Forall2_diag, Forall_forall. intros p _. by apply close_refl.
Qed.

Lemma close_curves_mono (d d' : Qc) (c c' : list (list Qc)) :
  d ≤ d' → close_curves d c c' → close_curves d' c c'.
Proof.
  intros Hd H. induction H as [|r r' c c' Hr _ IH]; constructor; [|done].
  induction Hr as [|p q r r' Hpq _ IHr]; constructor; [|done].
  by apply (close_mono d).
Qed.

Lemma close_curves_sym (d : Qc) (c c' : list (list Qc)) :
  close_curves d c c' → close_curves d c' c.
Proof.
  intros H. induction H as [|r r' c c' Hr _ IH]; constructor; [|done].
  induction Hr as [|p q r r' Hpq _ IHr]; constructor; [|done].
  by apply close_sym.
Qed.

Lemma close_curves_trans (d1 d2 : Qc) (c1 c2 c3 : list (list Qc)) :
  close_curves d1 c1 c2 → close_curves d2 c2 c3 →
  close_curves (d1 + d2) c1 c3.
Proof.
  intros H1 H2. eapply Forall2_trans; [|exact H1|exact H2].
  intros r1 r2 r3 Ha Hb. eapply Forall2_trans; [|exact Ha|exact Hb].
  intros p q r. apply close_trans.
Qed.

Lemma close_maps_sym (d : Qc) (m m' : gmap nat (list (list Qc))) :
  close_maps d m m' → close_maps d m' m.
Proof.
  intros H sid. destruct (H sid); constructor. by apply close_curves_sym.
Qed.

Lemma close_maps_trans (d1 d2 : Qc) (m1 m2 m3 : gmap nat (list (list Qc))) :
  close_maps d1 m1 m2 → close_maps d2 m2 m3 → close_maps (d1 + d2) m1 m3.
Proof.
  intros H1 H2 sid. specialize (H1 sid). specialize (H2 sid).
  destruct H1 as [c1 c2 H1|]; inversion H2; subst; constructor.
  by apply (close_curves_trans _ _ _ c2).
Qed.

Lemma close_maps_refl (d : Qc) (m : gmap nat (list (list Qc))) :
  0 ≤ d → close_maps d m m.
Proof.
  intros Hd sid. destruct (m !! sid); constructor. by apply close_curves_refl.
Qed.

Lemma merge_curves_step (e d : Qc) (m m' b : gmap nat (list (list Qc))) :
  rounds_within e → 0 ≤ d →
  unit_curves m → unit_curves m' → unit_curves b →
  close_maps d m m' →
  close_maps (d + Qc_of_Z 4 * e) (merge_curves m b)
    (exact_merge m' b).
Proof.
  intros H Hd Hm Hm' Hb Hmm sid. unfold merge_curves.
  rewrite !lookup_union_with. specialize (Hmm sid).
  pose proof (rounds_within_nonneg e H) as He.
  assert (Hle : d ≤ d + Qc_of_Z 4 * e) by (qc_to_q; lra).
  destruct (m !! sid) as [c|] eqn:Em, (m' !! sid) as [c'|] eqn:Em';
    inversion Hmm; subst;
    destruct (b !! sid) as [cb|] eqn:Eb; simpl; constructor.
  - apply curve_or_step; eauto.
  - by apply (close_curves_mono d).
  - apply close_curves_refl. by trans d.
Qed.

(** The product of floating-point numbers is the rounded exact product,
    which does not depend on the order of its factors. *)
Lemma por_comm (a b : Qc) : por a b = por b a.
Proof. unfold por. by rewrite (Qcmult_comm (rnd (1 - a))). Qed.

Lemma por_exact_assoc (a b c : Qc) :
  exact_por (exact_por a b) c = exact_por a (exact_por b c).
Proof. unfold por. simpl. ring. Qed.

Lemma zip_with_comm_gen {A : Type} (f : A → A → A) :
  (∀ x y, f x y = f y x) → ∀ l k, zip_with f l k = zip_with f k l.
Proof.
  intros Hf l. induction l as [|x l IH]; intros [|y k]; simpl; [done..|].
  by rewrite Hf, IH.
Qed.

Lemma zip_with_assoc_gen {A : Type} (f : A → A → A) :
  (∀ x y z, f (f x y) z = f x (f y z)) →
  ∀ l k m, zip_with f (zip_with f l k) m = zip_with f l (zip_with f k m).
Proof.
  intros Hf l. induction l as [|x l IH]; intros [|y k] [|z m]; simpl; [done..|].
  by rewrite Hf, IH.
Qed.

Lemma curve_or_comm (a b : list (list Qc)) : curve_or a b = curve_or b a.
Proof.
  apply zip_with_comm_gen. apply zip_with_comm_gen, por_comm.
Qed.

Lemma curve_or_exact_assoc (a b c : list (list Qc)) :
  exact_curve_or (exact_curve_or a b) c = exact_curve_or a (exact_curve_or b c).
Proof.
  apply zip_with_assoc_gen. apply zip_with_assoc_gen, por_exact_assoc.
Qed.

Lemma merge_curves_comm (a b : gmap nat (list (list Qc))) :
  merge_curves a b = merge_curves b a.
Proof.
  apply map_eq. intros i. unfold merge_curves. rewrite !lookup_union_with.
  destruct (a !! i), (b !! i); simpl; try done. by rewrite curve_or_comm.
Qed.

Lemma merge_curves_exact_assoc (a b c : gmap nat (list (list Qc))) :
  exact_merge (exact_merge a b) c = exact_merge a (exact_merge b c).
Proof.
  apply map_eq. intros i. unfold merge_curves.
  rewrite !lookup_union_with.
  destruct (a !! i), (b !! i), (c !! i); simpl; try done.
  by rewrite curve_or_exact_assoc.
Qed.

Lemma merge_curves_empty_l (a : gmap nat (list (list Qc))) :
  merge_curves ∅ a = a.
Proof.
  apply map_eq. intros i. unfold merge_curves.
  rewrite lookup_union_with, lookup_empty. by destruct (a !! i).
Qed.

Lemma poe_new (y z sid lvl gsim : nat) : poe (new y z) sid lvl gsim = 0.
Proof. unfold poe, new. simpl. by rewrite lookup_empty. Qed.

(** Maps that are equal within a tolerance hold, for every site, level
    and model, probabilities that differ by the tolerance at most. *)
Lemma within_poe (d : Qc) (a b : t) (sid lvl gsim : nat) :
  0 ≤ d → within d a b →
  close d (poe a sid lvl gsim) (poe b sid lvl gsim).
Proof.
  intros Hd (_ & _ & H). specialize (H sid). unfold poe.
  destruct H as [c c' Hc|]; [|by apply close_refl].
  pose proof (proj1 (Forall2_lookup _ _ _) Hc lvl) as Hrow.
  destruct Hrow as [r r' Hr|]; simpl; [|by apply close_refl].
  pose proof (proj1 (Forall2_lookup _ _ _) Hr gsim) as Hp.
  destruct Hp as [p q Hpq|]; simpl; [done|by apply close_refl].
Qed.
End ProbabilityMapFacts.

Section MergeFacts.
Import ProbabilityMap.
Context {rounding : Rounding}.
Local Open Scope Qc_scope.

(** What two merges lose against exact arithmetic. *)
Lemma merge_curves_twice (e : Qc) (a b c : gmap nat (list (list Qc))) :
  rounds_within e → unit_curves a → unit_curves b → unit_curves c →
  close_maps (Qc_of_Z 8 * e) (merge_curves (merge_curves a b) c)
    (exact_merge (exact_merge a b) c).
Proof.
  intros H Ha Hb Hc.
  pose proof (rounds_within_nonneg e H) as He.
  assert (H0 : (0 : Qc) ≤ 0) by done.
  pose proof (merge_curves_step e 0 a a b H H0 Ha Ha Hb (close_maps_refl 0 a H0))
    as H1.
  assert (H4 : 0 ≤ 0 + Qc_of_Z 4 * e) by (qc_to_q; lra).
  pose proof (merge_curves_step e _ _ _ c H H4
                (merge_curves_unit e a b H Ha Hb)
                (merge_curves_unit (rounding := exact_rounding) 0 a b
                   exact_rounds_within Ha Hb) Hc H1) as H2.
  replace (Qc_of_Z 8 * e) with (0 + Qc_of_Z 4 * e + Qc_of_Z 4 * e); [done|].
  apply Qc_is_canon. qc_to_q. lra.
Qed.

(** C8.  On maps of one shape that hold probabilities, whatever the
    rounding of the arithmetic: the merge is commutative, and the fresh
    map of that shape is a left identity, both exactly; merging three
    maps in the one or the other grouping gives maps of the same shape
    and the same sites whose entries differ by sixteen roundings at
    most, where one rounding moves a number of the unit interval by [e]
    at most.  For float64, [e] is 2^-54 and the tolerance 2^-50. *)
Theorem merge_algebra (e : Qc) (y z : nat) (A B C : t) :
  rounds_within e →
  has_shape y z A → has_shape y z B → has_shape y z C →
  probabilities A → probabilities B → probabilities C →
  same (ior A B) (ior B A)
  ∧ within (Qc_of_Z 16 * e) (ior (ior A B) C) (ior A (ior B C))
  ∧ same (ior (new y z) A) A.
Proof.
  intros H (HyA & HzA & _) (HyB & HzB & _) (HyC & HzC & _) HA HB HC.
  unfold same, within, ior; simpl. repeat split; try congruence.
  - apply merge_curves_comm.
  - pose proof (merge_curves_twice e _ _ _ H HA HB HC) as Hl.
    pose proof (merge_curves_twice e _ _ _ H HB HC HA) as Hr.
    rewrite (merge_curves_comm (rounding := exact_rounding) _ (curves A)) in Hr.
    rewrite <-merge_curves_exact_assoc in Hr.
    rewrite (merge_curves_comm _ (curves A)) in Hr.
    pose proof (close_maps_trans _ _ _ _ _ Hl (close_maps_sym _ _ _ Hr)) as Hlr.
    replace (Qc_of_Z 16 * e) with (Qc_of_Z 8 * e + Qc_of_Z 8 * e); [done|].
    apply Qc_is_canon. qc_to_q. lra.
  - apply merge_curves_empty_l.
Qed.
End MergeFacts.

(** * Properties of the per-chunk hazard task *)

Section UcerfTaskFacts.
Context {Gsim : Type}.
Context {rounding : Rounding}.
Context (DEFAULT_TRT : string).
Context (filter_sites_by_distance_from_rupture_set :
           UcerfSource -> list nat -> list nat -> Qc -> list nat * list nat).
Context (poe_map : UcerfSource -> list nat -> list (string * list Qc) ->
                   @ContextMaker Gsim -> option Qc -> ProbabilityMap.t).

Lemma time_time_calls (w : World) :
  poe_map_calls (time_time w).2 = poe_map_calls w.
Proof. unfold time_time. by destruct (clock w). Qed.

(** C6.  When the distance filter leaves no site, the task returns
    normally; what it returns is the fresh map, which holds probability
    zero for every site, level and model, with [eff_ruptures] equal to
    [{src_group_id: 0}]; the ground-motion evaluation is not entered,
    and neither the source object nor the clock is touched. *)
Theorem empty_sites_fast_path (rupset : list nat) (src : UcerfSource)
    (flt : SourceFilter) (gs : list Gsim) (mon : Monitor) (w : World)
    (max_dist : Qc) :
  integration_distance flt !! DEFAULT_TRT = Some max_dist →
  length (filter_sites_by_distance_from_rupture_set src rupset
            (sitecol flt) max_dist).2 = 0 →
  ∃ pm, ucerf_classical_hazard_by_rupture_set DEFAULT_TRT
          filter_sites_by_distance_from_rupture_set poe_map
          rupset src flt gs mon w
        = (Return pm, src, w)
    ∧ ProbabilityMap.same pm
        (ProbabilityMap.new (imtls_array_len (imtls (oqparam mon))) (length gs))
    ∧ (∀ sid lvl gsim, ProbabilityMap.poe pm sid lvl gsim = 0%Qc)
    ∧ ProbabilityMap.eff_ruptures pm = Some {[ src_group_id src := 0 ]}
    ∧ ProbabilityMap.grp_id pm = Some (src_group_id src).
Proof.
  intros Hdist Hsites. unfold ucerf_classical_hazard_by_rupture_set.
  rewrite Hdist.
  destruct (filter_sites_by_distance_from_rupture_set _ _ _ _)
    as [rupset1 s_sites].
  simpl in Hsites. rewrite decide_False by lia.
  eexists. split; [done|]. split; [done|]. split; [|done].
  intros sid lvl gsim. exact (poe_new 0 0 sid lvl gsim).
Qed.

(** C10.  When the distance filter leaves some site, the task returns a
    map whose [eff_ruptures] is [{src_group_id: n}] with [n] the number
    of rupture indices that the filter returned, whatever the
    ground-motion evaluation computes; the evaluation is entered once. *)
Theorem effective_ruptures_of_chunk (rupset : list nat) (src : UcerfSource)
    (flt : SourceFilter) (gs : list Gsim) (mon : Monitor) (w : World)
    (max_dist : Qc) :
  integration_distance flt !! DEFAULT_TRT = Some max_dist →
  let filtered := filter_sites_by_distance_from_rupture_set src rupset
                    (sitecol flt) max_dist in
  length filtered.2 ≠ 0 →
  ∃ pm src1 w1,
    ucerf_classical_hazard_by_rupture_set DEFAULT_TRT
      filter_sites_by_distance_from_rupture_set poe_map
      rupset src flt gs mon w
    = (Return pm, src1, w1)
    ∧ ProbabilityMap.eff_ruptures pm
      = Some {[ src_group_id src := length filtered.1 ]}
    ∧ num_ruptures src1 = length filtered.1
    ∧ poe_map_calls w1 = S (poe_map_calls w).
Proof.
  intros Hdist filtered Hsites. subst filtered.
  unfold ucerf_classical_hazard_by_rupture_set.
  rewrite Hdist.
  destruct (filter_sites_by_distance_from_rupture_set _ _ _ _)
    as [rupset1 s_sites].
  simpl in *. rewrite decide_True by done.
  unfold _hazard_curves_per_rupture_subset, call_poe_map.
  pose proof (time_time_calls w) as Hw1.
  destruct (time_time w) as [t0 w1].
  pose proof (time_time_calls (mkWorld (clock w1) (S (poe_map_calls w1))))
    as Hw3.
  destruct (time_time (mkWorld (clock w1) (S (poe_map_calls w1))))
    as [t1 w3].
  simpl in *. do 3 eexists. split; [done|]. repeat split. congruence.
Qed.
End UcerfTaskFacts.

(** * Properties of the conversion of a UCERF source node *)

Section ConvertFacts.
Context {F : Type} `{!Float F} {Node Date NPD HDD MSR : Type}.
Context (py_float : string -> option F) (float_str : F -> string).
Context (strptime : string -> string -> option Date).
Context (os_path_dirname : string -> string).
Context (os_path_join : string -> string -> string).
Context (attrib : Node -> gmap string string).
Context (convert_npdist : Node -> PyResult NPD).
Context (convert_hpdist : Node -> PyResult HDD).
Context (ruptAspectRatio upperSeismoDepth lowerSeismoDepth : Node -> PyResult F).
Context (magScaleRel : Node -> PyResult MSR).

Local Abbreviation convert :=
  (convert_UCERFSource py_float float_str strptime os_path_dirname
     os_path_join attrib convert_npdist convert_hpdist ruptAspectRatio
     upperSeismoDepth lowerSeismoDepth magScaleRel).

(** C7 (as the code has it).  For a node that has a file name and
    declares both a start date and an investigation time: when the
    investigation time differs from the configured time span the
    conversion raises [ValueError] with the mismatch message, whatever
    the rest of the node holds and before the control object is built;
    when the two are equal and the rest of the node is readable, the
    conversion returns the control object, built with the configured
    time span and the declared start date. *)
Theorem investigation_time_check (self : SourceConverter) (node : Node)
    (filename s : string) (inv_time : F) :
  attrib node !! "filename" = Some filename →
  is_Some (attrib node !! "startDate") →
  attrib node !! "investigationTime" = Some s →
  py_float s = Some inv_time →
  (feqb inv_time (tom_time_span self) = false →
     convert self node
     = Raise (ValueError (mismatch_msg float_str inv_time (tom_time_span self))))
  ∧ (feqb inv_time (tom_time_span self) = true →
     ∀ d dt id mm min_mag_ npd hdd aspect upper lower msr trt,
       attrib node !! "startDate" = Some d →
       strptime d "%d/%m/%Y" = Some dt →
       attrib node !! "id" = Some id →
       attrib node !! "minMag" = Some mm →
       py_float mm = Some min_mag_ →
       convert_npdist node = Return npd →
       convert_hpdist node = Return hdd →
       ruptAspectRatio node = Return aspect →
       upperSeismoDepth node = Return upper →
       lowerSeismoDepth node = Return lower →
       magScaleRel node = Return msr →
       attrib node !! "tectonicRegion" = Some trt →
       convert self node
       = Return (mkUCERFControl
                   (os_path_join (os_path_dirname (fname self)) filename)
                   id (tom_time_span self) (Some dt) min_mag_ npd hdd aspect
                   upper lower msr (rupture_mesh_spacing self) trt)).
Proof.
  intros Hfile Hstart Hinv Hfloat.
  unfold convert_UCERFSource, node_getitem, float_of.
  rewrite Hfile, Hinv. simpl.
  rewrite decide_True by (split; [done | by eexists]).
  simpl. rewrite Hfloat. simpl. split.
  - by intros ->.
  - intros -> d dt id mm min_mag_ npd hdd aspect upper lower msr trt
      Hd Hdt Hid Hmm Hmin Hnpd Hhdd Hasp Hup Hlow Hmsr Htrt.
    simpl. rewrite Hd. simpl. rewrite Hdt. simpl.
    rewrite Hid. simpl. rewrite Hmm. simpl. rewrite Hmin. simpl.
    rewrite Hnpd, Hhdd, Hasp, Hup, Hlow, Hmsr. simpl.
    by rewrite Htrt.
Qed.

(** Without a start date the investigation time of the node is not
    looked at. *)
Lemma convert_without_start_date (self : SourceConverter) (node : Node) :
  attrib node !! "startDate" = None →
  ∀ filename id mm min_mag_ npd hdd aspect upper lower msr trt,
    attrib node !! "filename" = Some filename →
    attrib node !! "id" = Some id →
    attrib node !! "minMag" = Some mm →
    py_float mm = Some min_mag_ →
    convert_npdist node = Return npd →
    convert_hpdist node = Return hdd →
    ruptAspectRatio node = Return aspect →
    upperSeismoDepth node = Return upper →
    lowerSeismoDepth node = Return lower →
    magScaleRel node = Return msr →
    attrib node !! "tectonicRegion" = Some trt →
    convert self node
    = Return (mkUCERFControl
                (os_path_join (os_path_dirname (fname self)) filename)
                id (tom_time_span self) None min_mag_ npd hdd aspect
                upper lower msr (rupture_mesh_spacing self) trt).
Proof.
  intros Hstart filename id mm min_mag_ npd hdd aspect upper lower msr trt
    Hfile Hid Hmm Hmin Hnpd Hhdd Hasp Hup Hlow Hmsr Htrt.
  unfold convert_UCERFSource, node_getitem, float_of.
  rewrite Hfile. simpl.
  rewrite decide_False by (intros [[x Hx] _]; congruence).
  simpl. rewrite Hid. simpl. rewrite Hmm. simpl. rewrite Hmin. simpl.
  rewrite Hnpd, Hhdd, Hasp, Hup, Hlow, Hmsr. simpl.
  by rewrite Htrt.
Qed.
End ConvertFacts.

(** * The harness at work *)

(** The fault source of the harness yields its first rupture once, with
    the probability the formula gives. *)
Lemma poissonian_point_probability_witness :
  let out := (_sample_ruptures harness_sample harness_proba fault_source 3
                (mkScript [] 1)).1 in
  let p := poisson_proba 1 (eff_rate unit_tom 3 (Lit half)) in
  let L := Mul (Mul (Lit half) (Lit 1%Qc)) (Lit (Qc_of_Z 3)) in
  temporal_occurrence_model fault_source = Some unit_tom
  ∧ (harness_rupture half, 1, p) ∈ out
  ∧ p = Exp (Sub (Sub (Mul (Lit (Qc_of_Z 1)) (Log L)) L) (LogGamma (Lit (Qc_of_Z 2)))).
Proof.
  assert (Hin : (harness_rupture half, 1,
                 poisson_proba 1 (eff_rate unit_tom 3 (Lit half)))
                ∈ (_sample_ruptures harness_sample harness_proba fault_source 3
                     (mkScript [] 1)).1)
    by (vm_compute; constructor).
  split; [reflexivity|]. split; [exact Hin|].
  exact (poissonian_point_probability harness_sample harness_proba
           fault_source unit_tom 3 (mkScript [] 1) _ _ _ eq_refl Hin).
Defined.

(** With mutex weight 1/2 and a uniform draw of exactly 1/2, the draw does
    not exceed the weight, and yet the single occurrence of the rupture is
    zeroed and the rupture is not yielded. *)
Lemma mutex_draw_at_weight_counterexample :
  let w := Lit half in
  let g := mkScript [half] 0 in
  let rup := harness_rupture 0%Qc in
  let base := harness_sample rup 1 g in
  let uniform := np_random_array 1 base.2 in
  let result := sample_occurs harness_sample (Some w) rup 1 g in
  mutex_weight mutex_source = Some w
  ∧ fltb w (of_int 1) = true
  ∧ ¬ (∀ i : fin 1,
         result.1 !!! i
         = (if fltb w (uniform.1 !!! i) then 0 else base.1 !!! i))
  ∧ (_sample_ruptures harness_sample harness_proba mutex_source 1 g).1 = [].
Proof.
  repeat split; try reflexivity.
  intros Hclaim. specialize (Hclaim 0%fin). vm_compute in Hclaim. discriminate.
Defined.

(** With mutex weight 1/2 and the uniform draws 1/4 and 3/4, the first
    repeat keeps its occurrence and the second loses it. *)
Lemma mutex_thinning_witness :
  let w := Lit half in
  let g := mkScript [Q2Qc (1 # 4); Q2Qc (3 # 4)] 0 in
  let result := sample_occurs harness_sample (Some w) (harness_rupture 0%Qc) 2 g in
  fltb w (of_int 1) = true
  ∧ result.1 !!! 0%fin = 1
  ∧ result.1 !!! 1%fin = 0.
Proof.
  intros w g result.
  pose proof (proj1 (mutex_thinning harness_sample (Some w)
                       (harness_rupture 0%Qc) 2 g) w eq_refl eq_refl) as [_ H].
  split; [reflexivity|]. split.
  - exact (proj1 (H 0%fin)).
  - exact (proj2 (H 1%fin) eq_refl).
Defined.

(** The mutex source, run with draws 1/4 and 3/4, yields its rupture once,
    with the count 1. *)
Lemma one_entry_per_occurring_rupture_witness :
  let g := mkScript [Q2Qc (1 # 4); Q2Qc (3 # 4)] 0 in
  temporal_occurrence_model mutex_source = None
  ∧ (_sample_ruptures harness_sample harness_proba mutex_source 2 g).1
    = [(harness_rupture 0%Qc, 1, Lit 1%Qc)]
  ∧ ∃ draws : list (Rupture * nat * SymFloat),
      draws.*1.*1 = candidate_ruptures mutex_source
      ∧ (_sample_ruptures harness_sample harness_proba mutex_source 2 g).1
        = filter (fun e => 0 < e.1.2) draws
      ∧ Forall (fun e =>
           (∃ g0, e.1.2 = sum_list (vec_to_list
                   (sample_occurs harness_sample (mutex_weight mutex_source)
                      e.1.1 2 g0).1))
           ∧ e.2 = harness_proba e.1.1 e.1.2) draws.
Proof.
  intros g. split; [reflexivity|]. split; [reflexivity|].
  destruct (one_entry_per_occurring_rupture harness_sample harness_proba
              mutex_source 2 g) as (draws & H1 & H2 & H3 & _).
  exists draws. split; [exact H1|]. split; [exact H2|]. exact (H3 eq_refl).
Defined.


(** On the fault source, whose seed is 2, the index drawn is 1 and the
    second rupture is returned. *)
Lemma get_one_rupture_contract_witness :
  count_ruptures fault_source = 2
  ∧ length (iter_ruptures fault_source) = count_ruptures fault_source
  ∧ (get_one_rupture fault_source true (mkScript [] 0)).1
    = Raise (AssertionError mutex_msg)
  ∧ (get_one_rupture fault_source false (mkScript [] 0)).1
    = Return (set_idx 1 (harness_rupture 1%Qc)).
Proof.
  destruct (get_one_rupture_contract fault_source (mkScript [] 0)) as [H1 H2].
  destruct (H2 1 eq_refl eq_refl) as [_ (rup & Hrup & Hret)].
  split; [reflexivity|]. split; [reflexivity|].
  split; [exact (H1 true eq_refl)|].
  rewrite Hret. simpl. simpl in Hrup. by inversion Hrup.
Defined.

(** A distance filter that leaves no site: the task returns the empty map
    and the evaluation is not entered. *)
Lemma empty_sites_fast_path_witness :
  let task := ucerf_classical_hazard_by_rupture_set (Gsim := unit)
                (rounding := harness_rounding)
                "Active Shallow Crust" (fun _ idx _ _ => (idx, []))
                harness_poe_map in
  ∃ pm, task [3; 4; 5] harness_ucerf_source harness_filter [tt] harness_monitor
          harness_world
        = (Return pm, harness_ucerf_source, harness_world)
    ∧ ProbabilityMap.curves pm = ∅
    ∧ ProbabilityMap.eff_ruptures pm = Some {[ 7%Z := 0 ]}.
Proof.
  intros task.
  destruct (empty_sites_fast_path (Gsim := unit)
              (rounding := harness_rounding) "Active Shallow Crust"
              (fun _ idx _ _ => (idx, [])) harness_poe_map
              [3; 4; 5] harness_ucerf_source harness_filter [tt]
              harness_monitor harness_world (Qc_of_Z 200) eq_refl eq_refl)
    as (pm & Hrun & Hsame & _ & Heff & _).
  exists pm. split; [exact Hrun|]. split; [|exact Heff].
  destruct Hsame as (_ & _ & Hcurves). exact Hcurves.
Defined.

(** A distance filter that keeps both sites and the three rupture
    indices: three effective ruptures are recorded. *)
Lemma effective_ruptures_of_chunk_witness :
  let task := ucerf_classical_hazard_by_rupture_set (Gsim := unit)
                (rounding := harness_rounding)
                "Active Shallow Crust" (fun _ idx sites _ => (idx, sites))
                harness_poe_map in
  ∃ pm src1 w1,
    task [3; 4; 5] harness_ucerf_source harness_filter [tt] harness_monitor
      harness_world
    = (Return pm, src1, w1)
    ∧ ProbabilityMap.eff_ruptures pm = Some {[ 7%Z := 3 ]}
    ∧ ProbabilityMap.poe pm 0 0 0 = half.
Proof.
  intros task.
  destruct (effective_ruptures_of_chunk (Gsim := unit)
              (rounding := harness_rounding) "Active Shallow Crust"
              (fun _ idx sites _ => (idx, sites)) harness_poe_map
              [3; 4; 5] harness_ucerf_source harness_filter [tt]
              harness_monitor harness_world (Qc_of_Z 200) eq_refl
              ltac:(simpl; lia))
    as (pm & src1 & w1 & Hrun & Heff & _).
  exists pm, src1, w1. split; [exact Hrun|]. split; [exact Heff|].
  unfold task in *. vm_compute in Hrun. inversion Hrun. reflexivity.
Defined.

(** Rounding to the nearest multiple of 1/n moves a number by 1/(2n) at
    most. *)
Lemma grid_rounds_within (n : positive) :
  rounds_within (rounding := grid_rounding n) (Q2Qc (1 # (2 * n))).
Proof.
  assert (HN : (0 < inject_Z (Z.pos n))%Q) by (unfold Qlt; simpl; lia).
  assert (HeN : ((1 # (2 * n)) * inject_Z (Z.pos n) == 1 # 2)%Q)
    by (unfold Qeq; simpl; lia).
  split; cbn [rnd grid_rounding].
  - intros x y _ Hxy _. unfold Qcle in *. cbn [this Q2Qc].
    rewrite !Qred_correct.
    unfold Qdiv. apply Qmult_le_compat_r.
    + rewrite <-Zle_Qle. apply Qfloor_resp_le.
      apply Qplus_le_compat; [|apply Qle_refl].
      apply Qmult_le_compat_r; [done|]. by apply Qlt_le_weak.
    + apply Qinv_le_0_compat. by apply Qlt_le_weak.
  - apply Qc_is_canon. cbn [this Q2Qc]. rewrite !Qred_correct.
    assert (E : (Qred 0 * inject_Z (Z.pos n) + (1 # 2) == 1 # 2)%Q)
      by (rewrite Qred_correct; ring).
    rewrite E. change (Qfloor (1 # 2)) with 0%Z. unfold Qdiv.
    apply Qmult_0_l.
  - apply Qc_is_canon. cbn [this Q2Qc]. rewrite !Qred_correct.
    assert (E : (Qred 1 * inject_Z (Z.pos n) + (1 # 2) == Z.pos n~1 # 2)%Q).
    { rewrite Qred_correct. unfold Qeq. simpl. lia. }
    rewrite E.
    assert (F : Qfloor (Z.pos n~1 # 2) = Z.pos n).
    { unfold Qfloor. symmetry. apply (Z.div_unique _ _ _ 1); lia. }
    rewrite F. apply Qmult_inv_r. intros H0. rewrite H0 in HN.
    by apply Qlt_irrefl in HN.
  - intros x [Hx0 Hx1]. unfold Qcle in *.
    rewrite Qc_this_minus, Qc_this_plus. cbn [this Q2Qc].
    rewrite !Qred_correct.
    pose proof (Qfloor_le (this x * inject_Z (Z.pos n) + (1 # 2))) as Hlo.
    pose proof (Qlt_floor (this x * inject_Z (Z.pos n) + (1 # 2))) as Hhi.
    rewrite inject_Z_plus in Hhi.
    set (k := inject_Z (Qfloor (this x * inject_Z (Z.pos n) + (1 # 2)))) in *.
    set (N := inject_Z (Z.pos n)) in *. clearbody k N.
    split.
    + apply Qle_shift_div_l; [done|].
      change (inject_Z 1) with 1%Q in Hhi. nra.
    + apply Qle_shift_div_r; [done|]. nra.
Qed.

Lemma has_shape_singleton (sid : nat) (q : Qc) :
  ProbabilityMap.has_shape 1 1
    (ProbabilityMap.mk 1 1 {[ sid := [[q]] ]} None None None).
Proof.
  split; [done|]. split; [done|]. simpl. intros i c Hc.
  apply lookup_singleton_Some in Hc as [_ <-].
  split; [done|]. by repeat constructor.
Qed.

Lemma probabilities_singleton (sid : nat) (q : Qc) :
  (0 ≤ q ≤ 1)%Qc →
  ProbabilityMap.probabilities
    (ProbabilityMap.mk 1 1 {[ sid := [[q]] ]} None None None).
Proof.
  intros Hq i c Hc. simpl in Hc.
  apply lookup_singleton_Some in Hc as [_ <-].
  apply Forall_singleton, Forall_singleton, Hq.
Qed.

Lemma pmap_tenth'_ok :
  ProbabilityMap.has_shape 1 1 pmap_tenth'
  ∧ ProbabilityMap.probabilities pmap_tenth'.
Proof.
  split; [split; [done|split; [done|]]|]; intros i c Hc; simpl in Hc;
    (apply lookup_insert_Some in Hc as [[_ <-]|[_ Hc]];
     [|apply lookup_singleton_Some in Hc as [_ <-]]);
    try (split; [done|]);
    apply Forall_singleton; try done;
    apply Forall_singleton; split; by vm_compute.
Qed.

(** Three maps of shape 1 x 1 that hold 1/10, 1/10 and 3/10 for site 0,
    merged in arithmetic that rounds to multiples of 1/1024: the one
    grouping gives 443/1024 and the other 442/1024, which is within the
    tolerance of 16/2048. *)
Lemma merge_algebra_witness :
  let e := Q2Qc (1 # 2048) in
  let merge := ProbabilityMap.ior (rounding := harness_rounding) in
  rounds_within (rounding := harness_rounding) e
  ∧ ProbabilityMap.same (merge pmap_tenth pmap_tenth')
      (merge pmap_tenth' pmap_tenth)
  ∧ ProbabilityMap.within (Qc_of_Z 16 * e)%Qc
      (merge (merge pmap_tenth pmap_tenth') pmap_three_tenths)
      (merge pmap_tenth (merge pmap_tenth' pmap_three_tenths))
  ∧ ProbabilityMap.same (merge (ProbabilityMap.new 1 1) pmap_tenth) pmap_tenth
  ∧ ProbabilityMap.poe
      (merge (merge pmap_tenth pmap_tenth') pmap_three_tenths) 0 0 0
    = Q2Qc (443 # 1024)
  ∧ ProbabilityMap.poe
      (merge pmap_tenth (merge pmap_tenth' pmap_three_tenths)) 0 0 0
    = Q2Qc (442 # 1024).
Proof.
  intros e merge.
  assert (He : rounds_within (rounding := harness_rounding) e)
    by exact (grid_rounds_within 1024).
  assert (Ht : (0 ≤ Q2Qc (1 # 10) ≤ 1)%Qc) by (split; by vm_compute).
  assert (Ht3 : (0 ≤ Q2Qc (3 # 10) ≤ 1)%Qc) by (split; by vm_compute).
  destruct pmap_tenth'_ok as [Hsb Hpb].
  destruct (merge_algebra (rounding := harness_rounding) e 1 1
              pmap_tenth pmap_tenth' pmap_three_tenths He
              (has_shape_singleton 0 _) Hsb (has_shape_singleton 0 _)
              (probabilities_singleton 0 _ Ht) Hpb
              (probabilities_singleton 0 _ Ht3)) as (Hcomm & Hassoc & Hid).
  split; [exact He|]. split; [exact Hcomm|]. split; [exact Hassoc|].
  split; [exact Hid|].
  split; apply Qc_is_canon; by vm_compute.
Defined.

(** A node without a start date whose investigation time, 50 years,
    differs from the configured time span of one year: the conversion
    raises nothing and returns the control object. *)
Lemma investigation_time_counterexample :
  node_without_start_date !! "investigationTime" = Some "50"
  ∧ harness_float "50" = Some (Lit (Qc_of_Z 50))
  ∧ feqb (Lit (Qc_of_Z 50)) (tom_time_span harness_converter) = false
  ∧ harness_convert harness_converter node_without_start_date
    = Return (mkUCERFControl "ucerf/model.hdf5" "ucerf" (Lit 1%Qc) None
                (Lit (Qc_of_Z 5)) tt tt (Lit 1%Qc) (Lit 0%Qc) (Lit 0%Qc) tt
                (Lit 1%Qc) "Active Shallow Crust").
Proof. repeat split; vm_compute; reflexivity. Defined.

(** The node with a start date and an investigation time of one year is
    refused by a converter configured for 50 years. *)
Lemma investigation_time_check_witness :
  let self := mkSourceConverter "ucerf" (Lit (Qc_of_Z 50)) (Lit 1%Qc) in
  node_with_start_date !! "filename" = Some "model.hdf5"
  ∧ is_Some (node_with_start_date !! "startDate")
  ∧ node_with_start_date !! "investigationTime" = Some "1"
  ∧ harness_float "1" = Some (Lit (Qc_of_Z 1))
  ∧ feqb (Lit (Qc_of_Z 1)) (tom_time_span self) = false
  ∧ harness_convert self node_with_start_date
    = Raise (ValueError
        "Source investigation time (float) is not equal to configuration investigation time (float)").
Proof.
  intros self.
  assert (H1 : node_with_start_date !! "filename" = Some "model.hdf5")
    by reflexivity.
  assert (H2 : is_Some (node_with_start_date !! "startDate"))
    by (exists "01/01/2014"; reflexivity).
  assert (H3 : node_with_start_date !! "investigationTime" = Some "1")
    by reflexivity.
  assert (H4 : harness_float "1" = Some (Lit (Qc_of_Z 1))) by reflexivity.
  assert (H5 : feqb (Lit (Qc_of_Z 1)) (tom_time_span self) = false)
    by reflexivity.
  repeat (split; [assumption|]).
  exact (proj1 (investigation_time_check harness_float (fun _ => "float")
                  (fun d _ => Some d) (fun f => f)
                  (fun d f => (d ++ "/" ++ f)%string) (fun n => n)
                  (fun _ => Return tt) (fun _ => Return tt)
                  (fun _ => Return (Lit 1%Qc)) (fun _ => Return (Lit 0%Qc))
                  (fun _ => Return (Lit 0%Qc)) (fun _ => Return tt)
                  self node_with_start_date "model.hdf5" "1" (Lit (Qc_of_Z 1))
                  H1 H2 H3 H4) H5).
Defined.

(** * The capability sets of the composite GMPE *)

Section MultiFacts.
Context (imt_class : string -> option string).

(** The sets reached through an instance are the sets stored in the
    class, so that all instances read the same sets. *)
Lemma self_caps_shared (m1 m2 : MultiGMPE) (cls : Capabilities) :
  self_caps m1 cls = self_caps m2 cls.
Proof. reflexivity. Qed.

(** Whatever [__init__] finds in the class-level sets stays there. *)
Lemma init_items_grows (items : list (string * GMPE)) (cls : Capabilities) :
  REQUIRES_DISTANCES cls
  ⊆ REQUIRES_DISTANCES (init_items imt_class items cls).2.
Proof.
  revert cls. induction items as [|[imt gsim] rest IH]; intros cls; simpl;
    [done|].
  destruct (imt_class imt) as [c|]; [|done].
  case_decide; [|done].
  etrans; [|apply IH]. simpl. set_solver.
Qed.
End MultiFacts.

(** C9 (what the code does).  A first [MultiGMPE] is built from a GMPE
    that requires the distance [rjb], then a second one from a GMPE that
    requires [rrup].  Building the second changes the set of required
    distances that the first reports: [rrup] is not in it before and is in
    it afterwards; and the second reports [rjb], which none of its
    constituents requires. *)
Theorem multi_gmpe_shares_capability_sets :
  let first := MultiGMPE_init harness_imt_class [("PGA", gmpe_a)]
                 MultiGMPE_class_body in
  let second := MultiGMPE_init harness_imt_class [("PGV", gmpe_b)] first.2 in
  ∃ m1 m2,
    first.1 = Return m1 ∧ second.1 = Return m2
    ∧ ("rrup" ∉ REQUIRES_DISTANCES (self_caps m1 first.2))
    ∧ ("rrup" ∈ REQUIRES_DISTANCES (self_caps m1 second.2))
    ∧ ("rjb" ∈ REQUIRES_DISTANCES (self_caps m2 second.2))
    ∧ ("rjb" ∉ REQUIRES_DISTANCES (gmpe_caps gmpe_b)).
Proof.
  intros first second.
  exists (mkMultiGMPE [("PGA", gmpe_a)]), (mkMultiGMPE [("PGV", gmpe_b)]).
  assert (Hfirst : first = (Return (mkMultiGMPE [("PGA", gmpe_a)]),
                            update_caps MultiGMPE_class_body gmpe_a)).
  { unfold first, MultiGMPE_init. simpl.
    rewrite decide_True by (simpl; set_solver). done. }
  assert (Hsecond : second
                    = (Return (mkMultiGMPE [("PGV", gmpe_b)]),
                       update_caps (update_caps MultiGMPE_class_body gmpe_a) gmpe_b)).
  { unfold second. rewrite Hfirst. unfold MultiGMPE_init. simpl.
    rewrite decide_True by (simpl; set_solver). done. }
  rewrite Hfirst, Hsecond. unfold self_caps. simpl.
  split; [done|]. split; [done|].
  split; [set_unfold; intros [[]|[=]]|].
  split; [set_solver|]. split; [set_solver|].
  set_unfold. intros [=].
Qed.

(** * Further properties of [source/base.py] *)

Section ParametricSourceFacts.
Context {F : Type} `{!Float F} {MFD MSR : Type}.

(** X1.  The constructor of a parametric source succeeds exactly when the mesh
    spacing and the aspect ratio are each absent or strictly positive; the
    source it returns then stores its arguments and starts with group
    [-1], no counted ruptures and no seed.  A mesh spacing that is not
    positive is reported first, whatever the aspect ratio is. *)
Theorem parametric_source_init_positive (source_id_ name_ trt : string)
    (mfd : MFD) (rms : option F) (msr : MSR) (rar : option F) (tom : TOM) :
  let made := ParametricSeismicSource_init source_id_ name_ trt mfd rms msr
                rar tom in
  ((∃ src, made = Return src)
   ↔ (∀ s, rms = Some s → fltb (of_int 0) s = true)
     ∧ (∀ a, rar = Some a → fltb (of_int 0) a = true))
  ∧ (∀ src, made = Return src →
       p_rupture_mesh_spacing src = rms ∧ p_rupture_aspect_ratio src = rar
       ∧ p_mfd src = mfd ∧ p_temporal_occurrence_model src = tom
       ∧ p_grp_id src = (-1)%Z ∧ p_num_ruptures src = 0 ∧ p_seed src = None)
  ∧ (∀ s, rms = Some s → fltb (of_int 0) s = false →
       made = Raise (ValueError "rupture mesh spacing must be positive"))
  ∧ (∀ a, rar = Some a → fltb (of_int 0) a = false →
       (∀ s, rms = Some s → fltb (of_int 0) s = true) →
       made = Raise (ValueError "rupture aspect ratio must be positive")).
Proof.
  intros made. subst made. unfold ParametricSeismicSource_init.
  split; [|split; [|split]].
  - split.
    + intros [src Hsrc]. split.
      * intros s ->. simpl in Hsrc.
        by destruct (fltb (of_int 0) s).
      * intros a ->. destruct (set_and_not_positive rms); [done|].
        simpl in Hsrc. by destruct (fltb (of_int 0) a).
    + intros [Hs Ha].
      assert (set_and_not_positive rms = false) as ->.
      { destruct rms as [s|]; [|done]. simpl. by rewrite (Hs s eq_refl). }
      assert (set_and_not_positive rar = false) as ->.
      { destruct rar as [a|]; [|done]. simpl. by rewrite (Ha a eq_refl). }
      by eexists.
  - intros src Hsrc.
    destruct (set_and_not_positive rms); [done|].
    destruct (set_and_not_positive rar); [done|].
    by inversion Hsrc.
  - intros s -> Hs. simpl. by rewrite Hs.
  - intros a -> Ha Hs.
    assert (set_and_not_positive rms = false) as ->.
    { destruct rms as [s|]; [|done]. simpl. by rewrite (Hs s eq_refl). }
    simpl. by rewrite Ha.
Qed.
End ParametricSourceFacts.

Section SamplerMoreFacts.
Context {F G : Type} `{!Float F} `{!RandomState F G} {Surface : Type}.
Context (sample_number_of_occurrences :
           @Rupture F Surface -> forall n : nat, G -> vec nat n * G).
Context (proba_number_of_occurrences : @Rupture F Surface -> nat -> F).

Local Abbreviation Rup := (@Rupture F Surface).
Local Abbreviation Src := (@Source F Surface).
Local Abbreviation PSrc := (@PointSource F Surface).

Lemma elem_of_annual_occurrence_rates (src : PSrc) (m r : F) :
  (m, r) ∈ get_annual_occurrence_rates src
  ↔ ∃ occ, (m, occ) ∈ ps_mfd_rates src
           ∧ fltb (of_int 0) occ = true
           ∧ fleb (ps_min_mag src) m = true
           ∧ r = fmul occ (default (of_int 1) (ps_scaling_rate src)).
Proof.
  unfold get_annual_occurrence_rates. rewrite list_elem_of_omap. split.
  - intros ([m' occ] & Hin & Hsome).
    destruct (fltb (of_int 0) occ) eqn:Hpos; [|done].
    destruct (fleb (ps_min_mag src) m') eqn:Hmag; [|done].
    simpl in Hsome. inversion Hsome; subst. by exists occ.
  - intros (occ & Hin & Hpos & Hmag & ->).
    exists (m, occ). split; [done|]. by rewrite Hpos, Hmag.
Qed.

(** X2.  [get_annual_occurrence_rates] returns, in the order of the MFD, the
    magnitudes whose rate is strictly positive and which are not below the
    minimum magnitude of the source, each with its rate multiplied by the
    scaling rate (1 when the source has none); nothing else is returned. *)
Theorem annual_occurrence_rates_filtered (src : PSrc) :
  (∀ m r,
     (m, r) ∈ get_annual_occurrence_rates src
     ↔ ∃ occ, (m, occ) ∈ ps_mfd_rates src
              ∧ fltb (of_int 0) occ = true
              ∧ fleb (ps_min_mag src) m = true
              ∧ r = fmul occ (default (of_int 1) (ps_scaling_rate src)))
  ∧ (get_annual_occurrence_rates src).*1 `sublist_of` (ps_mfd_rates src).*1.
Proof.
  split; [apply elem_of_annual_occurrence_rates|].
  unfold get_annual_occurrence_rates.
  - induction (ps_mfd_rates src) as [|[m occ] rest IH]; simpl; [done|].
    destruct (fltb (of_int 0) occ && fleb (ps_min_mag src) m); simpl.
    + by apply sublist_skip.
    + by apply sublist_cons.
Qed.

Lemma elem_of_rup_args_of (mm : F) (src : PSrc) (a : RupArgs) :
  a ∈ rup_args_of mm src
  ↔ ∃ m n h, m ∈ get_annual_occurrence_rates src
             ∧ fltb m.1 mm = false
             ∧ n ∈ ps_nodal_plane_distribution src
             ∧ h ∈ ps_hypocenter_distribution src
             ∧ a = mkRupArgs m.2 n.1 h.1 m.1 n.2 h.2 src.
Proof.
  unfold rup_args_of. rewrite list_elem_of_bind. split.
  - intros (m & Ha & Hm). destruct (fltb m.1 mm) eqn:Hcut.
    { by apply elem_of_nil in Ha. }
    apply list_elem_of_bind in Ha as (n & Ha & Hn).
    apply list_elem_of_bind in Ha as (h & Ha & Hh).
    apply list_elem_of_singleton in Ha. by exists m, n, h.
  - intros (m & n & h & Hm & Hcut & Hn & Hh & ->).
    exists m. split; [|done]. rewrite Hcut.
    apply list_elem_of_bind. exists n. split; [|done].
    apply list_elem_of_bind. exists h. split; [|done].
    by apply list_elem_of_singleton.
Qed.

(** X3.  A rupture that the sampler yields for a Poissonian (multi)point or
    area source comes from one of the sources it is made of: its magnitude
    is neither below the minimum magnitude of the whole source nor below
    that of the part, its hypocenter lies at the location of the part at
    one of the depths of its hypocenter distribution, its rake is that of
    one of its nodal planes, it carries the temporal occurrence model of
    the whole source and no identifier yet, and its count is positive. *)
Theorem multi_geometry_ruptures (src : Src) (tom : TOM)
    (npd : list (F * NodalPlane)) (n : nat) (g : G) (rup : Rup) (k : nat)
    (p : F) :
  temporal_occurrence_model src = Some tom →
  nodal_plane_distribution src = Some npd →
  (rup, k, p) ∈ (_sample_ruptures sample_number_of_occurrences
                   proba_number_of_occurrences src n g).1 →
  0 < k
  ∧ rup_temporal_occurrence_model rup = Some tom
  ∧ rup_id rup = None
  ∧ fltb (mag rup) (min_mag src) = false
  ∧ ∃ part, part ∈ sub_sources src
      ∧ fleb (ps_min_mag part) (mag rup) = true
      ∧ rup_tectonic_region_type rup = ps_tectonic_region_type part
      ∧ latitude (hypocenter rup) = latitude (ps_location part)
      ∧ longitude (hypocenter rup) = longitude (ps_location part)
      ∧ (∃ hc_prob, (hc_prob, depth (hypocenter rup))
                    ∈ ps_hypocenter_distribution part)
      ∧ (∃ np_prob plane, (np_prob, plane) ∈ ps_nodal_plane_distribution part
                          ∧ rake rup = np_rake plane).
Proof.
  intros Htom Hnpd Hin. unfold _sample_ruptures in Hin. rewrite Htom in Hin.
  unfold sample_ruptures_poissonian in Hin. rewrite Hnpd in Hin.
  destruct (np_poisson_array _ g) as [occurs g1]. simpl in Hin.
  unfold yield_if_occurs in Hin.
  apply list_elem_of_filter in Hin as [Hk Hin]. simpl in Hk.
  unfold zip3 in Hin.
  apply list_elem_of_lookup in Hin as [i Hi].
  apply lookup_zip_with_Some in Hi as ([r' k'] & p' & Heq & Hrk & _).
  simplify_eq.
  apply lookup_zip_with_Some in Hrk as (r'' & k'' & Heq & Hr & _).
  simplify_eq.
  apply list_lookup_fmap_Some in Hr as (a & -> & Ha).
  apply list_elem_of_lookup_2 in Ha.
  apply list_elem_of_bind in Ha as (part & Ha & Hpart).
  apply elem_of_rup_args_of in Ha as ([m r] & [npp pl] & [hp hd] & Hm & Hcut
                                      & Hn & Hh & ->).
  apply elem_of_annual_occurrence_rates in Hm as (occ & _ & _ & Hmag & _).
  simpl in *. split; [lia|]. repeat (split; [done|]).
  exists part. repeat (split; [done|]). split; [by exists hp|by exists npp, pl].
Qed.

Lemma length_bind_const {A B : Type} (f : A → list B) (l : list A) (c : nat) :
  (∀ x, length (f x) = c) → length (l ≫= f) = length l * c.
Proof.
  intros Hf. induction l as [|x l IH]; [done|].
  rewrite bind_cons, length_app, Hf, IH. simpl. lia.
Qed.

(** X4.  The number of combinations enumerated for one part of a (multi)point
    or area source is the number of its magnitudes that pass the cut-off,
    times the number of nodal planes, times the number of hypocenter
    depths. *)
Theorem rup_args_count (mm : F) (src : PSrc) :
  length (rup_args_of mm src)
  = length (filter (fun m => fltb m.1 mm = false)
              (get_annual_occurrence_rates src))
    * (length (ps_nodal_plane_distribution src)
       * length (ps_hypocenter_distribution src)).
Proof.
  unfold rup_args_of.
  induction (get_annual_occurrence_rates src) as [|m rest IH]; [done|].
  rewrite bind_cons, length_app, IH, filter_cons.
  destruct (fltb m.1 mm) eqn:Hcut.
  - rewrite decide_False by done. done.
  - rewrite decide_True by done. simpl. f_equal.
    rewrite (length_bind_const _ _ (length (ps_hypocenter_distribution src)));
      [done|].
    intros np. rewrite (length_bind_const _ _ 1); [lia | done].
Qed.

Lemma sum_list_le (l k : list nat) :
  Forall2 le l k → sum_list l ≤ sum_list k.
Proof. induction 1; simpl; lia. Qed.

(** X5.  The mutex step never adds occurrences: in every repeat the occurrence
    after the step is at most the one drawn for the rupture, and so is the
    total; a rupture whose drawn occurrences are all zero has total
    zero. *)
Theorem mutex_never_adds (mw : option F) (rup : Rup) (n : nat) (g : G) :
  let base := (sample_number_of_occurrences rup n g).1 in
  let result := (sample_occurs sample_number_of_occurrences mw rup n g).1 in
  (∀ i : fin n, result !!! i ≤ base !!! i)
  ∧ sum_list (vec_to_list result) ≤ sum_list (vec_to_list base)
  ∧ (sum_list (vec_to_list base) = 0 → sum_list (vec_to_list result) = 0).
Proof.
  intros base result.
  assert (Hpoint : ∀ i : fin n, result !!! i ≤ base !!! i).
  { subst base result. unfold sample_occurs.
    destruct (sample_number_of_occurrences rup n g) as [occurs g1]. simpl.
    destruct mw as [w|]; [|done].
    destruct (fltb w (of_int 1)); [|done].
    destruct (np_random_array n g1) as [aux g2]. simpl.
    intros i. unfold thin_by_mutex. rewrite vlookup_zip_with.
    destruct (fltb (aux !!! i) w); lia. }
  assert (Hsum : sum_list (vec_to_list result) ≤ sum_list (vec_to_list base)).
  { apply sum_list_le. by apply Forall2_vlookup. }
  split; [done|]. split; [done|]. lia.
Qed.

Lemma sampler_entries (src : Src) (n : nat) (g : G) (rup : Rup) (k : nat)
    (p : F) :
  (rup, k, p) ∈ (_sample_ruptures sample_number_of_occurrences
                   proba_number_of_occurrences src n g).1 →
  0 < k ∧ rup ∈ candidate_ruptures src.
Proof.
  assert (Hdraws : ∃ draws : list (Rup * nat * F),
             draws.*1.*1 = candidate_ruptures src
             ∧ (_sample_ruptures sample_number_of_occurrences
                  proba_number_of_occurrences src n g).1
               = filter (fun e => 0 < e.1.2) draws).
  { unfold _sample_ruptures, candidate_ruptures.
    destruct (temporal_occurrence_model src) as [tom|].
    - unfold sample_ruptures_poissonian.
      destruct (nodal_plane_distribution src) as [npd|].
      + set (args := _ ≫= _).
        pose proof (np_poisson_array_length
                      (eff_rate tom n <$> (args_rate <$> args)) g) as Hlen.
        destruct (np_poisson_array _ g) as [occurs g1]. cbn [fst snd] in *.
        rewrite !length_fmap in Hlen.
        eexists. split; [|apply yield_if_occurs_positive].
        apply zip3_candidates; rewrite ?length_zip_with, ?length_fmap; lia.
      + pose proof (np_poisson_array_length
                      (eff_rate tom n <$> (occurrence_rate <$> iter_ruptures src))
                      g) as Hlen.
        destruct (np_poisson_array _ g) as [occurs g1]. cbn [fst snd] in *.
        rewrite !length_fmap in Hlen.
        eexists. split; [|apply yield_if_occurs_positive].
        apply zip3_candidates; rewrite ?length_zip_with, ?length_fmap; lia.
    - destruct (sample_ruptures_nonparametric_draws
                  sample_number_of_occurrences proba_number_of_occurrences
                  (mutex_weight src) (iter_ruptures src) n g)
        as (draws & H1 & H2 & _).
      exists draws. by destruct (nodal_plane_distribution src). }
  destruct Hdraws as (draws & Hcand & ->).
  intros [Hk Hin]%list_elem_of_filter. split; [done|].
  rewrite <-Hcand.
  apply list_elem_of_fmap. exists (rup, k). split; [done|].
  apply list_elem_of_fmap. by exists (rup, k, p).
Qed.

Lemma assign_rup_ids_entries (first grp : Z) (l : list (Rup * nat * F))
    (rup : Rup) (grp' : Z) (k : nat) (p : F) :
  (rup, grp', k, p) ∈ (assign_rup_ids first grp l).1 →
  grp' = grp ∧ ∃ rup0 i, (rup0, k, p) ∈ l ∧ rup = set_rup_id i rup0.
Proof.
  revert first. induction l as [|[[r0 k0] p0] rest IH]; intros first; simpl.
  { by intros ?%elem_of_nil. }
  specialize (IH (first + 1)%Z).
  destruct (assign_rup_ids (first + 1) grp rest) as [out last]. simpl in *.
  intros [Heq | Hin]%elem_of_cons.
  - inversion Heq; subst. split; [done|]. exists r0, first.
    split; [apply list_elem_of_here | done].
  - destruct (IH Hin) as (-> & rup0 & i & Hin0 & ->).
    split; [done|]. exists rup0, i. split; [by apply list_elem_of_further|done].
Qed.

Lemma sample_ruptures_groups_entries (src : Src) (n : nat) (grps : list Z)
    (first : Z) (g : G) (rup : Rup) (grp : Z) (k : nat) (p : F) :
  (rup, grp, k, p)
    ∈ (sample_ruptures_groups sample_number_of_occurrences
         proba_number_of_occurrences src n grps first g).1 →
  0 < k ∧ grp ∈ grps
  ∧ ∃ rup0 i, rup0 ∈ candidate_ruptures src ∧ rup = set_rup_id i rup0.
Proof.
  revert first g. induction grps as [|grp0 rest IH]; intros first g; simpl.
  { by intros ?%elem_of_nil. }
  destruct (_sample_ruptures _ _ src n g) as [sampled g1] eqn:Hs.
  pose proof (assign_rup_ids_entries first grp0 sampled rup grp k p) as Hassign.
  destruct (assign_rup_ids first grp0 sampled) as [out last]. simpl in *.
  specialize (IH last g1).
  destruct (sample_ruptures_groups _ _ src n rest last g1) as [more g2].
  simpl in *. intros [Hin | Hin]%elem_of_app.
  - destruct (Hassign Hin) as (-> & rup0 & i & Hin0 & ->).
    pose proof (sampler_entries src n g rup0 k p) as Hent.
    rewrite Hs in Hent. destruct (Hent Hin0) as [Hk Hcand].
    split; [done|]. split; [apply list_elem_of_here|]. by exists rup0, i.
  - destruct (IH Hin) as (Hk & Hgrp & Hrup).
    split; [done|]. split; [by apply list_elem_of_further | done].
Qed.

(** X6.  Every entry of [sample_ruptures] has a strictly positive count, one of
    the groups of the source, and a rupture that is a candidate rupture of
    the source with only its identifier set.  A source without any group
    yields nothing and draws nothing, but the random state is set from
    its serial all the same. *)
Theorem sample_ruptures_entries (src : Src) (n : nat) (g : G) :
  (∀ rup grp k p,
     (rup, grp, k, p)
       ∈ (sample_ruptures sample_number_of_occurrences
            proba_number_of_occurrences src n g).1 →
     0 < k ∧ grp ∈ grp_ids src
     ∧ ∃ rup0 i, rup0 ∈ candidate_ruptures src ∧ rup = set_rup_id i rup0)
  ∧ (grp_ids src = [] →
     sample_ruptures sample_number_of_occurrences
       proba_number_of_occurrences src n g
     = ([], np_seed (serial src))).
Proof.
  split.
  - intros rup grp k p Hin. by apply sample_ruptures_groups_entries in Hin.
  - intros Hnone. unfold sample_ruptures. by rewrite Hnone.
Qed.

Lemma pick_rupture_out_of_range (self_rup_id : option Z) (start idx_ : nat)
    (rups : list Rup) :
  start + length rups ≤ idx_ →
  pick_rupture self_rup_id start idx_ rups = ReturnNone.
Proof.
  revert start. induction rups as [|r rest IH]; intros start Hle; [done|].
  simpl in *. rewrite decide_False by lia. apply IH. lia.
Qed.

(** X7.  The edges of [get_one_rupture] (called without mutex): on a source
    that counts no rupture the draw of the index raises [ValueError]; on a
    source that counts more ruptures than it iterates over, an index
    drawn beyond the last rupture makes the call return [None], without
    an error. *)
Theorem get_one_rupture_edges (src : Src) (g : G) :
  let g0 := match seed src with
            | Some s => np_seed s
            | None => np_seed_entropy g
            end in
  (count_ruptures src = 0 →
     ∃ msg, get_one_rupture src false g = (Raise (ValueError msg), g0))
  ∧ (∀ m, count_ruptures src = S m →
       length (iter_ruptures src) ≤ fin_to_nat (np_choice m g0).1 →
       get_one_rupture src false g = (ReturnNone, (np_choice m g0).2)).
Proof.
  intros g0. unfold get_one_rupture. fold g0. split.
  - intros ->. by eexists.
  - intros m -> Hout. destruct (np_choice m g0) as [i g1]. simpl in *.
    by rewrite pick_rupture_out_of_range by (simpl; lia).
Qed.
End SamplerMoreFacts.

(** * Further properties of [gsim/multi.py] *)

Section MultiMoreFacts.
Context (imt_class : string -> option string).

Local Abbreviation supported_item := (supported_item imt_class).

Lemma init_items_ok (items : list (string * GMPE)) (cls : Capabilities) :
  Forall supported_item items →
  init_items imt_class items cls = (None, foldl update_caps cls items.*2).
Proof.
  intros Hall. revert cls.
  induction Hall as [|[imt gsim] rest (c & Hc & Hin) _ IH]; intros cls; [done|].
  simpl in *. rewrite Hc. rewrite decide_True by done. apply IH.
Qed.

Lemma init_items_sound (items : list (string * GMPE)) (cls : Capabilities) :
  (init_items imt_class items cls).1 = None → Forall supported_item items.
Proof.
  revert cls. induction items as [|[imt gsim] rest IH]; intros cls; [done|].
  simpl. destruct (imt_class imt) as [c|] eqn:Hc; [|done].
  case_decide as Hin; [|done].
  intros Hrest. constructor; [by exists c | by eapply IH].
Qed.

Lemma init_items_error (items : list (string * GMPE)) (cls : Capabilities) :
  ¬ Forall supported_item items →
  ∃ msg, (init_items imt_class items cls).1 = Some (ValueError msg).
Proof.
  revert cls. induction items as [|[imt gsim] rest IH]; intros cls Hnot.
  { destruct Hnot. constructor. }
  simpl. destruct (imt_class imt) as [c|] eqn:Hc; [|by eexists].
  case_decide as Hin; [|by eexists].
  apply IH. intros Hrest. apply Hnot. constructor; [|done]. by exists c.
Qed.

(** X8.  The constructor of the composite GMPE returns an instance exactly
    when every key of the dictionary is an IMT string whose class the GMPE
    stored under it supports; the instance then holds the dictionary as it
    was given.  Otherwise the constructor raises [ValueError]. *)
Theorem multi_gmpe_init_validates (items : list (string * GMPE))
    (cls : Capabilities) :
  let made := (MultiGMPE_init imt_class items cls).1 in
  ((∃ m, made = Return m) ↔ Forall supported_item items)
  ∧ (∀ m, made = Return m → gsim_by_imt m = items)
  ∧ (¬ Forall supported_item items → ∃ msg, made = Raise (ValueError msg)).
Proof.
  intros made. subst made. unfold MultiGMPE_init.
  assert (Herr : ¬ Forall supported_item items →
                 ∃ msg, (let (o, cls1) := init_items imt_class items cls in
                         match o with
                         | Some e => (Raise e, cls1)
                         | None => (Return (mkMultiGMPE items), cls1)
                         end).1 = Raise (ValueError msg)).
  { intros Hnot. destruct (init_items_error items cls Hnot) as [msg Hmsg].
    destruct (init_items imt_class items cls) as [o cls1]. simpl in *.
    subst o. by exists msg. }
  split; [split|split].
  - intros [m Hm]. apply (init_items_sound items cls).
    destruct (init_items imt_class items cls) as [[e|] cls1]; by simpl in *.
  - intros Hall. rewrite (init_items_ok items cls Hall). by eexists.
  - intros m Hm. destruct (init_items imt_class items cls) as [[e|] cls1];
      simpl in Hm; [done|]. by inversion Hm.
  - exact Herr.
Qed.

Lemma foldl_update_caps (cls : Capabilities) (l : list GMPE) :
  let cls' := foldl update_caps cls l in
  DEFINED_FOR_INTENSITY_MEASURE_TYPES cls'
    = DEFINED_FOR_INTENSITY_MEASURE_TYPES cls
      ∪ ⋃ ((fun g => DEFINED_FOR_INTENSITY_MEASURE_TYPES (gmpe_caps g)) <$> l)
  ∧ DEFINED_FOR_STANDARD_DEVIATION_TYPES cls'
    = DEFINED_FOR_STANDARD_DEVIATION_TYPES cls
      ∪ ⋃ ((fun g => DEFINED_FOR_STANDARD_DEVIATION_TYPES (gmpe_caps g)) <$> l)
  ∧ REQUIRES_SITES_PARAMETERS cls'
    = REQUIRES_SITES_PARAMETERS cls
      ∪ ⋃ ((fun g => REQUIRES_SITES_PARAMETERS (gmpe_caps g)) <$> l)
  ∧ REQUIRES_RUPTURE_PARAMETERS cls'
    = REQUIRES_RUPTURE_PARAMETERS cls
      ∪ ⋃ ((fun g => REQUIRES_RUPTURE_PARAMETERS (gmpe_caps g)) <$> l)
  ∧ REQUIRES_DISTANCES cls'
    = REQUIRES_DISTANCES cls
      ∪ ⋃ ((fun g => REQUIRES_DISTANCES (gmpe_caps g)) <$> l).
Proof.
  revert cls. induction l as [|g l IH]; intros cls; simpl.
  { by rewrite !(right_id_L ∅ (∪)). }
  destruct (IH (update_caps cls g)) as (H1 & H2 & H3 & H4 & H5).
  rewrite H1, H2, H3, H4, H5. simpl. by rewrite !(assoc_L (∪)).
Qed.

(** X9.  After a successful construction each of the five class-level sets is
    what it was before, united with the corresponding sets of all the
    GMPEs of the dictionary. *)
Theorem multi_gmpe_init_unions (items : list (string * GMPE))
    (cls : Capabilities) (m : MultiGMPE) :
  (MultiGMPE_init imt_class items cls).1 = Return m →
  let cls' := (MultiGMPE_init imt_class items cls).2 in
  DEFINED_FOR_INTENSITY_MEASURE_TYPES cls'
    = DEFINED_FOR_INTENSITY_MEASURE_TYPES cls
      ∪ ⋃ ((fun g => DEFINED_FOR_INTENSITY_MEASURE_TYPES (gmpe_caps g))
             <$> items.*2)
  ∧ DEFINED_FOR_STANDARD_DEVIATION_TYPES cls'
    = DEFINED_FOR_STANDARD_DEVIATION_TYPES cls
      ∪ ⋃ ((fun g => DEFINED_FOR_STANDARD_DEVIATION_TYPES (gmpe_caps g))
             <$> items.*2)
  ∧ REQUIRES_SITES_PARAMETERS cls'
    = REQUIRES_SITES_PARAMETERS cls
      ∪ ⋃ ((fun g => REQUIRES_SITES_PARAMETERS (gmpe_caps g)) <$> items.*2)
  ∧ REQUIRES_RUPTURE_PARAMETERS cls'
    = REQUIRES_RUPTURE_PARAMETERS cls
      ∪ ⋃ ((fun g => REQUIRES_RUPTURE_PARAMETERS (gmpe_caps g)) <$> items.*2)
  ∧ REQUIRES_DISTANCES cls'
    = REQUIRES_DISTANCES cls
      ∪ ⋃ ((fun g => REQUIRES_DISTANCES (gmpe_caps g)) <$> items.*2).
Proof.
  intros Hm cls'. subst cls'.
  assert (Hall : Forall supported_item items).
  { apply (init_items_sound items cls). unfold MultiGMPE_init in Hm.
    destruct (init_items imt_class items cls) as [[e|] cls1]; by simpl in *. }
  unfold MultiGMPE_init. rewrite (init_items_ok items cls Hall). simpl.
  apply foldl_update_caps.
Qed.
End MultiMoreFacts.

Section MultiMappingFacts.
Context {IMT Ctx Res : Type}.
Context (str_imt : IMT -> string).
Context (gmpe_compute : GMPE -> Ctx -> IMT -> list string -> PyResult Res).

Lemma dict_getitem_found {V : Type} (items : list (string * V)) (key : string)
    (v : V) :
  NoDup items.*1 → (key, v) ∈ items → dict_getitem items key = Return v.
Proof.
  induction items as [|[k' v'] rest IH]; simpl.
  { by intros _ ?%elem_of_nil. }
  intros [Hfresh Hnodup]%NoDup_cons [Heq | Hin]%elem_of_cons.
  - inversion Heq; subst. by rewrite decide_True.
  - rewrite decide_False; [by apply IH|].
    intros ->. apply Hfresh. apply list_elem_of_fmap. by exists (key, v).
Qed.

Lemma dict_getitem_missing {V : Type} (items : list (string * V))
    (key : string) :
  key ∉ items.*1 → dict_getitem items key = Raise (KeyError key).
Proof.
  induction items as [|[k' v'] rest IH]; simpl; [done|].
  intros [Hne Hrest]%not_elem_of_cons.
  rewrite decide_False by done. by apply IH.
Qed.

(** X10.  The composite GMPE as a mapping over a dictionary with distinct keys:
    its length is the number of keys it iterates over, looking up a key
    it iterates over gives the GMPE stored with it, and any other key
    raises [KeyError].  [get_mean_and_stddevs] hands the computation to
    the GMPE stored under [str(imt)], and raises [KeyError] when there is
    none. *)
Theorem multi_gmpe_mapping (self : MultiGMPE) :
  NoDup (MultiGMPE_iter self) →
  MultiGMPE_len self = length (MultiGMPE_iter self)
  ∧ (∀ imt gsim, (imt, gsim) ∈ gsim_by_imt self →
       MultiGMPE_getitem self imt = Return gsim)
  ∧ (∀ imt, imt ∉ MultiGMPE_iter self →
       MultiGMPE_getitem self imt = Raise (KeyError imt))
  ∧ (∀ ctx imt sd gsim, (str_imt imt, gsim) ∈ gsim_by_imt self →
       get_mean_and_stddevs str_imt gmpe_compute self ctx imt sd
       = gmpe_compute gsim ctx imt sd)
  ∧ (∀ ctx imt sd, str_imt imt ∉ MultiGMPE_iter self →
       get_mean_and_stddevs str_imt gmpe_compute self ctx imt sd
       = Raise (KeyError (str_imt imt))).
Proof.
  unfold MultiGMPE_iter, MultiGMPE_len, MultiGMPE_getitem, get_mean_and_stddevs.
  intros Hnodup. split; [by rewrite length_fmap|].
  split; [intros imt gsim Hin; by apply dict_getitem_found|].
  split; [intros imt Hout; by apply dict_getitem_missing|].
  split.
  - intros ctx imt sd gsim Hin.
    by rewrite (dict_getitem_found _ _ _ Hnodup Hin).
  - intros ctx imt sd Hout. by rewrite (dict_getitem_missing _ _ Hout).
Qed.
End MultiMappingFacts.

(** * Further properties of [calculators/ucerf_classical.py] *)

Section UcerfMoreFacts.
Context {Gsim BgData : Type}.
Context {rounding : Rounding}.
Context (DEFAULT_TRT : string).
Context (filter_sites_by_distance_from_rupture_set :
           UcerfSource -> list nat -> list nat -> Qc -> list nat * list nat).
Context (poe_map : UcerfSource -> list nat -> list (string * list Qc) ->
                   @ContextMaker Gsim -> option Qc -> ProbabilityMap.t).
Context (get_rupture_indices : UcerfSource -> list nat).
Context (get_background_sids : UcerfSource -> SourceFilter -> list nat).
Context (get_background_sources :
           UcerfSource -> list nat -> list (@BgSource BgData)).
Context (pmap_from_grp :
           list (@BgSource BgData) -> SourceFilter ->
           list (string * list Qc) -> list Gsim -> option Qc -> World ->
           (ProbabilityMap.t * gmap Z nat) * World).

(** X11.  [_hazard_curves_per_rupture_subset] assigns the rupture indices and
    their number to the source, and returns a map of the shape (number of
    levels, number of ground-motion models) that holds exactly the
    probabilities [poe_map] computed for the source so restricted, the
    group of the source, and one timing entry: the identifier of the
    source, the number of sites and the time elapsed between the two
    readings of the clock. *)
Theorem hazard_curves_per_rupture_subset_result (rupset : list nat)
    (src : UcerfSource) (sites : list nat) (im : list (string * list Qc))
    (cmaker : ContextMaker) (trunc : option Qc) (w : World) :
  let res := _hazard_curves_per_rupture_subset poe_map rupset src sites im
               cmaker trunc w in
  let src1 := mkUcerfSource (u_source_id src) (src_group_id src) rupset
                (length rupset) (src_filter src) in
  let t0 := hd 0%Qc (clock w) in
  let t1 := hd 0%Qc (tail (clock w)) in
  res.1.2 = src1
  ∧ ProbabilityMap.curves res.1.1
    = ProbabilityMap.curves (poe_map src1 sites im cmaker trunc)
  ∧ ProbabilityMap.shape_y res.1.1 = imtls_array_len im
  ∧ ProbabilityMap.shape_z res.1.1 = length (gsims cmaker)
  ∧ ProbabilityMap.grp_id res.1.1 = Some (src_group_id src)
  ∧ ProbabilityMap.calc_times res.1.1
    = Some [(u_source_id src, length sites, rnd (t1 - t0)%Qc)]
  ∧ clock res.2 = tail (tail (clock w))
  ∧ poe_map_calls res.2 = S (poe_map_calls w).
Proof.
  intros res src1 t0 t1. subst res src1 t0 t1.
  unfold _hazard_curves_per_rupture_subset, call_poe_map, time_time.
  destruct w as [[|c0 [|c1 cs]] calls]; simpl;
    repeat split; try apply merge_curves_empty_l.
Qed.

Lemma rupture_set_eff_ruptures (rupset : list nat) (src : UcerfSource)
    (flt : SourceFilter) (gs : list Gsim) (mon : Monitor) (w : World)
    (pm : ProbabilityMap.t) :
  (ucerf_classical_hazard_by_rupture_set DEFAULT_TRT
     filter_sites_by_distance_from_rupture_set poe_map
     rupset src flt gs mon w).1.1 = Return pm →
  ∃ n, ProbabilityMap.eff_ruptures pm = Some {[ src_group_id src := n ]}.
Proof.
  unfold ucerf_classical_hazard_by_rupture_set.
  destruct (integration_distance flt !! DEFAULT_TRT) as [d|]; [|done].
  destruct (filter_sites_by_distance_from_rupture_set _ _ _ _) as [idx sites].
  case_decide.
  - unfold _hazard_curves_per_rupture_subset, call_poe_map.
    destruct (time_time w) as [t0 w1].
    destruct (time_time _) as [t1 w3]. simpl.
    intros [= <-]. by eexists.
  - simpl. intros [= <-]. by eexists.
Qed.

Lemma rupture_set_keeps_group (rupset : list nat) (src : UcerfSource)
    (flt : SourceFilter) (gs : list Gsim) (mon : Monitor) (w : World) :
  src_group_id (ucerf_classical_hazard_by_rupture_set DEFAULT_TRT
                  filter_sites_by_distance_from_rupture_set poe_map
                  rupset src flt gs mon w).1.2
  = src_group_id src.
Proof.
  unfold ucerf_classical_hazard_by_rupture_set.
  destruct (integration_distance flt !! DEFAULT_TRT) as [d|]; [|done].
  destruct (filter_sites_by_distance_from_rupture_set _ _ _ _) as [idx sites].
  case_decide; [|done].
  unfold _hazard_curves_per_rupture_subset, call_poe_map.
  destruct (time_time w) as [t0 w1].
  by destruct (time_time _) as [t1 w3].
Qed.

(** X12.  A branch task first runs the rupture-set task on all the rupture
    indices of the source.  If that raises, the branch raises the same and
    the background is not looked at.  If the source has no background
    source, the branch returns what the rupture-set task returned.
    Otherwise the first background source is put in the group of the
    source, and the map of the background is merged in: the probabilities
    are merged, the effective ruptures of the group of the source are
    those of the rupture set plus those the background reports for this
    group, and the counts the background reports for other groups are
    taken over. *)
Theorem hazard_by_branch_composes (src : UcerfSource) (flt : SourceFilter)
    (gs : list Gsim) (mon : Monitor) (w : World) :
  let first := ucerf_classical_hazard_by_rupture_set DEFAULT_TRT
                 filter_sites_by_distance_from_rupture_set poe_map
                 (get_rupture_indices src) src flt gs mon w in
  let branch := ucerf_classical_hazard_by_branch DEFAULT_TRT
                  filter_sites_by_distance_from_rupture_set poe_map
                  get_rupture_indices get_background_sids
                  get_background_sources pmap_from_grp src flt gs mon w in
  let src1 := first.1.2 in
  let bg := get_background_sources src1 (get_background_sids src1 flt) in
  (∀ e, first.1.1 = Raise e → branch = first)
  ∧ (bg = [] → branch = first)
  ∧ (∀ pm0, first.1.1 = Return pm0 → bg ≠ [] →
       let back := pmap_from_grp (set_first_group (src_group_id src) bg) flt
                     (imtls (oqparam mon)) gs (truncation_level (oqparam mon))
                     first.2 in
       ∃ pm n0 effs,
         branch = (Return pm, src1, back.2)
         ∧ bg_src_group_id <$> head (set_first_group (src_group_id src) bg)
           = Some (src_group_id src)
         ∧ ProbabilityMap.curves pm
           = ProbabilityMap.merge_curves (ProbabilityMap.curves pm0)
               (ProbabilityMap.curves back.1.1)
         ∧ ProbabilityMap.eff_ruptures pm0 = Some {[ src_group_id src := n0 ]}
         ∧ ProbabilityMap.eff_ruptures pm = Some effs
         ∧ effs !! src_group_id src
           = Some (n0 + default 0 (back.1.2 !! src_group_id src))
         ∧ (∀ grp, grp ≠ src_group_id src → effs !! grp = back.1.2 !! grp)
         ∧ ProbabilityMap.calc_times pm = ProbabilityMap.calc_times pm0
         ∧ ProbabilityMap.grp_id pm = ProbabilityMap.grp_id pm0).
Proof.
  intros first branch src1 bg.
  pose proof (rupture_set_eff_ruptures (get_rupture_indices src) src flt gs
                mon w) as Heff.
  pose proof (rupture_set_keeps_group (get_rupture_indices src) src flt gs
                mon w) as Hgrp.
  subst branch bg src1. unfold ucerf_classical_hazard_by_branch.
  fold first in Heff, Hgrp |- *.
  destruct first as [[r srcA] wA]. simpl in *.
  split; [by intros e ->|]. split.
  - intros Hbg. destruct r; [|done..]. by rewrite Hbg.
  - intros pm0 -> Hbg. destruct (Heff pm0 eq_refl) as [n0 Hn0].
    destruct (get_background_sources srcA (get_background_sids srcA flt))
      as [|b rest] eqn:Hbgs; [done|].
    rewrite Hgrp. simpl.
    destruct (pmap_from_grp _ flt _ gs _ wA) as [[pmap eff] w2]. simpl.
    eexists _, n0, _. split; [done|]. split; [done|]. split; [done|].
    split; [done|]. split; [done|]. rewrite Hn0. simpl.
    unfold accum_add. split; [|split; [|done]].
    + rewrite lookup_union_with, lookup_singleton_eq.
      destruct (eff !! src_group_id src); simpl; f_equal; lia.
    + intros grp Hne. rewrite lookup_union_with, lookup_singleton_ne by done.
      by destruct (eff !! grp).
Qed.

End UcerfMoreFacts.

(** * The folding of background results *)

Section BackgroundFacts.
Import ProbabilityMap.
Context {rounding : Rounding}.
Local Open Scope Qc_scope.

Lemma Qc_of_nat_S (n : nat) :
  Qc_of_Z (Z.of_nat (S n)) = Qc_of_Z (Z.of_nat n) + 1.
Proof.
  apply Qc_is_canon. rewrite Qc_this_plus. unfold Qc_of_Z. cbn [this Q2Qc].
  rewrite !Qred_correct, Nat2Z.inj_succ. unfold Z.succ.
  by rewrite inject_Z_plus.
Qed.

(** What a fold of merges loses against exact arithmetic: four roundings
    for every merge. *)
Lemma foldl_merge_curves_close (e : Qc) (bs : list (gmap nat (list (list Qc)))) :
  rounds_within e → Forall unit_curves bs →
  ∀ d m m', 0 ≤ d → unit_curves m → unit_curves m' → close_maps d m m' →
    close_maps (d + Qc_of_Z (Z.of_nat (length bs)) * (Qc_of_Z 4 * e))
      (foldl merge_curves m bs)
      (foldl exact_merge m' bs).
Proof.
  intros H Hbs. pose proof (rounds_within_nonneg e H) as He.
  induction Hbs as [|b bs Hb Hbs IH]; intros d m m' Hd Hm Hm' Hmm.
  - cbn [foldl length]. change (Z.of_nat 0) with 0%Z.
    replace (d + Qc_of_Z 0 * (Qc_of_Z 4 * e)) with d; [done|].
    apply Qc_is_canon. qc_to_q. lra.
  - cbn [foldl length]. rewrite Qc_of_nat_S.
    assert (Hd' : 0 ≤ d + Qc_of_Z 4 * e) by (qc_to_q; lra).
    pose proof (IH _ _ _ Hd'
                  (merge_curves_unit e m b H Hm Hb)
                  (merge_curves_unit (rounding := exact_rounding) 0 m' b
                     exact_rounds_within Hm' Hb)
                  (merge_curves_step e d m m' b H Hd Hm Hm' Hb Hmm)) as Hstep.
    replace (d + (Qc_of_Z (Z.of_nat (length bs)) + 1) * (Qc_of_Z 4 * e))
      with (d + Qc_of_Z 4 * e
            + Qc_of_Z (Z.of_nat (length bs)) * (Qc_of_Z 4 * e)) by ring.
    done.
Qed.

Lemma merge_curves_exact_swap (m x y : gmap nat (list (list Qc))) :
  exact_merge (exact_merge m x) y = exact_merge (exact_merge m y) x.
Proof.
  rewrite !merge_curves_exact_assoc. f_equal.
  apply (merge_curves_comm (rounding := exact_rounding)).
Qed.

Lemma foldl_merge_curves_exact_permutation
    (bs bs' : list (gmap nat (list (list Qc)))) :
  bs ≡ₚ bs' →
  ∀ m, foldl exact_merge m bs = foldl exact_merge m bs'.
Proof.
  induction 1 as [|x l l' _ IH|x y l|l1 l2 l3 _ IH1 _ IH2]; intros m; simpl.
  - done.
  - apply IH.
  - by rewrite merge_curves_exact_swap.
  - by rewrite IH1.
Qed.

Lemma foldl_ior_curves (a : t) (l : list t) :
  curves (foldl ior a l) = foldl merge_curves (curves a) (curves <$> l).
Proof. revert a. induction l as [|p l IH]; intros a; [done|]. simpl. by rewrite IH. Qed.

Lemma foldl_ior_attributes (a : t) (l : list t) :
  shape_y (foldl ior a l) = shape_y a
  ∧ shape_z (foldl ior a l) = shape_z a
  ∧ calc_times (foldl ior a l) = calc_times a
  ∧ eff_ruptures (foldl ior a l) = eff_ruptures a
  ∧ grp_id (foldl ior a l) = grp_id a.
Proof.
  revert a. induction l as [|p l IH]; intros a; [done|]. simpl.
  destruct (IH (ior a p)) as (-> & -> & -> & -> & ->). done.
Qed.

Lemma compose_background_foldl (acc : gmap Z t) (a : t) (l : list t) :
  acc !! 0%Z = Some a →
  compose_background acc l = Return (<[0%Z := foldl ior a l]> acc).
Proof.
  revert acc a. induction l as [|p l IH]; intros acc a Ha; simpl.
  - by rewrite insert_id.
  - rewrite Ha. rewrite (IH _ (ior a p)).
    + by rewrite insert_insert_eq.
    + apply lookup_insert_eq.
Qed.

(** X13.  Folding the results of the background tasks, maps of one shape
    that hold probabilities, into the accumulator: the map of group 0 is
    merged with all of them in the order they arrive, keeps its own
    attributes, and the maps of the other groups are left alone.  Two
    orders of arrival give maps of group 0 of the same shape and the same
    sites, whose entries differ by eight roundings for every result at
    most, where one rounding moves a number of the unit interval by [e]
    at most.  Without a map for group 0 the first result raises
    [KeyError], and no result at all leaves the accumulator as it is. *)
Theorem compose_background_order (e : Qc) (y z : nat)
    (acc : gmap Z t) (l l' : list t) :
  rounds_within e →
  (∀ a, acc !! 0%Z = Some a → has_shape y z a ∧ probabilities a) →
  Forall (fun p => has_shape y z p ∧ probabilities p) l →
  l ≡ₚ l' →
  (∀ a, acc !! 0%Z = Some a →
     compose_background acc l = Return (<[0%Z := foldl ior a l]> acc)
     ∧ compose_background acc l' = Return (<[0%Z := foldl ior a l']> acc)
     ∧ within (Qc_of_Z (Z.of_nat (length l)) * (Qc_of_Z 8 * e))
         (foldl ior a l) (foldl ior a l')
     ∧ curves (foldl ior a l) = foldl merge_curves (curves a) (curves <$> l)
     ∧ eff_ruptures (foldl ior a l) = eff_ruptures a)
  ∧ (acc !! 0%Z = None → l ≠ [] →
       compose_background acc l = Raise (KeyError "0")
       ∧ compose_background acc l' = Raise (KeyError "0"))
  ∧ (l = [] → compose_background acc l = Return acc).
Proof.
  intros H Hacc Hl Hperm. split; [|split; [|by intros ->]].
  - intros a Ha. destruct (Hacc a Ha) as [_ Hpa].
    rewrite !(compose_background_foldl acc a) by done.
    split; [done|]. split; [done|].
    split; [|split; [apply foldl_ior_curves | apply foldl_ior_attributes]].
    destruct (foldl_ior_attributes a l) as (Hy & Hz & _).
    destruct (foldl_ior_attributes a l') as (Hy' & Hz' & _).
    split; [congruence|]. split; [congruence|].
    rewrite !foldl_ior_curves.
    assert (Hbs : Forall unit_curves (curves <$> l)).
    { apply Forall_fmap. eapply Forall_impl; [exact Hl|]. by intros p [_ Hp]. }
    assert (Hbs' : Forall unit_curves (curves <$> l')).
    { apply Forall_fmap. rewrite <-Hperm.
      eapply Forall_impl; [exact Hl|]. by intros p [_ Hp]. }
    assert (H0 : (0 : Qc) ≤ 0) by done.
    pose proof (foldl_merge_curves_close e _ H Hbs 0 _ _ H0 Hpa Hpa
                  (close_maps_refl 0 _ H0)) as H1.
    pose proof (foldl_merge_curves_close e _ H Hbs' 0 _ _ H0 Hpa Hpa
                  (close_maps_refl 0 _ H0)) as H2.
    rewrite <-(foldl_merge_curves_exact_permutation (curves <$> l)
                 (curves <$> l')) in H2 by (by apply fmap_Permutation).
    rewrite !length_fmap in H1, H2. rewrite <-(Permutation_length Hperm) in H2.
    pose proof (close_maps_trans _ _ _ _ _ H1 (close_maps_sym _ _ _ H2)) as H3.
    replace (Qc_of_Z (Z.of_nat (length l)) * (Qc_of_Z 8 * e))
      with (0 + Qc_of_Z (Z.of_nat (length l)) * (Qc_of_Z 4 * e)
            + (0 + Qc_of_Z (Z.of_nat (length l)) * (Qc_of_Z 4 * e))); [done|].
    generalize (Qc_of_Z (Z.of_nat (length l))). intros k.
    apply Qc_is_canon. qc_to_q. lra.
  - intros Ha Hne. destruct l as [|p l]; [done|].
    destruct l' as [|p' l']; [by apply Permutation_nil_r in Hperm|].
    simpl. by rewrite Ha.
Qed.
End BackgroundFacts.


Section ConvertMoreFacts.
Context {F : Type} `{!Float F} {Node Date NPD HDD MSR : Type}.
Context (py_float : string -> option F) (float_str : F -> string).
Context (strptime : string -> string -> option Date).
Context (os_path_dirname : string -> string).
Context (os_path_join : string -> string -> string).
Context (attrib : Node -> gmap string string).
Context (convert_npdist : Node -> PyResult NPD).
Context (convert_hpdist : Node -> PyResult HDD).
Context (ruptAspectRatio upperSeismoDepth lowerSeismoDepth : Node -> PyResult F).
Context (magScaleRel : Node -> PyResult MSR).

Lemma bind_result_Return {A B : Type} (r : PyResult A) (k : A → PyResult B)
    (b : B) :
  bind_result r k = Return b → ∃ a, r = Return a ∧ k a = Return b.
Proof. destruct r as [a| |e]; simpl; [by exists a | done | done]. Qed.

(** X14.  Whenever the conversion of a node returns a control object, the node
    has the attributes [filename], [id], [minMag] and [tectonicRegion],
    the object holds the configured time span and mesh spacing (never a
    time read from the node), and it has a start date exactly when the
    node declares both a start date and an investigation time; in that
    case the declared investigation time is a number equal to the
    configured time span. *)
Theorem convert_success_inversion (self : SourceConverter) (node : Node)
    (ctrl : UCERFControl) :
  convert_UCERFSource py_float float_str strptime os_path_dirname
    os_path_join attrib convert_npdist convert_hpdist ruptAspectRatio
    upperSeismoDepth lowerSeismoDepth magScaleRel self node = Return ctrl →
  c_investigation_time ctrl = tom_time_span self
  ∧ c_mesh_spacing ctrl = rupture_mesh_spacing self
  ∧ (∃ filename, attrib node !! "filename" = Some filename
       ∧ c_source_file ctrl
         = os_path_join (os_path_dirname (fname self)) filename)
  ∧ attrib node !! "id" = Some (c_id ctrl)
  ∧ attrib node !! "tectonicRegion" = Some (c_trt ctrl)
  ∧ (∃ mm, attrib node !! "minMag" = Some mm
       ∧ py_float mm = Some (c_min_mag ctrl))
  ∧ (is_Some (c_start_date ctrl)
     ↔ is_Some (attrib node !! "startDate")
       ∧ is_Some (attrib node !! "investigationTime"))
  ∧ (is_Some (c_start_date ctrl) →
       ∃ s t, attrib node !! "investigationTime" = Some s
         ∧ py_float s = Some t
         ∧ feqb t (tom_time_span self) = true).
Proof.
  unfold convert_UCERFSource, node_getitem, float_of. intros H.
  apply bind_result_Return in H as (filename & Hfile & H).
  apply bind_result_Return in H as (start & Hstart & H).
  apply bind_result_Return in H as (id & Hid & H).
  apply bind_result_Return in H as (mm & Hmm & H).
  apply bind_result_Return in H as (mmf & Hmmf & H).
  apply bind_result_Return in H as (npd & _ & H).
  apply bind_result_Return in H as (hdd & _ & H).
  apply bind_result_Return in H as (asp & _ & H).
  apply bind_result_Return in H as (up & _ & H).
  apply bind_result_Return in H as (low & _ & H).
  apply bind_result_Return in H as (msr & _ & H).
  apply bind_result_Return in H as (trt & Htrt & H).
  inversion H; subst; clear H. simpl.
  destruct (attrib node !! "filename") as [fn|] eqn:Efn; [|done].
  destruct (attrib node !! "id") as [id'|] eqn:Eid; [|done].
  destruct (attrib node !! "minMag") as [mm'|] eqn:Emm; [|done].
  destruct (attrib node !! "tectonicRegion") as [trt'|] eqn:Etrt; [|done].
  destruct (py_float mm) as [mmv|] eqn:Emmv; [|done].
  simplify_eq.
  split; [done|]. split; [done|]. split; [by exists filename|].
  split; [done|]. split; [done|]. split; [by exists mm|].
  case_decide as Hboth.
  - destruct Hboth as [[d Hd] [s Hs]]. rewrite Hs, Hd in Hstart.
    simpl in Hstart.
    destruct (py_float s) as [t|] eqn:Et; [|done]. simpl in Hstart.
    destruct (feqb t (tom_time_span self)) eqn:Eeq; [|done]. simpl in Hstart.
    destruct (strptime d "%d/%m/%Y") as [dt|]; [|done].
    inversion Hstart; subst. split.
    + split; [by intros _ | by intros _; eexists].
    + intros _. by exists s, t.
  - inversion Hstart; subst. split.
    + split; [by intros [? [=]] | by intros ?].
    + by intros [? [=]].
Qed.
End ConvertMoreFacts.

(** * Properties of the writers of [writer.py] *)

Section FileWriterFacts.
Import Writer.
Context {K V P : Type}.

Lemma write_items_app (m : @Methods K V P) (l1 l2 : list (K * V))
    (self : FileWriter) :
  write_items m (l1 ++ l2) self
  = match write_items m l1 self with
    | (None, self1) => write_items m l2 self1
    | (Some e, self1) => (Some e, self1)
    end.
Proof.
  revert self. induction l1 as [|[k v] l1 IH]; intros self; simpl; [done|].
  destruct (write m k v self) as [[e|] self1]; [done | apply IH].
Qed.

Lemma write_items_closed (m : @Methods K V P) (items : list (K * V))
    (self : FileWriter) :
  (∀ k v s, file_closed (write m k v s).2 = file_closed s) →
  file_closed (write_items m items self).2 = file_closed self.
Proof.
  intros Hw. revert self.
  induction items as [|[k v] rest IH]; intros self; simpl; [done|].
  specialize (Hw k v self).
  destruct (write m k v self) as [[e|] self1]; simpl in *; [done|].
  by rewrite IH.
Qed.

(** X15.  [serialize], of a file writer and of an XML file writer whose methods
    leave the file handle alone, on a writer whose file is open: the file
    is closed at the end exactly when nothing was raised.  When the write
    of an item raises, be it the first thing written or after the header
    of the XML file, the exception is raised by [serialize], which leaves
    the writer as the failed write left it: the items after it are not
    written, the footer is not written, and the file stays open.  When
    the header raises, no item is written. *)
Theorem serialize_closes_iff_success (m : @Methods K V P)
    (items : list (K * V)) (self : FileWriter) :
  (∀ k v s, file_closed (write m k v s).2 = file_closed s) →
  (∀ s, file_closed (write_header m s).2 = file_closed s) →
  (∀ s, file_closed (write_footer m s).2 = file_closed s) →
  file_closed self = false →
  (file_closed (FileWriter_serialize m items self).2 = true
   ↔ (FileWriter_serialize m items self).1 = None)
  ∧ (file_closed (XMLFileWriter_serialize m items self).2 = true
     ↔ (XMLFileWriter_serialize m items self).1 = None)
  ∧ (∀ l1 l2 e self1,
       items = l1 ++ l2 → write_items m l1 self = (Some e, self1) →
       FileWriter_serialize m items self = (Some e, self1)
       ∧ file_closed self1 = false)
  ∧ (∀ l1 l2 e self0 self1,
       items = l1 ++ l2 → write_header m self = (None, self0) →
       write_items m l1 self0 = (Some e, self1) →
       XMLFileWriter_serialize m items self = (Some e, self1)
       ∧ file_closed self1 = false)
  ∧ (∀ e self0,
       write_header m self = (Some e, self0) →
       XMLFileWriter_serialize m items self = (Some e, self0)
       ∧ file_closed self0 = false).
Proof.
  intros Hw Hh Hf Hopen. split; [|split; [|split; [|split]]].
  - unfold FileWriter_serialize.
    pose proof (write_items_closed m items self Hw) as Hc.
    destruct (write_items m items self) as [[e|] self1]; simpl in *.
    + rewrite Hc, Hopen. by split.
    + by split.
  - unfold XMLFileWriter_serialize.
    pose proof (Hh self) as Hc0.
    destruct (write_header m self) as [[e|] self0]; simpl in *.
    { rewrite Hc0, Hopen. by split. }
    pose proof (write_items_closed m items self0 Hw) as Hc1.
    destruct (write_items m items self0) as [[e|] self1]; simpl in *.
    { rewrite Hc1, Hc0, Hopen. by split. }
    pose proof (Hf self1) as Hc2.
    destruct (write_footer m self1) as [[e|] self2]; simpl in *.
    { rewrite Hc2, Hc1, Hc0, Hopen. by split. }
    by split.
  - intros l1 l2 e self1 -> Hfail. split.
    + unfold FileWriter_serialize. by rewrite write_items_app, Hfail.
    + pose proof (write_items_closed m l1 self Hw) as Hc.
      rewrite Hfail in Hc. simpl in Hc. congruence.
  - intros l1 l2 e self0 self1 -> Hhead Hfail. split.
    + unfold XMLFileWriter_serialize.
      by rewrite Hhead, write_items_app, Hfail.
    + pose proof (Hh self) as Hc0. rewrite Hhead in Hc0. simpl in Hc0.
      pose proof (write_items_closed m l1 self0 Hw) as Hc.
      rewrite Hfail in Hc. simpl in Hc. congruence.
  - intros e self0 Hhead. split.
    + unfold XMLFileWriter_serialize. by rewrite Hhead.
    + pose proof (Hh self) as Hc0. rewrite Hhead in Hc0. simpl in Hc0.
      congruence.
Qed.

(** The base classes: [FileWriter.serialize] closes the file when there
    is nothing to write and raises [NotImplementedError] on the first item
    otherwise; [XMLFileWriter.serialize] raises it at the header whatever
    the items are.  In both failures the file is left as it was. *)
Theorem base_writers_not_implemented (items : list (K * V))
    (self : @FileWriter P) :
  (items = [] → FileWriter_serialize base_methods items self = (None, close self))
  ∧ (items ≠ [] →
     FileWriter_serialize base_methods items self
     = (Some NotImplementedError, self))
  ∧ XMLFileWriter_serialize base_methods items self
    = (Some NotImplementedError, self).
Proof.
  split; [by intros ->|]. split; [|done].
  destruct items as [|[k v] rest]; [done|]. done.
Qed.
End FileWriterFacts.

Section DBWriterFacts.
Import Writer.
Context {K V D : Type}.
Context (basename : string -> string).
Context (get_output_type : @DBWriter D -> string).
Context (insert_datum : K -> V -> option Output -> D -> option Exn * D).

Lemma insert_output_result (ot : string) (self : @DBWriter D) :
  let r := insert_output basename ot self in
  (r.1 = None → ∃ o, output r.2 = Some o
                     ∧ outputs (session r.2) = outputs (session self) ++ [o])
  ∧ (∀ e, r.1 = Some e → r.2 = self).
Proof.
  unfold insert_output. destruct (output self) as [o|]; simpl.
  { split; [done|]. by intros e _. }
  destruct (query_one (session self) (oq_job_id self)) as [e|job]; simpl.
  { split; [done|]. by intros e' _. }
  split; [|done]. intros _. by eexists.
Qed.

(** X16.  [DBWriter.serialize] never gives a writer a second output record.  A
    writer that has its output keeps it and adds none; a writer without
    one looks the job up, and when exactly one job has the identifier it
    adds one record, owned by the owner of the job and named after the
    base name of the file; when the look-up fails nothing is added,
    inserted or committed.  A serialization that raises nothing commits
    once and leaves the writer with an output, so that serializing again
    adds no record. *)
Theorem db_writer_single_output (items items' : list (K * V))
    (self : @DBWriter D) :
  let run := DBWriter_serialize basename get_output_type insert_datum in
  (∀ o, output self = Some o →
     output (run items self).2 = Some o
     ∧ outputs (session (run items self).2) = outputs (session self))
  ∧ (∀ job, output self = None →
       query_one (session self) (oq_job_id self) = inr job →
       let o := mkOutput (job_owner job) job (basename (nrml_path self))
                  (get_output_type self) true in
       output (run items self).2 = Some o
       ∧ outputs (session (run items self).2) = outputs (session self) ++ [o])
  ∧ (∀ e, output self = None →
       query_one (session self) (oq_job_id self) = inl e →
       run items self = (Some e, self))
  ∧ ((run items self).1 = None →
       commits (session (run items self).2) = S (commits (session self))
       ∧ is_Some (output (run items self).2)
       ∧ outputs (session (run items' (run items self).2).2)
         = outputs (session (run items self).2))
  ∧ (∀ e, (run items self).1 = Some e →
       commits (session (run items self).2) = commits (session self)).
Proof.
  intros run.
  assert (Hkeep : ∀ (l : list (K * V)) (s : @DBWriter D) o,
            output s = Some o →
            output (run l s).2 = Some o
            ∧ outputs (session (run l s).2) = outputs (session s)).
  { intros l s o Ho. subst run. unfold DBWriter_serialize. rewrite Ho. simpl.
    rewrite Ho.
    destruct (insert_items insert_datum (Some o) l (data (session s)))
      as [[e|] d]; by simpl. }
  split; [by apply Hkeep|]. split; [|split; [|split]].
  - intros job Hnone Hjob o. subst run o.
    unfold DBWriter_serialize, insert_output. rewrite Hnone, Hjob. simpl.
    destruct (insert_items _ _ _ _) as [[e|] d]; by simpl.
  - intros e Hnone Hjob. subst run.
    unfold DBWriter_serialize, insert_output. by rewrite Hnone, Hjob.
  - intros Hok.
    assert (Hfirst : commits (session (run items self).2)
                     = S (commits (session self))
                     ∧ is_Some (output (run items self).2)).
    { subst run. unfold DBWriter_serialize in *.
      destruct (output self) as [o|] eqn:Ho.
      - destruct (insert_items _ _ _ _) as [[e|] d]; simpl in *; [done|].
        rewrite Ho. split; [done | by eexists].
      - unfold insert_output in *. rewrite Ho in *.
        destruct (query_one (session self) (oq_job_id self)) as [e|job];
          simpl in *; [done|].
        destruct (insert_items _ _ _ _) as [[e|] d]; simpl in *; [done|].
        split; [done | by eexists]. }
    destruct Hfirst as [Hc [o Ho]]. split; [done|]. split; [by exists o|].
    by apply (Hkeep items' _ o).
  - intros e Herr. subst run. unfold DBWriter_serialize in *.
    destruct (output self) as [o|] eqn:Ho.
    + destruct (insert_items _ _ _ _) as [[e'|] d]; by simpl in *.
    + unfold insert_output in *. rewrite Ho in *.
      destruct (query_one (session self) (oq_job_id self)) as [e'|job];
        [done|].
      simpl in *. destruct (insert_items _ _ _ _) as [[e'|] d]; by simpl in *.
Qed.

(** [insert_output] on a writer that has its output already raises
    [AssertionError] and changes nothing. *)
Lemma insert_output_twice (ot : string) (self : @DBWriter D) (o : Output) :
  output self = Some o →
  insert_output basename ot self = (Some AssertionError, self).
Proof. intros Ho. unfold insert_output. by rewrite Ho. Qed.
End DBWriterFacts.

(** * Properties of [logs.py] *)

Section LevelFacts.
Import Logs.

(** X17.  [set_logger_level] gives one of the five levels of the table: the
    level of the name when the name is in the table, and the level of
    warnings for every other name. *)
Theorem level_of_fallback (level : string) :
  level_of level ∈ [DEBUG; INFO; WARNING; ERROR; CRITICAL]
  ∧ (level ∉ ["debug"; "info"; "warn"; "error"; "critical"] →
     level_of level = WARNING)
  ∧ level_of "debug" = DEBUG ∧ level_of "info" = INFO
  ∧ level_of "warn" = WARNING ∧ level_of "error" = ERROR
  ∧ level_of "critical" = CRITICAL.
Proof.
  assert (Hcases : level ∈ ["debug"; "info"; "warn"; "error"; "critical"]
                   ∨ level_of level = WARNING).
  { unfold level_of, LEVELS. simpl.
    destruct (decide (level = "debug")) as [->|H1]; [left; set_solver|].
    destruct (decide (level = "info")) as [->|H2]; [left; set_solver|].
    destruct (decide (level = "warn")) as [->|H3]; [left; set_solver|].
    destruct (decide (level = "error")) as [->|H4]; [left; set_solver|].
    destruct (decide (level = "critical")) as [->|H5]; [left; set_solver|].
    right. by rewrite !lookup_insert_ne, lookup_empty by done. }
  split; [|split].
  - destruct Hcases as [Hin | ->]; [|set_solver].
    repeat (apply elem_of_cons in Hin as [-> | Hin];
            [vm_compute; set_solver|]).
    by apply elem_of_nil in Hin.
  - intros Hout. by destruct Hcases.
  - by vm_compute.
Qed.
End LevelFacts.

Section HandlerFacts.
Import Logs.
Context {Producer Other Job : Type}.
Context (new_producer : Exception + Producer).

Local Abbreviation amqp_handlers :=
  (filter (fun h : @Handler Producer Other => is_amqp h = true)).
Local Abbreviation other_handlers :=
  (filter (fun h : @Handler Producer Other => is_amqp h = false)).

(** X18.  [init_logs_amqp_send] keeps the root logger at one AMQP handler.
    With one such handler in place, a call only records the job: the
    handlers, the level of the root logger (whatever level is asked for)
    and the propagation of [amqplib] stay as they are.  With none, and a
    connection that succeeds, the call sets the level asked for, stops the
    propagation, records the job and adds one handler after the others.
    With more than one, the call raises [ValueError] and changes
    nothing. *)
Theorem init_logs_single_handler (level : string) (job : Job)
    (st : @Logging Producer Other Job) :
  let r := init_logs_amqp_send new_producer level job st in
  (length (amqp_handlers (root_handlers st)) = 1 →
     r.1 = None
     ∧ root_handlers r.2 = root_handlers st
     ∧ root_level r.2 = root_level st
     ∧ amqplib_propagate r.2 = amqplib_propagate st
     ∧ mdc_job_id r.2 = Some job)
  ∧ (∀ producer, length (amqp_handlers (root_handlers st)) = 0 →
       new_producer = inr producer →
       r.1 = None
       ∧ root_handlers r.2 = root_handlers st ++ [AMQPHandler producer]
       ∧ length (amqp_handlers (root_handlers r.2)) = 1
       ∧ other_handlers (root_handlers r.2) = other_handlers (root_handlers st)
       ∧ root_level r.2 = level_of level
       ∧ amqplib_propagate r.2 = false
       ∧ mdc_job_id r.2 = Some job)
  ∧ (2 ≤ length (amqp_handlers (root_handlers st)) →
       ∃ msg, r = (Some (ValueError msg), st)).
Proof.
  intros r. subst r. unfold init_logs_amqp_send.
  destruct (amqp_handlers (root_handlers st)) as [|h [|h' rest]] eqn:Hf; simpl.
  - split; [done|]. split; [|lia].
    intros producer _ ->. simpl. rewrite !filter_app, Hf. by rewrite app_nil_r.
  - split; [done|]. split; [done | lia].
  - split; [done|]. split; [done|]. intros _. by eexists.
Qed.

(** X19.  Two calls in a row, from a root logger without AMQP handler and with
    a connection that succeeds: there is one AMQP handler afterwards, the
    job recorded is the one of the second call, and the level is the one
    the first call asked for. *)
Theorem init_logs_twice (level1 level2 : string) (job1 job2 : Job)
    (st : @Logging Producer Other Job) (producer : Producer) :
  length (amqp_handlers (root_handlers st)) = 0 →
  new_producer = inr producer →
  let st1 := (init_logs_amqp_send new_producer level1 job1 st).2 in
  let r := init_logs_amqp_send new_producer level2 job2 st1 in
  r.1 = None
  ∧ root_handlers r.2 = root_handlers st ++ [AMQPHandler producer]
  ∧ root_level r.2 = level_of level1
  ∧ mdc_job_id r.2 = Some job2.
Proof.
  intros Hnone Hconn st1 r. subst r st1. unfold init_logs_amqp_send.
  destruct (amqp_handlers (root_handlers st)) as [|h rest] eqn:Hf; [|done].
  rewrite Hconn. simpl. rewrite filter_app, Hf. by simpl.
Qed.
End HandlerFacts.

Section RecordFacts.
Import Logs.
Context {Arg Exc Job : Type}.
Context (format : string -> list Arg -> string).
Context (str_job_id : option Job -> string).
Context (getfqdn : string).
Context (is_enabled_for : string -> nat -> bool).

(** X20.  A record without exception information that is emitted and whose
    message is delivered as it was sent: the routing key is [oq.job.],
    the job, a dot and the name of the logger; the record rebuilt on the
    other side has the name and the level of the original, no arguments,
    and its message is the formatted message of the original, so that
    formatting is not applied a second time; it is handled exactly when
    its logger is enabled for its level.  A record with exception
    information raises [AssertionError] and nothing is published. *)
Theorem log_record_round_trip (mdc : option Job)
    (record : @LogRecord Arg Exc Job) (sent : list (LogRecord * string))
    (handled : list LogRecord) :
  (exc_info record = None →
     ∃ data,
       emit format str_job_id getfqdn mdc record sent
       = (None, sent ++ [(data, ("oq.job." ++ str_job_id mdc ++ "."
                                   ++ name record)%string)])
       ∧ name data = name record
       ∧ levelno data = levelno record
       ∧ args data = []
       ∧ job_id data = Some mdc
       ∧ getMessage format data = getMessage format record
       ∧ message_callback is_enabled_for data handled
         = if is_enabled_for (name record) (levelno record)
           then handled ++ [data] else handled)
  ∧ (is_Some (exc_info record) →
     ∃ msg, emit format str_job_id getfqdn mdc record sent
            = (Some (AssertionError msg), sent)).
Proof.
  unfold emit. split.
  - intros ->. by eexists.
  - intros [e ->]. by eexists.
Qed.
End RecordFacts.

(** * The harness at work on the further properties *)

(** A mesh spacing of 1 and no aspect ratio make a source; a mesh spacing
    of 0 does not. *)
Lemma parametric_source_init_positive_witness :
  (∃ src, ParametricSeismicSource_init (MFD := unit) (MSR := unit)
            "1" "fault" "Active Shallow Crust" tt (Some (Lit 1%Qc)) tt None
            unit_tom = Return src)
  ∧ ParametricSeismicSource_init (MFD := unit) (MSR := unit)
      "1" "fault" "Active Shallow Crust" tt (Some (Lit 0%Qc)) tt None unit_tom
    = Raise (ValueError "rupture mesh spacing must be positive").
Proof.
  split.
  - apply (proj1 (parametric_source_init_positive (MFD := unit) (MSR := unit)
                    "1" "fault" "Active Shallow Crust" tt (Some (Lit 1%Qc)) tt
                    None unit_tom)).
    split; [by intros s [= <-] | by intros a [=]].
  - exact (proj1 (proj2 (proj2 (parametric_source_init_positive
                    (MFD := unit) (MSR := unit)
                    "1" "fault" "Active Shallow Crust" tt (Some (Lit 0%Qc)) tt
                    None unit_tom))) (Lit 0%Qc) eq_refl eq_refl).
Defined.

(** Of the two magnitudes of the part, the one with rate zero is left
    out. *)
Lemma annual_occurrence_rates_filtered_witness :
  get_annual_occurrence_rates harness_part
  = [(Lit (Qc_of_Z 5), Mul (Lit half) (Lit (Qc_of_Z 1)))]
  ∧ (get_annual_occurrence_rates harness_part).*1
    `sublist_of` (ps_mfd_rates harness_part).*1.
Proof.
  split; [reflexivity|].
  exact (proj2 (annual_occurrence_rates_filtered harness_part)).
Defined.

(** The area source of the harness yields a rupture of magnitude 5 at
    depth 5. *)
Lemma multi_geometry_ruptures_witness :
  let tom := unit_tom in
  let a := mkRupArgs (Mul (Lit half) (Lit (Qc_of_Z 1))) (Lit 1%Qc) (Lit half)
             (Lit (Qc_of_Z 5)) harness_plane (Lit (Qc_of_Z 5)) harness_part in
  let rup := build_rupture tom a in
  let p := poisson_proba 1 (eff_rate tom 3 (args_rate a)) in
  temporal_occurrence_model area_source = Some tom
  ∧ (rup, 1, p) ∈ (_sample_ruptures harness_sample harness_proba area_source 3
                     (mkScript [] 1)).1
  ∧ fltb (mag rup) (min_mag area_source) = false
  ∧ rup_id rup = None.
Proof.
  intros tom a rup p.
  assert (Hin : (rup, 1, p)
                ∈ (_sample_ruptures harness_sample harness_proba area_source 3
                     (mkScript [] 1)).1)
    by (vm_compute; constructor).
  destruct (multi_geometry_ruptures harness_sample harness_proba area_source
              tom [(Lit 1%Qc, harness_plane)] 3 (mkScript [] 1) rup 1 p
              eq_refl eq_refl Hin) as (_ & _ & Hid & Hcut & _).
  split; [reflexivity|]. split; [exact Hin|]. split; [exact Hcut | exact Hid].
Defined.

(** One magnitude, one nodal plane and two depths make two
    combinations. *)
Lemma rup_args_count_witness :
  length (rup_args_of (Lit 0%Qc) harness_part) = 2.
Proof.
  rewrite (rup_args_count (Lit 0%Qc) harness_part). reflexivity.
Defined.

(** With the draws 1/4 and 3/4 against the weight 1/2, one of the two
    occurrences is left. *)
Lemma mutex_never_adds_witness :
  let g := mkScript [Q2Qc (1 # 4); Q2Qc (3 # 4)] 0 in
  let rup := harness_rupture 0%Qc in
  sum_list (vec_to_list (harness_sample rup 2 g).1) = 2
  ∧ sum_list (vec_to_list
                (sample_occurs harness_sample (Some (Lit half)) rup 2 g).1) = 1
  ∧ sum_list (vec_to_list
                (sample_occurs harness_sample (Some (Lit half)) rup 2 g).1)
    ≤ sum_list (vec_to_list (harness_sample rup 2 g).1).
Proof.
  intros g rup. split; [reflexivity|]. split; [reflexivity|].
  exact (proj1 (proj2 (mutex_never_adds harness_sample (Some (Lit half)) rup
                         2 g))).
Defined.

(** The entries of the fault source have positive counts and the group 0
    of the source. *)
Lemma sample_ruptures_entries_witness :
  let out := (sample_ruptures harness_sample harness_proba fault_source 3
                (mkScript [] 0)).1 in
  out.*1.*2 = [1; 2]
  ∧ ∀ rup grp k p, (rup, grp, k, p) ∈ out → 0 < k ∧ grp ∈ [0%Z].
Proof.
  intros out. split; [reflexivity|].
  intros rup grp k p Hin.
  destruct (proj1 (sample_ruptures_entries harness_sample harness_proba
                     fault_source 3 (mkScript [] 0)) rup grp k p Hin)
    as (Hk & Hgrp & _).
  split; [exact Hk | exact Hgrp].
Defined.

(** The source that counts three ruptures and has one: the index drawn is
    2, and the call returns [None]. *)
Lemma get_one_rupture_edges_witness :
  count_ruptures overcounting_source = 3
  ∧ length (iter_ruptures overcounting_source) = 1
  ∧ fin_to_nat (np_choice 2 (np_seed 2%Z : Script)).1 = 2
  ∧ (get_one_rupture overcounting_source false (mkScript [] 0)).1 = ReturnNone.
Proof.
  split; [reflexivity|]. split; [reflexivity|]. split; [reflexivity|].
  assert (Hout : length (iter_ruptures overcounting_source)
                 ≤ fin_to_nat (np_choice 2 (np_seed 2%Z : Script)).1)
    by (simpl; lia).
  rewrite (proj2 (get_one_rupture_edges overcounting_source (mkScript [] 0))
             2 eq_refl Hout).
  reflexivity.
Defined.

(** A GMPE for PGA is accepted under the key [PGA] and refused under the
    key [PGV]. *)
Lemma multi_gmpe_init_validates_witness :
  (∃ m, (MultiGMPE_init harness_imt_class [("PGA", gmpe_a)]
           MultiGMPE_class_body).1 = Return m)
  ∧ ∃ msg, (MultiGMPE_init harness_imt_class [("PGV", gmpe_a)]
              MultiGMPE_class_body).1 = Raise (ValueError msg).
Proof.
  split.
  - apply (proj1 (multi_gmpe_init_validates harness_imt_class
                    [("PGA", gmpe_a)] MultiGMPE_class_body)).
    constructor; [|constructor]. exists "PGA". split; [reflexivity|].
    simpl. set_solver.
  - apply (proj2 (proj2 (multi_gmpe_init_validates harness_imt_class
                           [("PGV", gmpe_a)] MultiGMPE_class_body))).
    intros Hall. inversion Hall as [|? ? (c & Hc & Hin) _]; subst.
    simpl in Hc. inversion Hc; subst. simpl in Hin. set_solver.
Defined.

(** After the composite of the two GMPEs of the harness is built, the
    required distances are those of both. *)
Lemma multi_gmpe_init_unions_witness :
  let built := MultiGMPE_init harness_imt_class (gsim_by_imt harness_multi)
                 MultiGMPE_class_body in
  built.1 = Return harness_multi
  ∧ REQUIRES_DISTANCES built.2
    = REQUIRES_DISTANCES MultiGMPE_class_body
      ∪ ⋃ ((fun g => REQUIRES_DISTANCES (gmpe_caps g)) <$> [gmpe_a; gmpe_b]).
Proof.
  intros built.
  assert (Hbuilt : built.1 = Return harness_multi).
  { unfold built, MultiGMPE_init. simpl.
    rewrite decide_True by (simpl; set_solver).
    rewrite decide_True by (simpl; set_solver). reflexivity. }
  split; [exact Hbuilt|].
  exact (proj2 (proj2 (proj2 (proj2
           (multi_gmpe_init_unions harness_imt_class
              (gsim_by_imt harness_multi) MultiGMPE_class_body harness_multi
              Hbuilt))))).
Defined.

(** The composite of the harness maps [PGA] to its first GMPE and knows
    no [SA(0.1)]. *)
Lemma multi_gmpe_mapping_witness :
  NoDup (MultiGMPE_iter harness_multi)
  ∧ MultiGMPE_len harness_multi = 2
  ∧ MultiGMPE_getitem harness_multi "PGA" = Return gmpe_a
  ∧ MultiGMPE_getitem harness_multi "SA(0.1)" = Raise (KeyError "SA(0.1)").
Proof.
  assert (Hnodup : NoDup (MultiGMPE_iter harness_multi)).
  { unfold MultiGMPE_iter. simpl. apply NoDup_cons. split.
    - intros Hin. apply list_elem_of_singleton in Hin. discriminate.
    - apply NoDup_singleton. }
  destruct (multi_gmpe_mapping (IMT := string) (Ctx := unit) (Res := unit)
              (fun imt => imt) (fun _ _ _ _ => Return tt) harness_multi Hnodup)
    as (Hlen & Hget & Hmiss & _).
  split; [exact Hnodup|]. split; [exact Hlen|]. split.
  - apply Hget. apply list_elem_of_here.
  - apply Hmiss. unfold MultiGMPE_iter. simpl. intros Hin.
    apply elem_of_cons in Hin as [Heq | Hin]; [discriminate|].
    apply list_elem_of_singleton in Hin. discriminate.
Defined.

(** The map returned for three rupture indices and two sites holds the
    probabilities of the evaluation and one timing entry of one second. *)
Lemma hazard_curves_per_rupture_subset_result_witness :
  let res := _hazard_curves_per_rupture_subset (Gsim := unit)
               (rounding := harness_rounding) harness_poe_map
               [3; 4; 5] harness_ucerf_source [0; 1]
               [("PGA", [half; 1%Qc])] (mkContextMaker [tt] (Qc_of_Z 200))
               None harness_world in
  ProbabilityMap.curves res.1.1 = {[ 0 := [[half]; [0%Qc]] ]}
  ∧ ProbabilityMap.calc_times res.1.1
    = Some [("ucerf", 2, @rnd harness_rounding (1 - 0)%Qc)]
  ∧ num_ruptures res.1.2 = 3.
Proof.
  intros res.
  destruct (hazard_curves_per_rupture_subset_result (Gsim := unit)
              (rounding := harness_rounding) harness_poe_map [3; 4; 5] harness_ucerf_source [0; 1]
              [("PGA", [half; 1%Qc])] (mkContextMaker [tt] (Qc_of_Z 200))
              None harness_world) as (Hsrc & Hcurves & _ & _ & _ & Htimes & _).
  split; [exact Hcurves|]. split; [exact Htimes|].
  fold res in Hsrc. rewrite Hsrc. reflexivity.
Defined.

(** A branch with one background source whose map reports five effective
    ruptures for group 7: with the three rupture indices of the source,
    group 7 has eight. *)
Lemma hazard_by_branch_composes_witness :
  let branch :=
    ucerf_classical_hazard_by_branch (Gsim := unit) (BgData := unit)
      (rounding := harness_rounding) "Active Shallow Crust" (fun _ idx sites _ => (idx, sites))
      harness_poe_map (fun _ => [3; 4; 5]) (fun _ _ => [0])
      (fun _ _ => [mkBgSource 0%Z tt])
      (fun _ _ _ _ _ w => ((pmap_b, {[ 7%Z := 5 ]}), w))
      harness_ucerf_source harness_filter [tt] harness_monitor harness_world in
  ∃ pm effs, branch.1.1 = Return pm
    ∧ ProbabilityMap.eff_ruptures pm = Some effs
    ∧ effs !! 7%Z = Some 8.
Proof.
  intros branch.
  destruct (proj2 (proj2 (hazard_by_branch_composes (Gsim := unit)
              (BgData := unit) (rounding := harness_rounding)
              "Active Shallow Crust" (fun _ idx sites _ => (idx, sites))
              harness_poe_map (fun _ => [3; 4; 5]) (fun _ _ => [0])
              (fun _ _ => [mkBgSource 0%Z tt])
              (fun _ _ _ _ _ w => ((pmap_b, {[ 7%Z := 5 ]}), w))
              harness_ucerf_source harness_filter [tt] harness_monitor
              harness_world)) _ eq_refl ltac:(discriminate))
    as (pm & n0 & effs & Hrun & _ & _ & Hn0 & Heff & Hsum & _).
  exists pm, effs. fold branch in Hrun. rewrite Hrun.
  split; [reflexivity|]. split; [exact Heff|].
  assert (n0 = 3) as ->.
  { apply (f_equal (fun o => o ≫= (.!! 7%Z))) in Hn0.
    vm_compute in Hn0. by inversion Hn0. }
  etrans; [exact Hsum|]. reflexivity.
Defined.

(** The maps that hold 1/10 and 3/10 for site 0, folded in either order
    into the map that holds 1/10, in arithmetic that rounds to multiples
    of 1/1024: the two results are within 2 * 8 / 2048 of each other. *)
Lemma compose_background_order_witness :
  let e := Q2Qc (1 # 2048) in
  let merge := ProbabilityMap.ior (rounding := harness_rounding) in
  let fold := compose_background (rounding := harness_rounding) in
  rounds_within (rounding := harness_rounding) e
  ∧ [pmap_tenth'; pmap_three_tenths] ≡ₚ [pmap_three_tenths; pmap_tenth']
  ∧ fold {[ 0%Z := pmap_tenth ]} [pmap_tenth'; pmap_three_tenths]
    = Return {[ 0%Z := merge (merge pmap_tenth pmap_tenth') pmap_three_tenths ]}
  ∧ fold {[ 0%Z := pmap_tenth ]} [pmap_three_tenths; pmap_tenth']
    = Return {[ 0%Z := merge (merge pmap_tenth pmap_three_tenths) pmap_tenth' ]}
  ∧ ProbabilityMap.within (Qc_of_Z 2 * (Qc_of_Z 8 * e))%Qc
      (merge (merge pmap_tenth pmap_tenth') pmap_three_tenths)
      (merge (merge pmap_tenth pmap_three_tenths) pmap_tenth').
Proof.
  intros e merge fold.
  assert (He : rounds_within (rounding := harness_rounding) e)
    by exact (grid_rounds_within 1024).
  assert (Hperm : [pmap_tenth'; pmap_three_tenths]
                  ≡ₚ [pmap_three_tenths; pmap_tenth']) by apply perm_swap.
  assert (Ht : (0 ≤ Q2Qc (1 # 10) ≤ 1)%Qc) by (split; by vm_compute).
  assert (Ht3 : (0 ≤ Q2Qc (3 # 10) ≤ 1)%Qc) by (split; by vm_compute).
  assert (Hacc : ∀ a, ({[ 0%Z := pmap_tenth ]} : gmap Z ProbabilityMap.t) !! 0%Z
                      = Some a →
                      ProbabilityMap.has_shape 1 1 a
                      ∧ ProbabilityMap.probabilities a).
  { intros a Ha. apply lookup_singleton_Some in Ha as [_ <-].
    split; [apply (has_shape_singleton 0) | by apply (probabilities_singleton 0)]. }
  assert (Hl : Forall (fun p => ProbabilityMap.has_shape 1 1 p
                               ∧ ProbabilityMap.probabilities p)
                 [pmap_tenth'; pmap_three_tenths]).
  { constructor; [exact pmap_tenth'_ok|]. constructor; [|constructor].
    split; [apply (has_shape_singleton 0) | by apply (probabilities_singleton 0)]. }
  destruct (proj1 (compose_background_order (rounding := harness_rounding)
                     e 1 1 {[ 0%Z := pmap_tenth ]} _ _ He Hacc Hl Hperm)
              pmap_tenth (lookup_singleton_eq _ _))
    as (Hrun & Hrun' & Hclose & _).
  split; [exact He|]. split; [exact Hperm|].
  rewrite insert_singleton_eq in Hrun, Hrun'.
  split; [exact Hrun|]. split; [exact Hrun'|]. exact Hclose.
Defined.

(** The node with a start date and an investigation time of one year,
    converted for a time span of one year. *)
Lemma convert_success_inversion_witness :
  ∃ ctrl, harness_convert harness_converter node_with_start_date = Return ctrl
    ∧ c_investigation_time ctrl = Lit 1%Qc
    ∧ is_Some (c_start_date ctrl).
Proof.
  assert (Hrun : ∃ ctrl, harness_convert harness_converter node_with_start_date
                         = Return ctrl)
    by (eexists; vm_compute; reflexivity).
  destruct Hrun as [ctrl Hrun]. exists ctrl. split; [exact Hrun|].
  destruct (convert_success_inversion harness_float (fun _ => "float")
              (fun d _ => Some d) (fun f => f)
              (fun d f => (d ++ "/" ++ f)%string) (fun n => n)
              (fun _ => Return tt) (fun _ => Return tt)
              (fun _ => Return (Lit 1%Qc)) (fun _ => Return (Lit 0%Qc))
              (fun _ => Return (Lit 0%Qc)) (fun _ => Return tt)
              harness_converter node_with_start_date ctrl Hrun)
    as (Htime & _ & _ & _ & _ & _ & Hdate & _).
  split; [exact Htime|].
  apply Hdate. split; eexists; reflexivity.
Defined.

Lemma harness_xml_methods_keep_handle :
  (∀ k v s, Writer.file_closed (Writer.write harness_xml_methods k v s).2
            = Writer.file_closed s)
  ∧ (∀ s, Writer.file_closed (Writer.write_header harness_xml_methods s).2
          = Writer.file_closed s)
  ∧ (∀ s, Writer.file_closed (Writer.write_footer harness_xml_methods s).2
          = Writer.file_closed s).
Proof.
  split; [|split]; [|done..].
  intros k v s. simpl. by destruct (decide (k = 0)).
Qed.

(** Two good items between the header and the footer are written and the
    file is closed; with a bad item in the middle the header and the first
    item are written, the last item and the footer are not, and the file
    stays open. *)
Lemma serialize_closes_iff_success_witness :
  Writer.XMLFileWriter_serialize harness_xml_methods [(1, 10); (2, 20)]
    harness_file
  = (None, Writer.mkFileWriter "out.xml" true
             [(100, 0); (1, 10); (2, 20); (100, 1)])
  ∧ Writer.XMLFileWriter_serialize harness_xml_methods
      [(1, 10); (0, 5); (2, 20)] harness_file
    = (Some (Writer.Other "bad key"),
       Writer.mkFileWriter "out.xml" false [(100, 0); (1, 10)])
  ∧ (Writer.file_closed
       (Writer.XMLFileWriter_serialize harness_xml_methods
          [(1, 10); (0, 5); (2, 20)] harness_file).2 = true
     ↔ (Writer.XMLFileWriter_serialize harness_xml_methods
          [(1, 10); (0, 5); (2, 20)] harness_file).1 = None).
Proof.
  destruct harness_xml_methods_keep_handle as (Hw & Hh & Hf).
  destruct (serialize_closes_iff_success harness_xml_methods
              [(1, 10); (0, 5); (2, 20)] harness_file Hw Hh Hf eq_refl)
    as (_ & Hiff & _ & Hxml & _).
  split; [reflexivity|]. split; [|exact Hiff].
  exact (proj1 (Hxml [(1, 10); (0, 5)] [(2, 20)] _ _ _
                  eq_refl eq_refl eq_refl)).
Defined.

(** The writer of the harness, serialized twice: one output record, owned
    by the owner of job 1, and two commits. *)
Lemma db_writer_single_output_witness :
  let run := Writer.DBWriter_serialize (fun p => "curves.xml")
               (fun _ => "hazard_curve") harness_insert_datum in
  let once := run [(1, 10)] harness_db_writer in
  let twice := run [(2, 20)] once.2 in
  once.1 = None
  ∧ Writer.outputs (Writer.session twice.2)
    = [Writer.mkOutput "alice" (Writer.mkOqJob 1 "alice") "curves.xml"
         "hazard_curve" true]
  ∧ Writer.commits (Writer.session twice.2) = 2
  ∧ Writer.outputs (Writer.session twice.2)
    = Writer.outputs (Writer.session once.2).
Proof.
  intros run once twice.
  assert (Hok : once.1 = None) by reflexivity.
  destruct (proj1 (proj2 (proj2 (proj2
              (db_writer_single_output (fun p => "curves.xml")
                 (fun _ => "hazard_curve") harness_insert_datum
                 [(1, 10)] [(2, 20)] harness_db_writer)))) Hok)
    as (_ & _ & Hsame).
  split; [exact Hok|]. split; [reflexivity|]. split; [reflexivity|].
  exact Hsame.
Defined.

Lemma level_of_fallback_witness :
  Logs.level_of "verbose" = Logs.WARNING.
Proof.
  apply (proj1 (proj2 (level_of_fallback "verbose"))).
  intros Hin.
  repeat (apply elem_of_cons in Hin as [Heq | Hin]; [discriminate|]).
  by apply elem_of_nil in Hin.
Defined.

(** A first call on the root logger of the harness, which has a console
    handler only, adds the AMQP handler and sets the level for
    debugging. *)
Lemma init_logs_single_handler_witness :
  let r := Logs.init_logs_amqp_send (inr 7) "debug" 1%Z harness_logging in
  r.1 = None
  ∧ Logs.root_handlers r.2 = [Logs.OtherHandler "console"; Logs.AMQPHandler 7]
  ∧ Logs.root_level r.2 = Logs.DEBUG
  ∧ Logs.mdc_job_id r.2 = Some 1%Z.
Proof.
  intros r.
  destruct (proj1 (proj2 (init_logs_single_handler (inr 7) "debug" 1%Z
                            harness_logging)) 7 eq_refl eq_refl)
    as (Hok & Hh & _ & _ & Hl & _ & Hj).
  split; [exact Hok|]. split; [exact Hh|]. split; [|exact Hj].
  fold r in Hl. rewrite Hl. reflexivity.
Defined.

(** A second call, for another job and at another level, leaves one AMQP
    handler and the level of the first call. *)
Lemma init_logs_twice_witness :
  let st1 := (Logs.init_logs_amqp_send (inr 7) "debug" 1%Z harness_logging).2 in
  let r := Logs.init_logs_amqp_send (inr 7) "error" 2%Z st1 in
  r.1 = None
  ∧ Logs.root_handlers r.2 = [Logs.OtherHandler "console"; Logs.AMQPHandler 7]
  ∧ Logs.root_level r.2 = Logs.DEBUG
  ∧ Logs.mdc_job_id r.2 = Some 2%Z.
Proof.
  intros st1 r.
  destruct (init_logs_twice (inr 7) "debug" "error" 1%Z 2%Z harness_logging 7
              eq_refl eq_refl) as (Hok & Hh & Hl & Hj).
  split; [exact Hok|]. split; [exact Hh|]. split; [|exact Hj].
  fold st1 r in Hl. rewrite Hl. reflexivity.
Defined.

(** The record of the harness, emitted for job 5 and handled on the other
    side. *)
Lemma log_record_round_trip_witness :
  let format := fun (m : string) (a : list string) => "done 1 of 2" in
  let str_job := fun (j : option Z) => "5" in
  ∃ data,
    Logs.emit format str_job "host" (Some 5%Z) harness_record []
    = (None, [(data, "oq.job.5.oq.job.hazard")])
    ∧ Logs.msg data = "done 1 of 2"
    ∧ Logs.getMessage format data = "done 1 of 2"
    ∧ Logs.message_callback (fun _ _ => true) data [] = [data].
Proof.
  intros format str_job.
  destruct (proj1 (log_record_round_trip format str_job "host"
                     (fun _ _ => true) (Some 5%Z) harness_record [] [])
              eq_refl)
    as (data & Hemit & _ & _ & _ & _ & Hmsg & Hcb).
  exists data. split; [exact Hemit|].
  simpl in Hemit. inversion Hemit; subst.
  split; [reflexivity|]. split; [reflexivity|]. reflexivity.
Defined.
